(** * Rotary switching valve controllers (stepper and DC motor variants)

    A shallow embedding of [HelperFunctions.cpp], [SwitchingValve.cpp] and
    [SwitchingValveDCMotor.cpp], with the properties of the position
    controller and of the calibration routine stated over it; and of the
    integer parts of [HotplateClampDCMotor.cpp],
    [HotplateClampStepperMotor.cpp] and [CapperDecapper.cpp].

    Conventions of the embedding
    - [byte] values are integers reduced modulo 256 where the source
      increments or assigns them ([wrap8]); [unsigned long] values are
      reduced modulo 2^32 ([wrap32]).
    - [int] values are plain integers.  Every [int] expression of the two
      valve classes is built from ADC samples (0..1023), byte-sized
      configuration values and small constants, so none of them leaves the
      16-bit range: no wrap-around is reachable there.
    - The hardware is an oracle: the [k]-th call of [analogRead] returns
      [adc k], the [k]-th call of [millis] returns [clock k].  Writes to
      the actuator pins and stepper moves are recorded in a trace, most
      recent first.  Delays and the optional serial logging are omitted.
    - Unbounded [while] loops take a fuel argument; array accesses outside
      the array end in [MemoryFault]. *)

From Stdlib Require Import ZArith List Bool Lia.
From Stdlib Require Strings.String.
From stdpp Require Import base numbers list sorting.
Import ListNotations.
Open Scope Z_scope.

(** ** Machine integers *)

Definition wrap8 (z : Z) : Z := z mod 256.
Definition wrap32 (z : Z) : Z := z mod 2 ^ 32.

(** ** HelperFunctions.cpp *)

(** [int mod(int x, int y)]: [%] of C++ truncates toward zero, which is
    [Z.rem].  (Named [mod_] because [mod] is a notation keyword.) *)
Definition mod_ (x y : Z) : Z :=
  if x <? 0 then Z.rem (x + 1) y + y - 1 else Z.rem x y.

(** [bool isTimedOut(unsigned long startTime, int timeout)], with [now] the
    value returned by the call of [millis()].  The comparison is made in
    [unsigned long], so the [int] timeout is converted to it. *)
Definition isTimedOut (now startTime timeout : Z) : bool :=
  wrap32 timeout <? wrap32 (now - startTime).

(** [String getErrorMessage(byte errors)].  For a code above 3 control
    reaches the end of the function without a [return]: the behaviour is
    undefined, [None]. *)
Module HelperFunctions.
Import Strings.String.
Definition getErrorMessage (errors : Z) : option string :=
  if errors =? 0 then Some EmptyString
  else if errors =? 1 then Some "SENSOR ERROR"%string
  else if errors =? 2 then Some "MAGNET POLARITY ERROR"%string
  else if errors =? 3 then Some "TIMEOUT ERROR"%string
  else None.
End HelperFunctions.

(** ** Results of a run *)

Inductive result (A : Type) : Type :=
| Done (a : A)
| OutOfFuel
| MemoryFault.
Arguments Done {A} a.
Arguments OutOfFuel {A}.
Arguments MemoryFault {A}.

Definition bind {A B : Type} (r : result A) (k : A -> result B) : result B :=
  match r with
  | Done a => k a
  | OutOfFuel => OutOfFuel
  | MemoryFault => MemoryFault
  end.

#[global] Instance result_mbind : MBind result := fun A B k r => bind r k.

(** ** The board: sensor, clock and actuator pins *)

Inductive event : Type :=
| SleepPin (level : bool)          (* digitalWrite(sleepPin, level) *)
| Steps (signedSteps : Z)          (* the stepper ran that many steps *)
| MotorPins (pin1 pin2 : bool).    (* digitalWrite on both DC motor pins *)

Record world : Type := World {
  adcReads : nat;        (* calls of analogRead so far *)
  clockReads : nat;      (* calls of millis so far *)
  trace : list event     (* actuator events, most recent first *)
}.

Definition emit (e : event) (w : world) : world :=
  World (adcReads w) (clockReads w) (e :: trace w).

(** The public fields shared by both valve classes. *)
Record valve : Type := Valve {
  currentPos : Z;
  errors : Z;
  hallSensorIdleSignal : Z;
  hallSensorThreshold : Z
}.

Definition set_currentPos (p : Z) (v : valve) : valve :=
  Valve p (errors v) (hallSensorIdleSignal v) (hallSensorThreshold v).
Definition set_errors (e : Z) (v : valve) : valve :=
  Valve (currentPos v) e (hallSensorIdleSignal v) (hallSensorThreshold v).
Definition set_idle (i : Z) (v : valve) : valve :=
  Valve (currentPos v) (errors v) i (hallSensorThreshold v).
Definition set_threshold (t : Z) (v : valve) : valve :=
  Valve (currentPos v) (errors v) (hallSensorIdleSignal v) t.

(** How a loop body or a phase of a member function ends: the function
    returns, or control goes on with the local variables [L]. *)
Inductive flow (L : Type) : Type :=
| Return (ret : bool) (this : valve) (w : world)
| Next (locals : L) (w : world).
Arguments Return {L} ret this w.
Arguments Next {L} locals w.

(** What a member function hands back: its [bool], the object and the board. *)
Definition outcome : Type := bool * valve * world.

(** Sequencing inside a member function: a [return] in the first part ends
    the function, otherwise the second part runs with the locals. *)
Definition andThen {L : Type} (r : result (flow L)) (k : L -> world -> result outcome)
    : result outcome :=
  match r with
  | Done (Return ret this w) => Done (ret, this, w)
  | Done (Next l w) => k l w
  | OutOfFuel => OutOfFuel
  | MemoryFault => MemoryFault
  end.

Section Board.
Variable adc : nat -> Z.
Variable clock : nat -> Z.

Definition millis (w : world) : Z * world :=
  (wrap32 (clock (clockReads w)),
   World (adcReads w) (S (clockReads w)) (trace w)).

(** [readHallSensorSignal]: one discarded read, then the mean of four.
    Both classes define it with the same body. *)
Definition readHallSensorSignal (w : world) : Z * world :=
  let k := adcReads w in
  let hallAnalogSignal :=
    0 + adc (1 + k)%nat + adc (2 + k)%nat + adc (3 + k)%nat + adc (4 + k)%nat in
  (Z.quot hallAnalogSignal 4, World (5 + k)%nat (clockReads w) (trace w)).

(** [abs(hallSignal - hallSensorIdleSignal) >= hallSensorThreshold] *)
Definition aboveThreshold (this : valve) (hallSignal : Z) : bool :=
  hallSensorThreshold this <=? Z.abs (hallSignal - hallSensorIdleSignal this).
End Board.

(** ** Pieces shared by the two calibration routines *)

(** [ace_sorting::shellSortKnuth] (AceSorting library, not part of the
    repository) sorts an [int] array in ascending order; it is modelled by
    its contract. *)
Definition shellSortKnuth (a : list Z) : list Z := merge_sort Z.le a.

(** Reading [a[i]]; outside the array the behaviour is undefined. *)
Definition readAt (a : list Z) (i : Z) : result Z :=
  if (0 <=? i) && (i <? Z.of_nat (length a))
  then Done (a !!! Z.to_nat i)
  else MemoryFault.

(** The test of the baseline scan:
    [sensorSignals[i-1] >= sensorSignals[i] && sensorSignals[i+1] >= sensorSignals[i]]. *)
Definition isLocalMin (sensorSignals : list Z) (i : nat) : bool :=
  (sensorSignals !!! (i - 1)%nat >=? sensorSignals !!! i)
  && (sensorSignals !!! (i + 1)%nat >=? sensorSignals !!! i).

(** The indices visited by [for (int i=1; i < len - 1; i++)]. *)
Definition innerIndices (sensorSignals : list Z) : list nat :=
  seq 1 (length sensorSignals - 2).

(** [(int)(x * 0.36787)] and [(int)(x / 2.5)]: the conversion truncates
    toward zero.  Evaluated exactly; IEEE single and double precision give
    the same integer for every [x] in 0..11938, which covers every
    deviation of a 10-bit sample. *)
Definition attenuate (x : Z) : Z := Z.quot (x * 36787) 100000.
Definition divideBy2_5 (x : Z) : Z := Z.quot (x * 2) 5.

(** The locals of the polarity census and of the search for the reversed
    magnet. *)
Record censusLocals : Type := CensusLocals {
  c_hallSignal : Z;
  c_isAboveThreshold : bool;
  c_signalCounter : Z;
  posPolarityCounter : Z;
  negPolarityCounter : Z
}.

(** The branch taken at the head of [gotoPosition] (the same test in both
    classes): [true] for the first branch, with the number of magnet
    signals to travel. *)
Definition chooseDirection (ports currentPos targetPos : Z) : bool * Z :=
  if mod_ (targetPos - currentPos) ports <? Z.quot ports 2
  then (true, mod_ (targetPos - currentPos) ports)
  else (false, ports - mod_ (targetPos - currentPos) ports).

(** * SwitchingValve.cpp: the stepper-driven valve *)
Module Stepper.

Record config : Type := Config {
  microSteppingFactor : Z;
  stepsPerRevolution : Z;     (* already multiplied by microSteppingFactor *)
  stepsPerSecond : Z;
  reversedPolarityPos : Z;
  ports : Z;
  clockwiseNumbering : bool;
  enableIsHigh : bool
}.

(** The constructor's default arguments. *)
Definition defaultConfig : config := Config 1 200 400 3 6 false true.

Record gotoLocals : Type := GotoLocals {
  mul : Z;
  hallSignal : Z;
  signalCounter : Z;
  isAboveThreshold : bool
}.

Section Valve.
Variable adc : nat -> Z.
Variable clock : nat -> Z.
Variable cfg : config.

(** [takeSteps]: the AccelStepper loop runs until [dir*steps] steps
    have been made; with clockwise numbering the direction flips. *)
Definition takeSteps (dir steps : Z) (w : world) : world :=
  let dir := if clockwiseNumbering cfg then dir * -1 else dir in
  emit (Steps (dir * steps)) w.

Definition timeout : Z := 2000.

(** Coarse adjustment loop of [gotoPosition] (lines 105-124). *)
Fixpoint coarseLoop (fuel : nat) (this : valve) (dir signalSteps startTime : Z)
    (l : gotoLocals) (w : world) : result (flow gotoLocals) :=
  match fuel with
  | O => OutOfFuel
  | S fuel' =>
    if signalCounter l <=? signalSteps then
      let w := takeSteps dir (mul l) w in
      let '(now, w) := millis clock w in
      if isTimedOut now startTime timeout then
        let w := emit (SleepPin (negb (enableIsHigh cfg))) w in
        Done (Return true (set_errors 3 this) w)
      else
        let '(hallSignal, w) := readHallSensorSignal adc w in
        let '(signalCounter, isAboveThreshold) :=
          if negb (isAboveThreshold l) && aboveThreshold this hallSignal
          then (wrap8 (signalCounter l + 1), true)
          else (signalCounter l, isAboveThreshold l) in
        let '(isAboveThreshold, mul) :=
          if negb (aboveThreshold this hallSignal)
          then (false,
                if signalCounter =? signalSteps
                then wrap8 (microSteppingFactor cfg) else mul l)
          else (isAboveThreshold, mul l) in
        coarseLoop fuel' this dir signalSteps startTime
          (GotoLocals mul hallSignal signalCounter isAboveThreshold) w
    else Done (Next l w)
  end.

(** Fine adjustment loop of [gotoPosition] (lines 127-138); the locals
    are [lastRead], [hallSignal] and [isAboveThreshold]. *)
Fixpoint fineLoop (fuel : nat) (this : valve) (dir startTime : Z)
    (lastRead hallSignal : Z) (isAboveThreshold : bool) (w : world)
    : result (flow unit) :=
  match fuel with
  | O => OutOfFuel
  | S fuel' =>
    if negb isAboveThreshold
       || (isAboveThreshold
           && (Z.abs (lastRead - hallSensorIdleSignal this)
               <=? Z.abs (hallSignal - hallSensorIdleSignal this)))
    then
      let '(now, w) := millis clock w in
      if isTimedOut now startTime timeout then
        let w := emit (SleepPin (negb (enableIsHigh cfg))) w in
        Done (Return false (set_errors 3 this) w)
      else
        let w := takeSteps dir 1 w in
        let lastRead := hallSignal in
        let '(hallSignal, w) := readHallSensorSignal adc w in
        fineLoop fuel' this dir startTime lastRead hallSignal
          (aboveThreshold this hallSignal) w
    else Done (Next tt w)
  end.

(** [bool SwitchingValve::gotoPosition(byte targetPos)] *)
Definition gotoPosition (fuel : nat) (targetPos : Z) (this : valve) (w : world)
    : result outcome :=
  let mul := wrap8 (3 * microSteppingFactor cfg) in
  let '(startTime, w) := millis clock w in
  let '(first, signalSteps) := chooseDirection (ports cfg) (currentPos this) targetPos in
  let dir := if first then 1 else -1 in
  let w := emit (SleepPin (enableIsHigh cfg)) w in
  andThen (coarseLoop fuel this dir signalSteps startTime (GotoLocals mul 0 0 false) w)
    (fun l w =>
       andThen (fineLoop fuel this dir startTime (hallSignal l) (hallSignal l)
                  (isAboveThreshold l) w)
         (fun _ w =>
            let w := emit (SleepPin (negb (enableIsHigh cfg))) w in
            Done (true, set_errors 0 (set_currentPos targetPos this), w))).

(** *** [initializeValve], phase by phase *)

(** [const byte mul = 3*this->microSteppingFactor] *)
Definition initMul : Z := wrap8 (3 * microSteppingFactor cfg).

(** The length of [sensorSignals],
    [(int)((float)this->stepsPerRevolution / mul)+1]; the quotient of
    the two integers is exact enough in floating point for the
    truncation to be that of the integer quotient ([mul] is not 0). *)
Definition sensorSignalsLength : nat :=
  Z.to_nat (Z.quot (stepsPerRevolution cfg) initMul + 1).

(** Lines 162-167: reset the calibration and add up three idle reads. *)
Definition idleReads (this : valve) (w : world) : valve * world :=
  let this := set_idle 0 (set_threshold 0 this) in
  let '(r0, w) := readHallSensorSignal adc w in
  let this := set_idle (hallSensorIdleSignal this + r0) this in
  let '(r1, w) := readHallSensorSignal adc w in
  let this := set_idle (hallSensorIdleSignal this + r1) this in
  let '(r2, w) := readHallSensorSignal adc w in
  let this := set_idle (hallSensorIdleSignal this + r2) this in
  (this, w).

(** Lines 178-181: one rotation, a sample after every burst of steps. *)
Fixpoint sampleRotation (n : nat) (w : world) : list Z * world :=
  match n with
  | O => ([], w)
  | S n' =>
    let w := takeSteps 1 initMul w in
    let '(x, w) := readHallSensorSignal adc w in
    let '(rest, w) := sampleRotation n' w in
    (x :: rest, w)
  end.

(** An [int] array of 64 elements that has not been written yet holds
    whatever the stack held: [junk] in every slot.  (Only the last slot
    of [maxValues] is ever read before it is written.) *)
Variable junk : Z.

(** Lines 185-188, the body of the baseline scan: a local minimum goes
    to [minValuesTmp[j%64]]. *)
Definition storeMinimum (sensorSignals : list Z) (acc : nat * list Z) (i : nat)
    : nat * list Z :=
  let '(j, minValuesTmp) := acc in
  if isLocalMin sensorSignals i
  then (S j, <[(j mod 64)%nat := sensorSignals !!! i]> minValuesTmp)
  else (j, minValuesTmp).

(** Lines 183-189. *)
Definition collectMinima (sensorSignals : list Z) : nat * list Z :=
  foldl (storeMinimum sensorSignals) (0%nat, replicate 64 junk) (innerIndices sensorSignals).

(** The test of the threshold scan (line 202). *)
Definition isLocalMax (sensorSignals : list Z) (idle : Z) (i : nat) : bool :=
  (Z.abs (sensorSignals !!! (i - 1)%nat - idle) <=? Z.abs (sensorSignals !!! i - idle))
  && (Z.abs (sensorSignals !!! (i + 1)%nat - idle) <=? Z.abs (sensorSignals !!! i - idle)).

(** Lines 202-205, the body of the threshold scan: a local maximum of the
    deviation goes to [maxValues[j%64]]. *)
Definition storeMaximum (sensorSignals : list Z) (idle : Z) (acc : nat * list Z) (i : nat)
    : nat * list Z :=
  let '(j, maxValues) := acc in
  if isLocalMax sensorSignals idle i
  then (S j, <[(j mod 64)%nat := Z.abs (sensorSignals !!! i - idle)]> maxValues)
  else (j, maxValues).

(** Lines 199-206. *)
Definition collectMaxima (sensorSignals : list Z) (idle : Z) : nat * list Z :=
  foldl (storeMaximum sensorSignals idle) (0%nat, replicate 64 junk)
    (innerIndices sensorSignals).

(** Lines 207-209: [for (int i=j; i < 64 - 1; i++) maxValues[i] = 0]. *)
Definition zeroFrom (j : nat) (maxValues : list Z) : list Z :=
  foldl (fun a i => <[i := 0]> a) maxValues (seq j (63 - j)).

(** The 64 values that are sorted at line 211. *)
Definition maxValuesBuffer (sensorSignals : list Z) (idle : Z) : list Z :=
  let '(j, maxValues) := collectMaxima sensorSignals idle in
  zeroFrom j maxValues.

(** Lines 183-212: idle signal and threshold from the samples. *)
Definition calibrate (sensorSignals : list Z) (this : valve) : result valve :=
  let '(j, minValuesTmp) := collectMinima sensorSignals in
  let j := (j mod 64)%nat in
  let minValues := shellSortKnuth (take j minValuesTmp) in
  idle ← readAt minValues (Z.quot (Z.of_nat j) 2);
  let this := set_idle idle this in
  let maxValues :=
    shellSortKnuth (maxValuesBuffer sensorSignals (hallSensorIdleSignal this)) in
  peak ← readAt maxValues (64 - ports cfg);
  Done (set_threshold (attenuate peak) this).

(** Lines 218-233: the census over one more rotation. *)
Fixpoint censusLoop (n : nat) (this : valve) (l : censusLocals) (w : world)
    : censusLocals * world :=
  match n with
  | O => (l, w)
  | S n' =>
    let w := takeSteps 1 initMul w in
    let '(hallSignal, w) := readHallSensorSignal adc w in
    let l :=
      if negb (c_isAboveThreshold l) && aboveThreshold this hallSignal
      then
        if hallSensorIdleSignal this <? hallSignal
        then CensusLocals hallSignal true (c_signalCounter l)
               (wrap8 (posPolarityCounter l + 1)) (negPolarityCounter l)
        else CensusLocals hallSignal true (c_signalCounter l)
               (posPolarityCounter l) (wrap8 (negPolarityCounter l + 1))
      else CensusLocals hallSignal (c_isAboveThreshold l) (c_signalCounter l)
             (posPolarityCounter l) (negPolarityCounter l) in
    let l :=
      if negb (aboveThreshold this hallSignal)
      then CensusLocals (c_hallSignal l) false (c_signalCounter l)
             (posPolarityCounter l) (negPolarityCounter l)
      else l in
    censusLoop n' this l w
  end.

(** Lines 248-266: step on until a signal of the minority polarity. *)
Fixpoint searchLoop (fuel : nat) (this : valve) (startTime : Z)
    (majorityHasPositivePolarity : bool)
    (hallSignal : Z) (isAboveThreshold : bool) (signalCounter : Z) (w : world)
    : result (flow (Z * bool * Z)) :=
  match fuel with
  | O => OutOfFuel
  | S fuel' =>
    if signalCounter <=? 2 * ports cfg then
      let '(now, w) := millis clock w in
      if isTimedOut now startTime timeout then
        let w := emit (SleepPin (negb (enableIsHigh cfg))) w in
        Done (Return false (set_errors 3 this) w)
      else
        let '(hallSignal, w) := readHallSensorSignal adc w in
        if negb isAboveThreshold && aboveThreshold this hallSignal then
          let signalCounter := wrap8 (signalCounter + 1) in
          if negb (eqb (hallSensorIdleSignal this <? hallSignal)
                     majorityHasPositivePolarity)
          then Done (Next (hallSignal, true, signalCounter) w)
          else
            let isAboveThreshold :=
              if negb (aboveThreshold this hallSignal) then false else true in
            let w := takeSteps 1 initMul w in
            searchLoop fuel' this startTime majorityHasPositivePolarity hallSignal
              isAboveThreshold signalCounter w
        else
          let isAboveThreshold :=
            if negb (aboveThreshold this hallSignal) then false else isAboveThreshold in
          let w := takeSteps 1 initMul w in
          searchLoop fuel' this startTime majorityHasPositivePolarity hallSignal
            isAboveThreshold signalCounter w
    else Done (Next (hallSignal, isAboveThreshold, signalCounter) w)
  end.

(** Lines 275-286: climb the reversed peak in single steps.  (The
    assignment to [isAboveThreshold] in the body is never read.) *)
Fixpoint homingLoop (fuel : nat) (this : valve) (startTime : Z)
    (lastRead hallSignal : Z) (w : world) : result (flow unit) :=
  match fuel with
  | O => OutOfFuel
  | S fuel' =>
    if Z.abs (lastRead - hallSensorIdleSignal this)
       <=? Z.abs (hallSignal - hallSensorIdleSignal this)
    then
      let '(now, w) := millis clock w in
      if isTimedOut now startTime timeout then
        let w := emit (SleepPin (negb (enableIsHigh cfg))) w in
        Done (Return false (set_errors 3 this) w)
      else
        let w := takeSteps 1 1 w in
        let lastRead := hallSignal in
        let '(hallSignal, w) := readHallSensorSignal adc w in
        homingLoop fuel' this startTime lastRead hallSignal w
    else Done (Next tt w)
  end.

(** Lines 287-292: the end of a calibration that found the magnet. *)
Definition finalize (fuel : nat) (this : valve) (w : world) : result outcome :=
  let w := takeSteps (-1) 1 w in
  let w := emit (SleepPin (negb (enableIsHigh cfg))) w in
  let this := set_currentPos (reversedPolarityPos cfg) this in
  '(_, this, w) ← gotoPosition fuel 0 this w;
  Done (true, set_errors 0 this, w).

(** Lines 241-267: where is the magnet of reversed polarity?  Hands on the
    object, [hallSignal], [signalCounter] and [startTime]. *)
Definition locate (fuel : nat) (this : valve) (l : censusLocals) (w : world)
    : result (flow (valve * Z * Z * Z)) :=
  let majorityHasPositivePolarity := negPolarityCounter l <? posPolarityCounter l in
  let '(startTime, w) := millis clock w in
  if c_isAboveThreshold l
     && negb (eqb (hallSensorIdleSignal this <? c_hallSignal l) majorityHasPositivePolarity)
  then
    let this := set_currentPos (reversedPolarityPos cfg) this in
    Done (Next (this, c_hallSignal l, c_signalCounter l, startTime) w)
  else
    f ← searchLoop fuel this startTime majorityHasPositivePolarity
          (c_hallSignal l) (c_isAboveThreshold l) (c_signalCounter l) w;
    match f with
    | Return ret this w => Done (Return ret this w)
    | Next (hallSignal, _, signalCounter) w =>
      Done (Next (this, hallSignal, signalCounter, startTime) w)
    end.

(** Lines 235-292: everything after the census. *)
Definition afterCensus (fuel : nat) (this : valve) (l : censusLocals) (w : world)
    : result outcome :=
  if negb (Z.abs (posPolarityCounter l - negPolarityCounter l) =? ports cfg - 2)
  then Done (false, set_errors 2 this, emit (SleepPin (negb (enableIsHigh cfg))) w)
  else
    andThen (locate fuel this l w)
      (fun '(this, hallSignal, signalCounter, startTime) w =>
         if 2 * ports cfg <=? signalCounter
         then Done (false, set_errors 2 this, emit (SleepPin (negb (enableIsHigh cfg))) w)
         else
           andThen (homingLoop fuel this startTime hallSignal hallSignal w)
             (fun _ w => finalize fuel this w)).

(** Lines 173-233: calibration and census, up to the polarity counters. *)
Definition censusPhase (this : valve) (w : world)
    : result (valve * censusLocals * world) :=
  let w := emit (SleepPin (enableIsHigh cfg)) w in
  let this := set_idle 512 this in
  let '(sensorSignals, w) := sampleRotation sensorSignalsLength w in
  this ← calibrate sensorSignals this;
  let '(hallSignal, w) := readHallSensorSignal adc w in
  let isAboveThreshold := aboveThreshold this hallSignal in
  let '(l, w) := censusLoop sensorSignalsLength this
                   (CensusLocals hallSignal isAboveThreshold 0 0 0) w in
  Done (this, l, w).

(** Lines 153-233: from the first statement to the end of the census.
    The initialiser of the local [hallSignal] reads the sensor once before
    anything else. *)
Definition throughCensus (this : valve) (w : world)
    : result (flow (valve * censusLocals)) :=
  let '(_, w) := readHallSensorSignal adc w in
  let '(this, w) := idleReads this w in
  if hallSensorIdleSignal this =? 0
  then Done (Return false (set_errors 1 this) w)
  else
    '(this, l, w) ← censusPhase this w;
    Done (Next (this, l) w).

(** [bool SwitchingValve::initializeValve(void)] *)
Definition initializeValve (fuel : nat) (this : valve) (w : world) : result outcome :=
  andThen (throughCensus this w) (fun '(this, l) w => afterCensus fuel this l w).
End Valve.
End Stepper.


(** * SwitchingValveDCMotor.cpp: the DC-motor-driven valve *)
Module DCMotor.

Record config : Type := Config {
  reversedPolarityPos : Z;
  ports : Z;
  clockwiseNumbering : bool
}.

(** The constructor's default arguments. *)
Definition defaultConfig : config := Config 5 10 false.

Section Valve.
Variable adc : nat -> Z.
Variable clock : nat -> Z.
Variable cfg : config.

Definition startTurning (dirIncreasing : bool) (w : world) : world :=
  if (clockwiseNumbering cfg && dirIncreasing)
     || (negb (clockwiseNumbering cfg) && negb dirIncreasing)
  then emit (MotorPins true false) w
  else emit (MotorPins false true) w.

Definition stopTurning (w : world) : world := emit (MotorPins false false) w.

(** The loop of [gotoPosition] (lines 94-108); the locals are
    [hallSignal], [signalCounter] and [isAboveThreshold]. *)
Fixpoint travelLoop (fuel : nat) (this : valve) (signalSteps startTime : Z)
    (hallSignal signalCounter : Z) (isAboveThreshold : bool) (w : world)
    : result (flow unit) :=
  match fuel with
  | O => OutOfFuel
  | S fuel' =>
    if signalCounter <=? signalSteps then
      let '(now, w) := millis clock w in
      if isTimedOut now startTime 1500 then
        Done (Return false (set_errors 3 this) (stopTurning w))
      else
        let '(hallSignal, w) := readHallSensorSignal adc w in
        let '(signalCounter, isAboveThreshold) :=
          if negb isAboveThreshold && aboveThreshold this hallSignal
          then (wrap8 (signalCounter + 1), true)
          else (signalCounter, isAboveThreshold) in
        let isAboveThreshold :=
          if negb (aboveThreshold this hallSignal) then false else isAboveThreshold in
        travelLoop fuel' this signalSteps startTime hallSignal signalCounter
          isAboveThreshold w
    else Done (Next tt w)
  end.

(** [bool SwitchingValveDCMotor::gotoPosition(byte targetPos)] *)
Definition gotoPosition (fuel : nat) (targetPos : Z) (this : valve) (w : world)
    : result outcome :=
  let '(startTime, w) := millis clock w in
  let '(first, signalSteps) := chooseDirection (ports cfg) (currentPos this) targetPos in
  let dirIncreasing := if first then false else true in
  let w := startTurning dirIncreasing w in
  andThen (travelLoop fuel this signalSteps startTime 0 0 false w)
    (fun _ w =>
       let w := stopTurning w in
       Done (true, set_errors 0 (set_currentPos targetPos this), w)).

(** *** [initializeValve], phase by phase *)

(** Lines 132-137: reset the calibration and add up three idle reads. *)
Definition idleReads (this : valve) (w : world) : valve * world :=
  let this := set_idle 0 (set_threshold 0 this) in
  let '(r0, w) := readHallSensorSignal adc w in
  let this := set_idle (hallSensorIdleSignal this + r0) this in
  let '(r1, w) := readHallSensorSignal adc w in
  let this := set_idle (hallSensorIdleSignal this + r1) this in
  let '(r2, w) := readHallSensorSignal adc w in
  let this := set_idle (hallSensorIdleSignal this + r2) this in
  (this, w).

(** Lines 149-156: [n] samples, tracking the extreme values that stay
    within 200 of the provisional idle signal. *)
Fixpoint sampleRotation (n : nat) (this : valve) (minValue maxValue : Z) (w : world)
    : list Z * Z * Z * world :=
  match n with
  | O => ([], minValue, maxValue, w)
  | S n' =>
    let '(x, w) := readHallSensorSignal adc w in
    let '(minValue, maxValue) :=
      if (maxValue <? x) && (Z.abs (x - hallSensorIdleSignal this) <? 200)
      then (minValue, x)
      else if (x <? minValue) && (Z.abs (x - hallSensorIdleSignal this) <? 200)
      then (x, maxValue)
      else (minValue, maxValue) in
    let '(rest, minValue, maxValue, w) := sampleRotation n' this minValue maxValue w in
    (x :: rest, minValue, maxValue, w)
  end.

(** Lines 161-164, the body of the baseline scan: a local minimum is
    written to [minValuesTmp[j]], a buffer of 64 [int]s, with no test on
    [j]. *)
Definition storeMinimum (sensorSignals : list Z) (acc : result (nat * list Z)) (i : nat)
    : result (nat * list Z) :=
  '(j, minValuesTmp) ← acc;
  if isLocalMin sensorSignals i then
    if (j <? 64)%nat
    then Done (S j, <[j := sensorSignals !!! i]> minValuesTmp)
    else MemoryFault
  else Done (j, minValuesTmp).

(** Lines 159-165.  (The initial content of the buffer is never read.) *)
Definition collectMinima (sensorSignals : list Z) : result (nat * list Z) :=
  foldl (storeMinimum sensorSignals) (Done (0%nat, replicate 64 0))
    (innerIndices sensorSignals).

(** Lines 166-175: idle signal and threshold from the samples.  (Sorting
    [sensorSignals] at line 174 changes nothing that is read later.) *)
Definition calibrate (sensorSignals : list Z) (minValue maxValue : Z) (this : valve)
    : result valve :=
  '(j, minValuesTmp) ← collectMinima sensorSignals;
  let minValues := shellSortKnuth (take j minValuesTmp) in
  idle ← readAt minValues (Z.quot (Z.of_nat j) 2);
  let this := set_idle idle this in
  Done (set_threshold
          (divideBy2_5 (Z.min (Z.abs (minValue - hallSensorIdleSignal this))
                              (Z.abs (maxValue - hallSensorIdleSignal this))))
          this).

(** Lines 182-201: the census over two rotations (2*ports signals). *)
Fixpoint censusLoop (fuel : nat) (this : valve) (startTime : Z)
    (l : censusLocals) (w : world) : result (flow censusLocals) :=
  match fuel with
  | O => OutOfFuel
  | S fuel' =>
    if c_signalCounter l <? 2 * ports cfg then
      let '(hallSignal, w) := readHallSensorSignal adc w in
      let l :=
        if negb (c_isAboveThreshold l) && aboveThreshold this hallSignal
        then
          if hallSensorIdleSignal this <? hallSignal
          then CensusLocals hallSignal true (wrap8 (c_signalCounter l + 1))
                 (wrap8 (posPolarityCounter l + 1)) (negPolarityCounter l)
          else CensusLocals hallSignal true (wrap8 (c_signalCounter l + 1))
                 (posPolarityCounter l) (wrap8 (negPolarityCounter l + 1))
        else CensusLocals hallSignal (c_isAboveThreshold l) (c_signalCounter l)
               (posPolarityCounter l) (negPolarityCounter l) in
      let l :=
        if negb (aboveThreshold this hallSignal)
        then CensusLocals (c_hallSignal l) false (c_signalCounter l)
               (posPolarityCounter l) (negPolarityCounter l)
        else l in
      let '(now, w) := millis clock w in
      if isTimedOut now startTime 3000 then
        Done (Return false (set_errors 3 this) (stopTurning w))
      else censusLoop fuel' this startTime l w
    else Done (Next l w)
  end.

(** Lines 217-234: turn until a signal of the minority polarity; the
    [bool] of the result tells whether the loop was left by [break]. *)
Fixpoint searchLoop (fuel : nat) (this : valve) (startTime : Z)
    (majorityHasPositivePolarity : bool)
    (hallSignal : Z) (isAboveThreshold : bool) (signalCounter : Z) (w : world)
    : result (flow (Z * bool * Z)) :=
  match fuel with
  | O => OutOfFuel
  | S fuel' =>
    if signalCounter <=? 2 * ports cfg then
      let '(now, w) := millis clock w in
      if isTimedOut now startTime 3000 then
        Done (Return false (set_errors 3 this) (stopTurning w))
      else
        let '(hallSignal, w) := readHallSensorSignal adc w in
        if negb isAboveThreshold && aboveThreshold this hallSignal then
          let signalCounter := wrap8 (signalCounter + 1) in
          if negb (eqb (hallSensorIdleSignal this <? hallSignal)
                     majorityHasPositivePolarity)
          then Done (Next (hallSignal, true, signalCounter) w)
          else
            searchLoop fuel' this startTime majorityHasPositivePolarity hallSignal
              (if negb (aboveThreshold this hallSignal) then false else true)
              signalCounter w
        else
          searchLoop fuel' this startTime majorityHasPositivePolarity hallSignal
            (if negb (aboveThreshold this hallSignal) then false else isAboveThreshold)
            signalCounter w
    else Done (Next (hallSignal, isAboveThreshold, signalCounter) w)
  end.

(** Lines 243-247: the end of a calibration that found the magnet. *)
Definition finalize (fuel : nat) (this : valve) (w : world) : result outcome :=
  let this := set_currentPos (reversedPolarityPos cfg) this in
  '(_, this, w) ← gotoPosition fuel 0 this w;
  Done (true, set_errors 0 this, w).

(** Lines 208-235: where is the magnet of reversed polarity?  Hands on the
    object and [signalCounter]. *)
Definition locate (fuel : nat) (this : valve) (l : censusLocals) (w : world)
    : result (flow (valve * Z)) :=
  let majorityHasPositivePolarity := negPolarityCounter l <? posPolarityCounter l in
  let '(startTime, w) := millis clock w in
  let signalCounter := 0 in
  let w := startTurning true w in
  if c_isAboveThreshold l
     && negb (eqb (hallSensorIdleSignal this <? c_hallSignal l) majorityHasPositivePolarity)
  then Done (Next (set_currentPos (reversedPolarityPos cfg) this, signalCounter) w)
  else
    f ← searchLoop fuel this startTime majorityHasPositivePolarity
          (c_hallSignal l) (c_isAboveThreshold l) signalCounter w;
    match f with
    | Return ret this w => Done (Return ret this w)
    | Next (_, _, signalCounter) w => Done (Next (this, signalCounter) w)
    end.

(** Lines 202-247: everything after the census. *)
Definition afterCensus (fuel : nat) (this : valve) (l : censusLocals) (w : world)
    : result outcome :=
  let w := stopTurning w in
  if negb (Z.abs (posPolarityCounter l - negPolarityCounter l) =? 2 * (ports cfg - 2))
  then Done (false, set_errors 2 this, w)
  else
    andThen (locate fuel this l w)
      (fun '(this, signalCounter) w =>
         let w := stopTurning w in
         if 2 * ports cfg <=? signalCounter
         then Done (false, set_errors 2 this, w)
         else finalize fuel this w).

(** Lines 142-201: calibration and census, up to the polarity counters. *)
Definition censusPhase (fuel : nat) (this : valve) (w : world)
    : result (flow (valve * censusLocals)) :=
  let '(_, w) := readHallSensorSignal adc w in
  let this := set_idle 512 this in
  let w := startTurning true w in
  let '(sensorSignals, minValue, maxValue, w) := sampleRotation 512 this 1023 0 w in
  let w := stopTurning w in
  this ← calibrate sensorSignals minValue maxValue this;
  let '(hallSignal, w) := readHallSensorSignal adc w in
  let isAboveThreshold := aboveThreshold this hallSignal in
  let '(startTime, w) := millis clock w in
  let w := startTurning true w in
  f ← censusLoop fuel this startTime (CensusLocals hallSignal isAboveThreshold 0 0 0) w;
  match f with
  | Return ret this w => Done (Return ret this w)
  | Next l w => Done (Next (this, l) w)
  end.

(** Lines 132-201: from the first statement to the end of the census. *)
Definition throughCensus (fuel : nat) (this : valve) (w : world)
    : result (flow (valve * censusLocals)) :=
  let '(this, w) := idleReads this w in
  if hallSensorIdleSignal this =? 0
  then Done (Return false (set_errors 1 this) w)
  else censusPhase fuel this w.

(** [bool SwitchingValveDCMotor::initializeValve(void)] *)
Definition initializeValve (fuel : nat) (this : valve) (w : world) : result outcome :=
  andThen (throughCensus fuel this w) (fun '(this, l) w => afterCensus fuel this l w).
End Valve.
End DCMotor.


(** * The hotplate clamp: HotplateClampDCMotor.cpp and HotplateClampStepperMotor.cpp

    The stage of the clamp is moved by a DC motor between two limit
    switches, or by a stepper towards one; its jaws are moved by a servo.
    Embedded here are the member functions that work on integers: the
    moves to a limit switch and the servo moves.  ([goUp(int)],
    [goDown(int)] and [getCurrentSensorData] compute with floating-point
    currents, [takeSteps] and [gotoPosition] of the stepper variant
    depend on the state of the AccelStepper object: they are left out.)

    The [k]-th call of [digitalRead] on a limit switch returns
    [switch pin k], the [k]-th call of [millis] returns [clock k]; writes
    to the servo, the motor pins and the stepper are recorded, most recent
    first.  Delays are omitted.  The [int] values are plain integers: the
    statements about the servo assume angles that keep every difference
    within 16 bits. *)
Module HotplateClamp.

Inductive limitSwitch : Type := SwitchUp | SwitchDown | SwitchHome.

Inductive event : Type :=
| ServoWrite (angle : Z)           (* clampServo.write(angle) *)
| StagePins (pin1 pin2 : bool)     (* digitalWrite on both pins of the DC motor *)
| StageSleepPin (level : bool)     (* digitalWrite(sleepPin, level) *)
| RunSpeed (speed : Z).            (* stageStepper.setSpeed(speed); stageStepper.runSpeed() *)

Record board : Type := Board {
  switchReads : nat;       (* calls of digitalRead so far *)
  millisCalls : nat;       (* calls of millis so far *)
  actions : list event     (* what was done to servo and stage, most recent first *)
}.

Definition act (e : event) (b : board) : board :=
  Board (switchReads b) (millisCalls b) (e :: actions b).

Section Pins.
Variable switch : limitSwitch -> nat -> bool.
Variable clock : nat -> Z.

(** [digitalRead(pin) == HIGH] *)
Definition digitalRead (pin : limitSwitch) (b : board) : bool * board :=
  (switch pin (switchReads b), Board (S (switchReads b)) (millisCalls b) (actions b)).

Definition millis (b : board) : Z * board :=
  (wrap32 (clock (millisCalls b)), Board (switchReads b) (S (millisCalls b)) (actions b)).
End Pins.

(** The loop of [openClamp] and [closeClamp],
    [for (int i=0; i<slowdownDegrees; i++) { currentServoPos += inc;
    clampServo.write(currentServoPos); delay(waitPerStep); }],
    with [n] the number of turns that [slowdownDegrees] allows. *)
Fixpoint creep (n : nat) (inc currentServoPos : Z) (b : board) : Z * board :=
  match n with
  | O => (currentServoPos, b)
  | S n' =>
    let currentServoPos := currentServoPos + inc in
    let b := act (ServoWrite currentServoPos) b in
    creep n' inc currentServoPos b
  end.

End HotplateClamp.

(** ** HotplateClampDCMotor.cpp *)
Module HotplateClampDCMotor.
Import HotplateClamp.

Record config : Type := Config {
  servoClosedPos : Z;
  servoOpenedPos : Z
}.

(** The constructor's default arguments. *)
Definition defaultConfig : config := Config 0 180.

Record clamp : Type := Clamp {
  currentServoPos : Z;
  errors : Z
}.

(** What a [bool] member function hands back. *)
Definition outcome : Type := bool * clamp * board.

Section Clamp.
Variable switch : limitSwitch -> nat -> bool.
Variable clock : nat -> Z.
Variable cfg : config.

(** The constructor writes the opened position to the servo. *)
Definition construct (b : board) : clamp * board :=
  let b := act (ServoWrite (servoOpenedPos cfg)) b in
  (Clamp (servoOpenedPos cfg) 0, b).

(** Lines 71-74 and 123-126:
    [while (digitalRead(pin)==HIGH && !isTimedOut(startTime, timeout))]
    with an empty body; [millis] is called only when the switch reads
    HIGH. *)
Fixpoint waitForSwitch (fuel : nat) (pin : limitSwitch) (startTime : Z) (b : board)
    : result board :=
  match fuel with
  | O => OutOfFuel
  | S fuel' =>
    let '(high, b) := digitalRead switch pin b in
    if high then
      let '(now, b) := millis clock b in
      if negb (isTimedOut now startTime 30000)
      then waitForSwitch fuel' pin startTime b
      else Done b
    else Done b
  end.

(** [bool HotplateClampDCMotor::goUp()] *)
Definition goUp (fuel : nat) (this : clamp) (b : board) : result outcome :=
  let '(startTime, b) := millis clock b in
  let b := act (StagePins true false) b in
  b ← waitForSwitch fuel SwitchUp startTime b;
  let b := act (StagePins false false) b in
  let '(high, b) := digitalRead switch SwitchUp b in
  if high then Done (false, Clamp (currentServoPos this) 3, b)
  else
    let b := act (StagePins false true) b in
    let b := act (StagePins false false) b in
    Done (true, this, b).

(** [bool HotplateClampDCMotor::goDown()] *)
Definition goDown (fuel : nat) (this : clamp) (b : board) : result outcome :=
  let '(startTime, b) := millis clock b in
  let b := act (StagePins false true) b in
  b ← waitForSwitch fuel SwitchDown startTime b;
  let b := act (StagePins false false) b in
  let '(high, b) := digitalRead switch SwitchDown b in
  if high then Done (false, Clamp (currentServoPos this) 3, b)
  else
    let b := act (StagePins true false) b in
    let b := act (StagePins false false) b in
    Done (true, this, b).

(** [void HotplateClampDCMotor::openClamp(int servoPos=-1, int slowdownDegrees=20)] *)
Definition openClamp (servoPos slowdownDegrees : Z) (this : clamp) (b : board)
    : clamp * board :=
  let servoPos := if servoPos =? -1 then servoOpenedPos cfg else servoPos in
  if servoPos =? currentServoPos this then (this, b)
  else
    let slowdownDegrees :=
      Z.min (Z.abs (currentServoPos this - servoPos)) slowdownDegrees in
    let inc := if servoPos <=? currentServoPos this then -1 else 1 in
    let '(pos, b) := creep (Z.to_nat slowdownDegrees) inc (currentServoPos this) b in
    let b := act (ServoWrite (servoOpenedPos cfg - inc * slowdownDegrees)) b in
    let pos := servoOpenedPos cfg - inc * slowdownDegrees in
    let '(pos, b) := creep (Z.to_nat slowdownDegrees) inc pos b in
    (Clamp pos (errors this), b).

(** [void HotplateClampDCMotor::closeClamp(int servoPos=-1, int slowdownDegrees=25)] *)
Definition closeClamp (servoPos slowdownDegrees : Z) (this : clamp) (b : board)
    : clamp * board :=
  let servoPos := if servoPos =? -1 then servoClosedPos cfg else servoPos in
  if servoPos =? currentServoPos this then (this, b)
  else
    let slowdownDegrees :=
      Z.min (Z.abs (currentServoPos this - servoPos)) slowdownDegrees in
    let inc := if servoPos <=? currentServoPos this then -1 else 1 in
    let b := act (ServoWrite (servoPos - inc * slowdownDegrees)) b in
    let pos := servoPos - inc * slowdownDegrees in
    let '(_, b) := creep (Z.to_nat slowdownDegrees) inc pos b in
    (Clamp servoPos (errors this), b).
End Clamp.
End HotplateClampDCMotor.

(** ** HotplateClampStepperMotor.cpp *)
Module HotplateClampStepperMotor.
Import HotplateClamp.

Record config : Type := Config {
  servoClosedPos : Z;
  servoOpenedPos : Z
}.

(** The constructor's default arguments. *)
Definition defaultConfig : config := Config 0 180.

Record clamp : Type := Clamp {
  currentPos : Z;
  currentServoPos : Z;
  errors : Z
}.

Definition outcome : Type := bool * clamp * board.

Section Clamp.
Variable switch : limitSwitch -> nat -> bool.
Variable clock : nat -> Z.
Variable cfg : config.

(** The constructor: stage position 100, servo at the opened position. *)
Definition construct (b : board) : clamp * board :=
  let b := act (ServoWrite (servoOpenedPos cfg)) b in
  (Clamp 100 (servoOpenedPos cfg) 0, b).

(** Lines 96-101 of [homePosition]: run the stepper at 600 steps per
    second while the switch reads HIGH and the 30 s are not over. *)
Fixpoint homingLoop (fuel : nat) (startTime : Z) (b : board) : result board :=
  match fuel with
  | O => OutOfFuel
  | S fuel' =>
    let '(high, b) := digitalRead switch SwitchHome b in
    if high then
      let '(now, b) := millis clock b in
      if negb (isTimedOut now startTime 30000)
      then homingLoop fuel' startTime (act (RunSpeed (1 * Z.abs 600)) b)
      else Done b
    else Done b
  end.

(** [bool HotplateClampStepperMotor::homePosition()] *)
Definition homePosition (fuel : nat) (this : clamp) (b : board) : result outcome :=
  let '(startTime, b) := millis clock b in
  let b := act (StageSleepPin true) b in
  b ← homingLoop fuel startTime b;
  let b := act (StageSleepPin false) b in
  let '(high, b) := digitalRead switch SwitchHome b in
  if high then Done (false, Clamp (currentPos this) (currentServoPos this) 1, b)
  else Done (true, Clamp 0 (currentServoPos this) (errors this), b).

(** [void HotplateClampStepperMotor::openClamp(int servoPos=-1, int slowdownDegrees=20)] *)
Definition openClamp (servoPos slowdownDegrees : Z) (this : clamp) (b : board)
    : clamp * board :=
  let servoPos := if servoPos =? -1 then servoOpenedPos cfg else servoPos in
  if servoPos =? currentServoPos this then (this, b)
  else
    let slowdownDegrees :=
      Z.min (Z.abs (currentServoPos this - servoPos)) slowdownDegrees in
    let inc := if servoPos <=? currentServoPos this then -1 else 1 in
    let '(_, b) := creep (Z.to_nat slowdownDegrees) inc (currentServoPos this) b in
    let b := act (ServoWrite servoPos) b in
    (Clamp (currentPos this) servoPos (errors this), b).

(** [void HotplateClampStepperMotor::closeClamp(int servoPos=-1, int slowdownDegrees=20)] *)
Definition closeClamp (servoPos slowdownDegrees : Z) (this : clamp) (b : board)
    : clamp * board :=
  let servoPos := if servoPos =? -1 then servoClosedPos cfg else servoPos in
  if servoPos =? currentServoPos this then (this, b)
  else
    let slowdownDegrees :=
      Z.min (Z.abs (currentServoPos this - servoPos)) slowdownDegrees in
    let inc := if servoPos <=? currentServoPos this then -1 else 1 in
    let b := act (ServoWrite (servoPos - inc * slowdownDegrees)) b in
    let pos := servoPos - inc * slowdownDegrees in
    let '(_, b) := creep (Z.to_nat slowdownDegrees) inc pos b in
    (Clamp (currentPos this) servoPos (errors this), b).
End Clamp.
End HotplateClampStepperMotor.

(** * CapperDecapper.cpp: the pressure sensor

    [readPressureSensor] is the member function of the capper that works
    on integers only; the others compute with the floating-point currents
    of the INA219 sensors.  As for the Hall sensor, the [k]-th call of
    [analogRead] returns [adc k]. *)
Module CapperDecapper.
Section Sensor.
Variable adc : nat -> Z.

(** Lines 210-213: [for (int i = 0; i < averages; i++)
    pressureSensorSignal += analogRead(pressureSensorPin);], with [n] the
    number of turns and [k] the number of conversions made so far. *)
Fixpoint accumulate (n : nat) (pressureSensorSignal : Z) (k : nat) : Z * nat :=
  match n with
  | O => (pressureSensorSignal, k)
  | S n' => accumulate n' (pressureSensorSignal + adc k) (S k)
  end.

(** [int CapperDecapper::readPressureSensor(byte averages=16, bool logResults=true)]:
    one discarded conversion, then the mean of [averages] conversions,
    added up in a [long].  With [averages == 0] the division is undefined:
    [None]. *)
Definition readPressureSensor (averages : Z) (k : nat) : option (Z * nat) :=
  let k := S k in
  let '(pressureSensorSignal, k) := accumulate (Z.to_nat averages) 0 k in
  if averages =? 0 then None
  else Some (Z.quot pressureSensorSignal averages, k).
End Sensor.
End CapperDecapper.


(** * Test benches

    Synthetic sensor traces and clocks on which the routines are run. *)

(** The board just after power-up, and a valve object as the constructors
    leave it. *)
Definition powerOn : world := World 0 0 [].
Definition constructed : valve := Valve 0 0 0 0.

(** A valve calibrated as in the six-port example: idle signal 512,
    threshold 55, standing at position [p]. *)
Definition calibratedAt (p : Z) : valve := Valve p 0 512 55.

(** A sensor that never sees a magnet, and a clock on which every call of
    [millis] comes 10 ms after the one before. *)
Definition flatSensor (k : nat) : Z := 512.
Definition slowClock (k : nat) : Z := 10 * Z.of_nat k.

(** The [i]-th averaged reading is [r !!! i]: each reading takes five
    conversions of the ADC. *)
Definition adcOfReadings (r : list Z) (k : nat) : Z := nth (k / 5)%nat r 512.

(** One rotation of a six-port stepper valve, a sample every three steps:
    five magnets deviate by +150, the fourth by -150. *)
Definition bumpUp : list Z := [512; 512; 512; 540; 600; 662; 600; 540; 512; 512; 512].
Definition bumpDown : list Z := [512; 512; 512; 484; 424; 362; 424; 484; 512; 512; 512].
Definition sixPortRotation : list Z :=
  bumpUp ++ bumpUp ++ bumpUp ++ bumpDown ++ bumpUp ++ bumpUp ++ [512].

(** A whole calibration of that valve: the first read and the idle reads,
    the sampled rotation, the census rotation, the search up to the
    reversed magnet, the climb onto its peak, and the way back to port 0. *)
Definition sixPortReadings : list Z :=
  [512] ++ [512; 512; 512] ++ sixPortRotation ++ [512] ++ sixPortRotation
  ++ bumpUp ++ bumpUp ++ bumpUp ++ [512; 512; 512; 484; 424]
  ++ [400; 380; 362; 370]
  ++ [362; 424; 512; 512; 540; 600; 540; 512; 512; 600; 540; 512; 512; 512;
      600; 620; 640; 662; 650].

(** The same valve with no reversed magnet, up to the end of the census;
    and the valve of [sixPortReadings] up to the end of the census, after
    which the sensor shows no magnet any more. *)
Definition sixPortAllUpRotation : list Z :=
  bumpUp ++ bumpUp ++ bumpUp ++ bumpUp ++ bumpUp ++ bumpUp ++ [512].
Definition sixPortAllUpReadings : list Z :=
  [512] ++ [512; 512; 512] ++ sixPortAllUpRotation ++ [512] ++ sixPortAllUpRotation.
Definition sixPortCensusReadings : list Z :=
  [512] ++ [512; 512; 512] ++ sixPortRotation ++ [512] ++ sixPortRotation.

(** One rotation of the six-port valve with a little noise between the
    magnets: six peaks of deviation 150 and twelve of deviation 10, none
    of them flat. *)
Definition noisyBumpUp : list Z := [512; 540; 600; 662; 600; 540; 512; 522; 512; 522; 513].
Definition noisyBumpDown : list Z := [512; 484; 424; 362; 424; 484; 512; 522; 512; 522; 513].
Definition noisySixPortRotation : list Z :=
  noisyBumpUp ++ noisyBumpUp ++ noisyBumpUp ++ noisyBumpDown ++ noisyBumpUp ++ noisyBumpUp
  ++ [512].

(** A six-port valve on a stepper with 400 steps per revolution, and one
    rotation of it as the calibration samples it (134 samples), with
    narrow magnets and a sensor that is flat in between: six peaks of
    deviation 150 and 91 samples of deviation 0 that have no larger
    neighbour. *)
Definition fineStepperConfig : Stepper.config := Stepper.Config 1 400 400 3 6 false true.
Definition narrowBumpUp : list Z := [540; 600; 662; 600; 540] ++ replicate 17 512.
Definition narrowBumpDown : list Z := [484; 424; 362; 424; 484] ++ replicate 17 512.
Definition narrowSixPortRotation : list Z :=
  [512] ++ narrowBumpUp ++ narrowBumpUp ++ narrowBumpUp ++ narrowBumpDown
  ++ narrowBumpUp ++ narrowBumpUp ++ [512].

(** A DC-motor valve turning steadily: every magnet gives a strict tent of
    16 readings; the magnets whose number is [reversedAt] modulo
    [magnets] point the other way, as long as their number is below
    [lastReversed]. *)
Definition tent : list Z :=
  [0; 20; 40; 60; 80; 100; 120; 140; 150; 130; 110; 90; 70; 50; 30; 10].
Definition tentReading (magnets reversedAt lastReversed : nat) (i : nat) : Z :=
  let d := nth (i mod 16)%nat tent 0 in
  if ((i / 16) mod magnets =? reversedAt)%nat && (i / 16 <? lastReversed)%nat
  then 512 - d else 512 + d.
Definition tentSensor (magnets reversedAt lastReversed : nat) (k : nat) : Z :=
  tentReading magnets reversedAt lastReversed (k / 5).

(** What the DC-motor calibration samples on a valve with ten magnets, the
    fourth reversed: 512 readings after the four reads that come first. *)
Definition tenPortSampling : list Z * Z * Z * world :=
  DCMotor.sampleRotation (tentSensor 10 3 1000) 512 (Valve 0 0 512 0) 1023 0 (World 20 0 []).
Definition tenPortSamples : list Z := fst (fst (fst tenPortSampling)).

(** The first 1300 readings of a ten-magnet valve whose reversed magnet
    stops showing after the census (from magnet 53 on), as a list: after
    them the sensor shows no magnet any more. *)
Definition tenPortLostMagnetReadings : list Z := tentReading 10 3 53 <$> seq 0 1300.

(** What the sensor of a DC-motor valve shows when all magnets point the
    same way and its idle level is 300: the first 1300 readings. *)
Definition lowIdleReadings : list Z :=
  (fun i => 300 + nth (i mod 16)%nat tent 0) <$> seq 0 1300.

(** A clock that advances by 1 ms per call of [millis], and one that jumps
    far ahead after [n] calls. *)
Definition steadyClock (k : nat) : Z := Z.of_nat k.
Definition jumpingClock (n : nat) (k : nat) : Z :=
  if (k <? n)%nat then Z.of_nat k else 100000.

(** A limit switch that is released after [n] readings, and one that is
    never released. *)
Definition releasedAfter (n : nat) (pin : HotplateClamp.limitSwitch) (k : nat) : bool :=
  (k <? n)%nat.
Definition neverReleased (pin : HotplateClamp.limitSwitch) (k : nat) : bool := true.

(** A clock on which every call of [millis] comes a second after the one
    before. *)
Definition secondsClock (k : nat) : Z := 1000 * Z.of_nat k.

(** * The threshold rule in the words of the specification

    "Scan for local maxima of |sample - idleSignal|.  Sort descending; pick
    the value at rank (count - N) and attenuate it by a factor of 1/e." *)
Definition localMaxima_spec (samples : list Z) (idleSignal : Z) : list Z :=
  (fun i => Z.abs (samples !!! i - idleSignal))
    <$> filter (fun i => Is_true (Stepper.isLocalMax samples idleSignal i))
          (innerIndices samples).
Definition threshold_spec (samples : list Z) (idleSignal : Z) (N : Z) : Z :=
  let peaks := localMaxima_spec samples idleSignal in
  let descending := reverse (merge_sort Z.le peaks) in
  attenuate (descending !!! Z.to_nat (Z.of_nat (length peaks) - N)).

(** The rule read by its stated purpose, "so that, before attenuation,
    exactly N peaks exceed it - one per physical magnet": the peak at
    [rank] in descending order, attenuated, with [rank = N - 1] for the
    N-th largest peak and [rank = N] for the largest peak that N peaks
    exceed or equal. *)
Definition threshold_spec_at_rank (samples : list Z) (idleSignal : Z) (rank : Z) : Z :=
  let peaks := localMaxima_spec samples idleSignal in
  let descending := reverse (merge_sort Z.le peaks) in
  attenuate (descending !!! Z.to_nat rank).

(** The number of local minima that the baseline scan finds. *)
Definition countLocalMinima (sensorSignals : list Z) : nat :=
  length (filter (fun i => Is_true (isLocalMin sensorSignals i)) (innerIndices sensorSignals)).

(** How many of the values are at least [v], and how many exceed it. *)
Definition countAtLeast (v : Z) (values : list Z) : nat :=
  length (filter (fun x => v <= x) values).
Definition countAbove (v : Z) (values : list Z) : nat :=
  length (filter (fun x => v < x) values).

(** What [readHallSensorSignal] returns when [k] conversions of the ADC
    have been made before, and the sum of three such reads in a row. *)
Definition hallSignalAt (adc : nat -> Z) (k : nat) : Z :=
  fst (readHallSensorSignal adc (World k 0 [])).
Definition idleSum (adc : nat -> Z) (k : nat) : Z :=
  hallSignalAt adc k + hallSignalAt adc (5 + k) + hallSignalAt adc (10 + k).

(** * Vocabulary of the statements *)

(** A loop that gave up on the clock: the function returned [ret] with
    error code 3, nothing else of the object changed, and the last thing
    done to the actuator was [halt].  A loop that went through only added
    to the trace. *)
Definition gaveUp {L : Type} (ret : bool) (halt : event) (this : valve) (w : world)
    (f : flow L) : Prop :=
  match f with
  | Return r this' w' =>
    r = ret /\ this' = set_errors 3 this
    /\ trace w `suffix_of` trace w' /\ head (trace w') = Some halt
  | Next _ w' => trace w `suffix_of` trace w'
  end.

(** From the board state [w] on, no reading that passes the threshold has
    the polarity opposite to [majority]. *)
Definition noMinoritySignal (adc : nat -> Z) (this : valve) (majority : bool) (w : world)
    : Prop :=
  forall j : nat,
    let h := hallSignalAt adc (adcReads w + 5 * j) in
    aboveThreshold this h = true -> (hallSensorIdleSignal this <? h) = majority.

(** The [k]-th call of [millis] finds the time budget used up. *)
Definition clockRunsOut (clock : nat -> Z) (startTime timeout : Z) (k : nat) : Prop :=
  isTimedOut (wrap32 (clock k)) startTime timeout = true.

(** How the search for the reversed magnet ends when the clock runs out
    or the counter goes past [bound]: either the function returned with
    error code 3 right after a call of [millis] that found the budget used
    up, the actuator halted; or no call of [millis] during the search did,
    and the counter is beyond [bound]. *)
Definition searchEnds (clock : nat -> Z) (halt : event) (bound startTime timeout : Z)
    (this : valve) (w : world) (f : flow (Z * bool * Z)) : Prop :=
  match f with
  | Return ret this' w' =>
    ret = false /\ this' = set_errors 3 this /\ head (trace w') = Some halt
    /\ (clockReads w < clockReads w')%nat
    /\ clockRunsOut clock startTime timeout (pred (clockReads w'))
  | Next (_, _, signalCounter) w' =>
    bound < signalCounter
    /\ forall k, (clockReads w <= k < clockReads w')%nat ->
                 ~ clockRunsOut clock startTime timeout k
  end.

(** How far a loop that is bounded by the clock can get: it ends, and if
    it hands on, it has called [millis] at most [n] times. *)
Definition endsWithin {L : Type} (n : nat) (w : world) (r : result (flow L)) : Prop :=
  match r with
  | Done (Return _ _ _) => True
  | Done (Next _ w') => (clockReads w <= clockReads w' <= clockReads w + n)%nat
  | _ => False
  end.


(** A clock that keeps going: whenever a time budget starts (at a call of
    [millis]), one of the next [budget] calls finds it used up. *)
Definition liveClock (clock : nat -> Z) (timeout : Z) (budget : nat) : Prop :=
  forall s : nat,
    exists n, (n < budget)%nat /\ clockRunsOut clock (wrap32 (clock s)) timeout (S s + n).

(** The [n] readings that [readHallSensorSignal] gives in a row once [k]
    conversions of the ADC have been made. *)
Definition readingsFrom (adc : nat -> Z) (k n : nat) : list Z :=
  (fun i => hallSignalAt adc (k + 5 * i)) <$> seq 0 n.

(** The magnets seen in a row of readings: the readings that pass the
    threshold while the reading before them (at the start: [isAbove]) did
    not. *)
Fixpoint risingEdges (this : valve) (isAbove : bool) (readings : list Z) : Z :=
  match readings with
  | [] => 0
  | h :: rest =>
    (if negb isAbove && aboveThreshold this h then 1 else 0)
    + risingEdges this (aboveThreshold this h) rest
  end.

(** How [initializeValve] can end once the actuator has been started:
    with [true] and error code 0, or with [false] and error code 2 or 3;
    either way the actuator has been halted. *)
Definition verdict (halt : event) (out : outcome) : Prop :=
  let '(ret, this', w') := out in
  ((ret = true /\ errors this' = 0)
   \/ (ret = false /\ (errors this' = 2 \/ errors this' = 3)))
  /\ head (trace w') = Some halt.


(** The local minima that the baseline scan finds, in scan order. *)
Definition localMinima (sensorSignals : list Z) : list Z :=
  (fun i => sensorSignals !!! i)
    <$> filter (fun i => Is_true (isLocalMin sensorSignals i)) (innerIndices sensorSignals).

(** The samples that the DC-motor calibration admits as extreme values:
    those within 200 of the provisional idle signal. *)
Definition inWindow (this : valve) (x : Z) : bool :=
  Z.abs (x - hallSensorIdleSignal this) <? 200.

(** The steps that the stepper has been asked to make, added up over a
    trace. *)
Fixpoint stepsTaken (t : list event) : Z :=
  match t with
  | [] => 0
  | Steps n :: rest => n + stepsTaken rest
  | _ :: rest => stepsTaken rest
  end.

(** Where [initializeValve] can leave the object once the census is over,
    [this] being the object with the calibration just made: the
    calibration is kept; the valve stands where it stood, at the
    reference port or at port 0, and after a success at one of the latter
    two. *)
Definition finalPosition (reversedPolarityPos : Z) (this : valve) (ret : bool)
    (this' : valve) : Prop :=
  hallSensorIdleSignal this' = hallSensorIdleSignal this
  /\ hallSensorThreshold this' = hallSensorThreshold this
  /\ (currentPos this' = 0 \/ currentPos this' = reversedPolarityPos
      \/ (ret = false /\ currentPos this' = currentPos this)).

(** The angles written by [n] turns of the servo loop that starts from
    [p], in the order of the writes. *)
Definition ramp (n : nat) (inc p : Z) : list Z :=
  (fun i => p + Z.of_nat (S i) * inc) <$> seq 0 n.

(** The board after the servo has been sent through [angles], one after
    the other. *)
Definition afterWrites (angles : list Z) (b : HotplateClamp.board) : HotplateClamp.board :=
  HotplateClamp.Board (HotplateClamp.switchReads b) (HotplateClamp.millisCalls b)
    (reverse (HotplateClamp.ServoWrite <$> angles) ++ HotplateClamp.actions b).

(** Values for which the [int] arithmetic of the servo moves stays within
    16 bits. *)
Definition smallInt (z : Z) : Prop := -8000 <= z <= 8000.

(** The counters of a census over readings of a single polarity: the
    counter of the other polarity stays at 0, and a reading that is above
    the threshold has that polarity. *)
Definition onePolarity (this : valve) (polarity : bool) (l : censusLocals) : Prop :=
  0 <= posPolarityCounter l /\ 0 <= negPolarityCounter l
  /\ (if polarity then negPolarityCounter l = 0 else posPolarityCounter l = 0)
  /\ (c_isAboveThreshold l = true ->
      (hallSensorIdleSignal this <? c_hallSignal l) = polarity).

(** What a search for the reversed magnet has read and counted when it is
    over, [m] being the number of readings it took: it has called [millis]
    once before each reading, and once more if it gave up; no call before
    the last found the budget used up; and as long as the byte-sized
    counter cannot wrap ([bound < 255]) it holds [signalCounter] plus the
    rising edges of the readings, which went past [bound] by one with the
    last reading and not before, or not at all if the search gave up. *)
Definition searchCounted (adc clock : nat -> Z) (bound startTime timeout : Z)
    (this : valve) (isAbove : bool) (signalCounter : Z) (w : world)
    (f : flow (Z * bool * Z)) : Prop :=
  let edges (m : nat) :=
    signalCounter + risingEdges this isAbove (readingsFrom adc (adcReads w) m) in
  match f with
  | Return _ _ w' =>
    exists m : nat,
      adcReads w' = (5 * m + adcReads w)%nat
      /\ clockReads w' = (S m + clockReads w)%nat
      /\ (forall k, (clockReads w <= k < m + clockReads w)%nat ->
                    ~ clockRunsOut clock startTime timeout k)
      /\ (bound < 255 -> edges m <= bound)
  | Next (_, _, signalCounter') w' =>
    exists m : nat,
      adcReads w' = (5 * m + adcReads w)%nat
      /\ clockReads w' = (m + clockReads w)%nat
      /\ (forall k, (clockReads w <= k < m + clockReads w)%nat ->
                    ~ clockRunsOut clock startTime timeout k)
      /\ (bound < 255 ->
          signalCounter' = edges m
          /\ (signalCounter <= bound -> signalCounter' = bound + 1)
          /\ forall m', (m' < m)%nat -> edges m' <= bound)
  end.

(** A sample raises the maximum of the DC-motor sampling loop when it lies
    in the window and exceeds the start value of [maxValue] and every
    sample of the window read before it. *)
Definition newMaximum (this : valve) (maxValue : Z) (samples : list Z) (i : nat) : Prop :=
  exists x,
    samples !! i = Some x /\ inWindow this x = true /\ maxValue < x
    /\ forall j y, (j < i)%nat -> samples !! j = Some y -> inWindow this y = true -> y < x.

(** What the sampling loop of the DC-motor calibration tracks, started
    with [minValue0] and [maxValue0]: [maxValue] is the largest of
    [maxValue0] and the samples in the window; [minValue] is the smallest
    of [minValue0] and those samples in the window that did not raise the
    maximum when they were read. *)
Definition trackedExtremes (this : valve) (minValue0 maxValue0 : Z) (samples : list Z)
    (minValue maxValue : Z) : Prop :=
  (forall x, x ∈ samples -> inWindow this x = true -> x <= maxValue)
  /\ (maxValue = maxValue0 /\ (forall x, x ∈ samples -> inWindow this x = true -> x <= maxValue0)
      \/ (maxValue0 < maxValue /\ maxValue ∈ samples /\ inWindow this maxValue = true))
  /\ (forall i x, samples !! i = Some x -> inWindow this x = true ->
                  minValue <= x \/ newMaximum this maxValue0 samples i)
  /\ (minValue = minValue0
      \/ (minValue < minValue0
          /\ exists i, samples !! i = Some minValue /\ inWindow this minValue = true
                       /\ ~ newMaximum this maxValue0 samples i)).

(** * Properties *)

(** Closed statements about the test benches are settled by running the
    embedding. *)
Ltac by_computation :=
  repeat match goal with
         | |- _ /\ _ => split
         end;
  vm_compute; first [reflexivity | discriminate].

(** ** Helper functions *)

Lemma mod__is_modulo (x y : Z) : 0 < y -> mod_ x y = x mod y.
Proof.
  intros Hy. unfold mod_. destruct (Z.ltb_spec x 0) as [Hx|Hx].
  - replace (x + 1) with (- (- x - 1)) by lia.
    rewrite Z.rem_opp_l by lia.
    rewrite Z.rem_mod_nonneg by lia.
    apply Z.mod_unique_pos with (q := - ((- x - 1) / y) - 1).
    + pose proof (Z.mod_pos_bound (- x - 1) y Hy). lia.
    + pose proof (Z.div_mod (- x - 1) y ltac:(lia)). lia.
  - apply Z.rem_mod_nonneg; lia.
Qed.

(** With a 10-bit ADC a reading stays within 0..1023 and the sum of the
    three idle reads within 0..3069: the [int] arithmetic of the liveness
    check cannot overflow, and the sum is 0 only if all three reads are. *)
Lemma hallSignalAt_range (adc : nat -> Z) (k : nat) :
  (forall i, 0 <= adc i <= 1023) -> 0 <= hallSignalAt adc k <= 1023.
Proof.
  intros Hadc. unfold hallSignalAt, readHallSensorSignal. cbn [fst adcReads].
  pose proof (Hadc (1 + k)%nat). pose proof (Hadc (2 + k)%nat).
  pose proof (Hadc (3 + k)%nat). pose proof (Hadc (4 + k)%nat).
  rewrite Z.quot_div_nonneg by lia. split.
  - apply Z.div_pos; lia.
  - apply Z.div_le_upper_bound; lia.
Qed.

Lemma idleSum_range (adc : nat -> Z) (k : nat) :
  (forall i, 0 <= adc i <= 1023) ->
  0 <= idleSum adc k <= 3069
  /\ (idleSum adc k = 0 <->
      hallSignalAt adc k = 0 /\ hallSignalAt adc (5 + k) = 0
      /\ hallSignalAt adc (10 + k) = 0).
Proof.
  intros Hadc. unfold idleSum.
  pose proof (hallSignalAt_range adc k Hadc).
  pose proof (hallSignalAt_range adc (5 + k) Hadc).
  pose proof (hallSignalAt_range adc (10 + k) Hadc). lia.
Qed.

(** C8. [isTimedOut] compares the timeout with the difference
    [millis() - startTime] taken modulo 2^32: for a non-negative timeout it
    answers [true] exactly when that difference exceeds the timeout, and
    when [elapsed] milliseconds (fewer than 2^32) have really passed since
    [startTime], the answer is [timeout < elapsed] even if the counter has
    rolled over in between. *)
Theorem isTimedOut_wraparound_safe (startTime now elapsed timeout : Z) :
  0 <= timeout < 2 ^ 31 ->
  0 <= elapsed < 2 ^ 32 ->
  (isTimedOut now startTime timeout = true <-> timeout < (now - startTime) mod 2 ^ 32)
  /\ isTimedOut (wrap32 (startTime + elapsed)) startTime timeout = (timeout <? elapsed).
Proof.
  intros Ht He. unfold isTimedOut, wrap32.
  rewrite (Z.mod_small timeout) by lia. split.
  - apply Z.ltb_lt.
  - rewrite Zminus_mod_idemp_l.
    replace (startTime + elapsed - startTime) with elapsed by lia.
    rewrite Z.mod_small by lia. reflexivity.
Qed.

Lemma isTimedOut_wraparound_safe_witness :
  (isTimedOut 1905 4294967200 2000 = true
   <-> 2000 < (1905 - 4294967200) mod 2 ^ 32)
  /\ isTimedOut (wrap32 (4294967200 + 2001)) 4294967200 2000 = (2000 <? 2001).
Proof.
  apply (isTimedOut_wraparound_safe 4294967200 1905 2001 2000); lia.
Defined.

(** ** The choice of the direction *)

(** C2, as stated, does not hold.  At a tie (six ports, three ports away)
    the second branch is taken: the stepper is sent in direction -1, as the
    recorded burst of -3 steps shows.  With seven ports and a target three
    ports ahead the valve travels four ports the other way. *)
Lemma chooseDirection_tie_and_odd_counterexample :
  (3 - 0) mod 6 = 6 / 2
  /\ chooseDirection 6 0 3 = (false, 3)
  /\ Stepper.gotoPosition flatSensor (jumpingClock 1) Stepper.defaultConfig 5 3
       (calibratedAt 0) powerOn
     = Done (true, Valve 0 3 512 55, World 0 2 [SleepPin false; Steps (-3); SleepPin true])
  /\ chooseDirection 7 0 3 = (false, 4)
  /\ Z.min ((3 - 0) mod 7) (7 - (3 - 0) mod 7) = 3.
Proof. by_computation. Qed.

(** C2, amended.  With [f = (target - current) mod N] and [b = N - f]:
    [mod] computes [f]; [f + b = N]; the first branch (stepper direction
    +1) is taken with [f] signals when [f] is below the integer quotient
    [N / 2], the second branch (direction -1) with [b] signals otherwise;
    in particular a tie [2 f = N] takes the second branch; and the number
    of signals is [min f b] unless [N] is odd and [f = (N - 1) / 2]. *)
Theorem chooseDirection_shortest_way (N current target : Z) :
  1 <= N -> 0 <= current < N -> 0 <= target < N ->
  let f := (target - current) mod N in
  let b := N - f in
  mod_ (target - current) N = f
  /\ f + b = N
  /\ chooseDirection N current target = (if f <? N / 2 then (true, f) else (false, b))
  /\ (2 * f = N -> chooseDirection N current target = (false, b))
  /\ (2 * f + 1 <> N -> snd (chooseDirection N current target) = Z.min f b).
Proof.
  intros HN Hc Ht f b.
  assert (Hm : mod_ (target - current) N = f) by (apply mod__is_modulo; lia).
  assert (Hf : 0 <= f < N) by (apply Z.mod_pos_bound; lia).
  assert (Hq : Z.quot N 2 = N / 2) by (apply Z.quot_div_nonneg; lia).
  assert (Hc' : chooseDirection N current target
                = (if f <? N / 2 then (true, f) else (false, b))).
  { unfold chooseDirection. rewrite Hm, Hq. reflexivity. }
  pose proof (Z.div_mod N 2 ltac:(lia)) as Hd.
  pose proof (Z.mod_pos_bound N 2 ltac:(lia)) as Hr.
  repeat split; try assumption; try (subst b; lia).
  - intros Htie. rewrite Hc'. destruct (Z.ltb_spec f (N / 2)); [lia | reflexivity].
  - intros Hodd. rewrite Hc'. destruct (Z.ltb_spec f (N / 2)); simpl; subst b; lia.
Qed.

Lemma chooseDirection_shortest_way_witness :
  let f := (1 - 5) mod 6 in
  let b := 6 - f in
  mod_ (1 - 5) 6 = f
  /\ f + b = 6
  /\ chooseDirection 6 5 1 = (if f <? 6 / 2 then (true, f) else (false, b))
  /\ (2 * f = 6 -> chooseDirection 6 5 1 = (false, b))
  /\ (2 * f + 1 <> 6 -> snd (chooseDirection 6 5 1) = Z.min f b).
Proof. apply (chooseDirection_shortest_way 6 5 1); lia. Defined.

(** ** What the loops hand back *)

Lemma gaveUp_start {L : Type} ret halt this w1 w2 (f : flow L) :
  trace w1 `suffix_of` trace w2 -> gaveUp ret halt this w2 f -> gaveUp ret halt this w1 f.
Proof.
  intros Hs. destruct f; cbn; [intros (? & ? & ? & ?); repeat split; trivial|intros ?];
    etrans; eassumption.
Qed.

Ltac loop_step IH H :=
  first
    [ discriminate H
    | injection H as <-; cbn;
      repeat split; repeat apply suffix_cons_r; reflexivity
    | cbv beta iota zeta in H; apply IH in H; revert H; apply gaveUp_start; cbn;
      repeat apply suffix_cons_r; reflexivity ].

Ltac loop_cases IH H :=
  repeat match type of H with
         | context [if ?c then _ else _] => destruct c
         end;
  loop_step IH H.

Section DCMotorLoops.
Variables (adc clock : nat -> Z) (cfg : DCMotor.config).

Lemma DC_travelLoop_gaveUp fuel :
  forall this signalSteps startTime hallSignal signalCounter isAbove w f,
    DCMotor.travelLoop adc clock fuel this signalSteps startTime hallSignal
      signalCounter isAbove w = Done f ->
    gaveUp false (MotorPins false false) this w f.
Proof.
  induction fuel as [|fuel IH]; intros this ss st h sc a w f H; [discriminate|].
  cbn [DCMotor.travelLoop millis readHallSensorSignal] in H.
  loop_cases IH H.
Qed.

Lemma DC_censusLoop_gaveUp fuel :
  forall this startTime l w f,
    DCMotor.censusLoop adc clock cfg fuel this startTime l w = Done f ->
    gaveUp false (MotorPins false false) this w f.
Proof.
  induction fuel as [|fuel IH]; intros this st l w f H; [discriminate|].
  cbn [DCMotor.censusLoop millis readHallSensorSignal] in H.
  destruct (c_signalCounter l <? _); [|loop_step IH H].
  destruct (isTimedOut _ _ _); [loop_step IH H|].
  loop_step IH H.
Qed.

Lemma DC_searchLoop_gaveUp fuel :
  forall this startTime majority hallSignal isAbove signalCounter w f,
    DCMotor.searchLoop adc clock cfg fuel this startTime majority hallSignal isAbove
      signalCounter w = Done f ->
    gaveUp false (MotorPins false false) this w f.
Proof.
  induction fuel as [|fuel IH]; intros this st maj h a sc w f H; [discriminate|].
  cbn [DCMotor.searchLoop millis readHallSensorSignal] in H.
  loop_cases IH H.
Qed.
End DCMotorLoops.

Section StepperLoops.
Variables (adc clock : nat -> Z) (cfg : Stepper.config).

Lemma Stepper_coarseLoop_gaveUp fuel :
  forall this dir signalSteps startTime l w f,
    Stepper.coarseLoop adc clock cfg fuel this dir signalSteps startTime l w = Done f ->
    gaveUp true (SleepPin (negb (Stepper.enableIsHigh cfg))) this w f.
Proof.
  induction fuel as [|fuel IH]; intros this dir ss st l w f H; [discriminate|].
  cbn [Stepper.coarseLoop millis readHallSensorSignal] in H.
  loop_cases IH H.
Qed.

Lemma Stepper_fineLoop_gaveUp fuel :
  forall this dir startTime lastRead hallSignal isAbove w f,
    Stepper.fineLoop adc clock cfg fuel this dir startTime lastRead hallSignal isAbove w
    = Done f ->
    gaveUp false (SleepPin (negb (Stepper.enableIsHigh cfg))) this w f.
Proof.
  induction fuel as [|fuel IH]; intros this dir st lr h a w f H; [discriminate|].
  cbn [Stepper.fineLoop millis readHallSensorSignal] in H.
  loop_cases IH H.
Qed.

Lemma Stepper_searchLoop_gaveUp fuel :
  forall this startTime majority hallSignal isAbove signalCounter w f,
    Stepper.searchLoop adc clock cfg fuel this startTime majority hallSignal isAbove
      signalCounter w = Done f ->
    gaveUp false (SleepPin (negb (Stepper.enableIsHigh cfg))) this w f.
Proof.
  induction fuel as [|fuel IH]; intros this st maj h a sc w f H; [discriminate|].
  cbn [Stepper.searchLoop millis readHallSensorSignal] in H.
  loop_cases IH H.
Qed.

Lemma Stepper_homingLoop_gaveUp fuel :
  forall this startTime lastRead hallSignal w f,
    Stepper.homingLoop adc clock cfg fuel this startTime lastRead hallSignal w = Done f ->
    gaveUp false (SleepPin (negb (Stepper.enableIsHigh cfg))) this w f.
Proof.
  induction fuel as [|fuel IH]; intros this st lr h w f H; [discriminate|].
  cbn [Stepper.homingLoop millis readHallSensorSignal] in H.
  loop_cases IH H.
Qed.
End StepperLoops.

(** ** [gotoPosition] *)

Section GotoPosition.
Variables (adc clock : nat -> Z).

(** The DC-motor valve either arrives (position and error code updated,
    motor stopped) or gives up on the clock with [false]. *)
Lemma DC_gotoPosition_outcomes (cfg : DCMotor.config) fuel target this w ret this' w' :
  DCMotor.gotoPosition adc clock cfg fuel target this w = Done (ret, this', w') ->
  head (trace w') = Some (MotorPins false false)
  /\ trace w `suffix_of` trace w'
  /\ ((ret = true /\ this' = set_errors 0 (set_currentPos target this))
      \/ (ret = false /\ this' = set_errors 3 this)).
Proof.
  unfold DCMotor.gotoPosition. cbn [millis].
  destruct (chooseDirection _ _ _) as [first signalSteps].
  destruct (DCMotor.travelLoop _ _ _ _ _ _ _ _ _ _) as [f| |] eqn:E; try discriminate.
  apply DC_travelLoop_gaveUp in E.
  assert (Hs : forall w1, trace (DCMotor.startTurning cfg (if first then false else true)
                                   (World (adcReads w) (S (clockReads w)) (trace w)))
                          `suffix_of` trace w1 -> trace w `suffix_of` trace w1).
  { intros w1. unfold DCMotor.startTurning. destruct (_ || _); cbn; apply suffix_cons_l. }
  destruct f as [r t w1|[] w1]; cbn [andThen gaveUp] in *.
  - intros [= <- <- <-]. destruct E as (-> & -> & Ht & Hh). auto.
  - intros [= <- <- <-]. cbn. repeat split; auto using suffix_cons_r.
Qed.

(** The stepper valve has a third way out: the coarse loop gives up on the
    clock with [true]. *)
Lemma Stepper_gotoPosition_outcomes (cfg : Stepper.config) fuel target this w ret this' w' :
  Stepper.gotoPosition adc clock cfg fuel target this w = Done (ret, this', w') ->
  head (trace w') = Some (SleepPin (negb (Stepper.enableIsHigh cfg)))
  /\ trace w `suffix_of` trace w'
  /\ ((ret = true /\ this' = set_errors 0 (set_currentPos target this))
      \/ this' = set_errors 3 this).
Proof.
  unfold Stepper.gotoPosition. cbn [millis].
  destruct (chooseDirection _ _ _) as [first signalSteps].
  destruct (Stepper.coarseLoop _ _ _ _ _ _ _ _ _ _) as [f| |] eqn:E; try discriminate.
  apply Stepper_coarseLoop_gaveUp in E.
  destruct f as [r t w1|l w1]; cbn [andThen gaveUp trace emit] in *.
  { intros [= <- <- <-]. destruct E as (-> & -> & Ht & Hh). apply suffix_cons_l in Ht. auto. }
  destruct (Stepper.fineLoop _ _ _ _ _ _ _ _ _ _) as [f| |] eqn:E'; try discriminate.
  apply Stepper_fineLoop_gaveUp in E'. apply suffix_cons_l in E.
  destruct f as [r t w2|[] w2]; cbn [andThen gaveUp trace emit] in *.
  - intros [= <- <- <-]. destruct E' as (-> & -> & Ht & Hh).
    repeat split; auto. etrans; eassumption.
  - intros [= <- <- <-]. cbn. repeat split; auto. apply suffix_cons_r. etrans; eassumption.
Qed.
End GotoPosition.

(** C1.  A stepper valve standing at port 0 is sent to port 2 while the
    sensor shows no magnet.  After two seconds the coarse loop gives up:
    the error code is 3, the driver is put to sleep, the position is still
    0, but the call returns [true].  The DC-motor valve on the same bench
    returns [false]. *)
Theorem Stepper_gotoPosition_coarse_timeout_returns_true :
  (exists w',
      Stepper.gotoPosition flatSensor slowClock Stepper.defaultConfig 300 2
        (calibratedAt 0) powerOn
      = Done (true, Valve 0 3 512 55, w')
      /\ head (trace w') = Some (SleepPin false))
  /\ (exists w',
         DCMotor.gotoPosition flatSensor slowClock DCMotor.defaultConfig 300 2
           (calibratedAt 0) powerOn
         = Done (false, Valve 0 3 512 55, w')
         /\ head (trace w') = Some (MotorPins false false)).
Proof.
  split; eexists; split; vm_compute; reflexivity.
Qed.

(** C3.  A stepper valve standing at port 1 is sent to port 4 while the
    sensor shows no magnet: the call returns [true], yet afterwards the
    position is not 4 and the error code is not 0. *)
Theorem Stepper_gotoPosition_true_without_arrival :
  exists w',
    Stepper.gotoPosition flatSensor slowClock Stepper.defaultConfig 300 4
      (calibratedAt 1) powerOn
    = Done (true, Valve 1 3 512 55, w')
    /\ currentPos (Valve 1 3 512 55) <> 4
    /\ errors (Valve 1 3 512 55) <> 0.
Proof.
  eexists. split; [vm_compute; reflexivity|]. split; discriminate.
Qed.

(** ** The scratch buffer of the DC-motor calibration *)

Lemma DC_storeMinimum_fault sensorSignals idxs :
  foldl (DCMotor.storeMinimum sensorSignals) MemoryFault idxs = MemoryFault.
Proof. induction idxs; auto. Qed.

Lemma DC_collectMinima_fold sensorSignals idxs :
  forall (j : nat) (minValuesTmp : list Z),
    (j <= 64)%nat ->
    let n := (j + length (filter (fun i => Is_true (isLocalMin sensorSignals i)) idxs))%nat in
    match foldl (DCMotor.storeMinimum sensorSignals) (Done (j, minValuesTmp)) idxs with
    | Done (j', _) => j' = n /\ (n <= 64)%nat
    | MemoryFault => (64 < n)%nat
    | OutOfFuel => False
    end.
Proof.
  induction idxs as [|i idxs IH]; intros j buf Hj; cbn [foldl].
  - cbn. split; lia.
  - rewrite filter_cons. unfold DCMotor.storeMinimum at 2. cbn [mbind result_mbind bind].
    destruct (isLocalMin sensorSignals i) eqn:E.
    + rewrite decide_True by exact I. cbn [length].
      destruct (Nat.ltb_spec j 64).
      * specialize (IH (S j) (<[j := sensorSignals !!! i]> buf) ltac:(lia)).
        cbn zeta in IH. rewrite Nat.add_succ_r. exact IH.
      * rewrite DC_storeMinimum_fault. lia.
    + rewrite decide_False by exact id. apply IH, Hj.
Qed.

(** Writing the local minima overruns the buffer exactly when there are
    more than 64 of them. *)
Lemma DC_collectMinima_overrun sensorSignals :
  DCMotor.collectMinima sensorSignals = MemoryFault
  <-> (64 < countLocalMinima sensorSignals)%nat.
Proof.
  pose proof (DC_collectMinima_fold sensorSignals (innerIndices sensorSignals) 0
                (replicate 64 0) ltac:(lia)) as H.
  cbn zeta in H. unfold DCMotor.collectMinima, countLocalMinima.
  destruct (foldl _ _ _) as [[j' b]| |]; cbn in H |- *; split; intros; try easy; lia.
Qed.

(** C10.  512 equal samples (a sensor that sees no magnet while the motor
    turns) have 510 local minima: the scan writes past the 64 elements of
    [minValuesTmp], and so does a whole run of [initializeValve] on that
    sensor.  The stepper variant reduces the index modulo 64. *)
Theorem DC_minValuesTmp_overrun :
  countLocalMinima (replicate 512 512) = 510%nat
  /\ DCMotor.collectMinima (replicate 512 512) = MemoryFault
  /\ DCMotor.initializeValve flatSensor steadyClock DCMotor.defaultConfig 1000
       constructed powerOn = MemoryFault.
Proof. by_computation. Qed.

(** ** The threshold *)

Section Ranks.
Context (P : Z -> Prop) `{!forall x, Decision (P x)}.

Lemma filter_all_length (l : list Z) : Forall P l -> length (filter P l) = length l.
Proof.
  induction 1 as [|x l Hx _ IH]; [reflexivity|].
  rewrite filter_cons, decide_True by assumption. cbn. now rewrite IH.
Qed.

Lemma filter_none_length (l : list Z) : Forall (fun x => ~ P x) l -> length (filter P l) = 0%nat.
Proof.
  induction 1 as [|x l Hx _ IH]; [reflexivity|].
  rewrite filter_cons, decide_False by assumption. exact IH.
Qed.
End Ranks.

Lemma rank_split (l1 l2 : list Z) (v : Z) :
  StronglySorted Z.le (l1 ++ v :: l2) ->
  (S (length l2) <= countAtLeast v (l1 ++ v :: l2))%nat
  /\ (countAbove v (l1 ++ v :: l2) <= length l2)%nat.
Proof.
  intros Hs. unfold countAtLeast, countAbove.
  apply StronglySorted_app in Hs as (Hcross & _ & Htail).
  apply StronglySorted_cons in Htail as [Htail _].
  rewrite !filter_app, !length_app, !filter_cons.
  rewrite decide_True by lia. rewrite decide_False by lia. cbn [length].
  rewrite (filter_all_length _ _ Htail).
  rewrite (filter_none_length (fun x => v < x) l1).
  - pose proof (length_filter (fun x => v < x) l2). lia.
  - apply Forall_forall. intros x Hx. specialize (Hcross x v Hx ltac:(left)). lia.
Qed.

(** In an ascending array the element at index [k] has at least
    [length - k] elements that are not below it, and fewer that exceed it. *)
Lemma rank_in_sorted (sorted : list Z) (k : nat) :
  StronglySorted Z.le sorted -> (k < length sorted)%nat ->
  let v := sorted !!! k in
  (length sorted - k <= countAtLeast v sorted)%nat
  /\ (countAbove v sorted < length sorted - k)%nat.
Proof.
  intros Hs Hk v.
  assert (Hv : sorted !! k = Some v) by (apply list_lookup_lookup_total_lt; exact Hk).
  pose proof (take_drop_middle _ _ _ Hv) as Heq.
  rewrite <- Heq in Hs. apply rank_split in Hs. rewrite Heq in Hs.
  rewrite length_drop in Hs. lia.
Qed.

(** What [shellSortKnuth] leaves at index [length - n]: the [n]-th largest
    value of the array. *)
Lemma nth_largest (a : list Z) (n : nat) :
  (1 <= n <= length a)%nat ->
  let v := shellSortKnuth a !!! (length a - n)%nat in
  v ∈ a /\ (n <= countAtLeast v a)%nat /\ (countAbove v a < n)%nat.
Proof.
  intros Hn v. unfold shellSortKnuth in v.
  pose proof (merge_sort_Permutation Z.le a) as Hp.
  pose proof (StronglySorted_merge_sort Z.le a) as Hs.
  pose proof (Permutation_length Hp) as Hl.
  destruct (rank_in_sorted _ (length a - n) Hs ltac:(lia)) as [H1 H2].
  fold v in H1, H2. unfold countAtLeast, countAbove in *.
  rewrite Hp in H1, H2. split; [|split; lia].
  rewrite <- Hp. apply list_elem_of_lookup_total_2. lia.
Qed.

Section StepperThreshold.
Variables (junk idle : Z) (sensorSignals : list Z).

Lemma Stepper_collectMaxima_length idxs :
  forall acc, length (snd acc) = 64%nat ->
    length (snd (foldl (Stepper.storeMaximum sensorSignals idle) acc idxs)) = 64%nat.
Proof.
  induction idxs as [|i idxs IH]; intros [j b] Hb; [exact Hb|].
  cbn [foldl]. apply IH. unfold Stepper.storeMaximum.
  destruct (Stepper.isLocalMax _ _ _); cbn [snd]; [rewrite length_insert|]; exact Hb.
Qed.

Lemma Stepper_zeroFrom_length j (b : list Z) : length (Stepper.zeroFrom j b) = length b.
Proof.
  unfold Stepper.zeroFrom. generalize (seq j (63 - j)). intros idxs. revert b.
  induction idxs as [|i idxs IH]; intros b; [reflexivity|].
  cbn [foldl]. rewrite IH. apply length_insert.
Qed.

Lemma Stepper_maxValuesBuffer_length :
  length (Stepper.maxValuesBuffer junk sensorSignals idle) = 64%nat.
Proof.
  unfold Stepper.maxValuesBuffer, Stepper.collectMaxima.
  pose proof (Stepper_collectMaxima_length (innerIndices sensorSignals)
                (0%nat, replicate 64 junk) (length_replicate _ _)) as H.
  destruct (foldl _ _ _) as [j b]. rewrite Stepper_zeroFrom_length. exact H.
Qed.

(** The scan appends the local maxima to the written part of the buffer as
    long as they fit. *)
Lemma Stepper_collectMaxima_fold idxs :
  forall (written : list Z) (m : nat),
    let found := filter (fun i => Is_true (Stepper.isLocalMax sensorSignals idle i)) idxs in
    (length found <= m)%nat -> (length written + m = 64)%nat ->
    foldl (Stepper.storeMaximum sensorSignals idle)
      (length written, written ++ replicate m junk) idxs
    = ((length written + length found)%nat,
       written ++ ((fun i => Z.abs (sensorSignals !!! i - idle)) <$> found)
       ++ replicate (m - length found) junk).
Proof.
  induction idxs as [|i idxs IH]; intros written m found Hm Hw; subst found.
  - cbn. rewrite Nat.add_0_r, Nat.sub_0_r. reflexivity.
  - cbn [foldl]. rewrite filter_cons in Hm |- *. unfold Stepper.storeMaximum at 2.
    destruct (Stepper.isLocalMax sensorSignals idle i) eqn:E.
    + rewrite decide_True in Hm |- * by exact I. cbn [length] in Hm.
      destruct m as [|m]; [lia|].
      rewrite Nat.mod_small by lia.
      rewrite insert_app_r_alt by lia. rewrite Nat.sub_diag. cbn [replicate].
      change (<[0%nat := ?x]> (?y :: ?l)) with (x :: l).
      rewrite (cons_middle _ written), app_assoc.
      replace (S (length written)) with (length (written ++ [Z.abs (sensorSignals !!! i - idle)]))
        by (rewrite length_app; cbn; lia).
      rewrite IH by (rewrite ?length_app; cbn; lia).
      rewrite length_app. cbn [length fmap list_fmap]. rewrite <- app_assoc. cbn [app].
      f_equal. lia.
    + rewrite decide_False in Hm |- * by exact id. apply IH; assumption.
Qed.

Lemma Stepper_zeroFrom_fold (m : nat) :
  forall (written rest : list Z),
    foldl (fun a i => <[i := 0]> a) (written ++ replicate m junk ++ rest)
      (seq (length written) m)
    = written ++ replicate m 0 ++ rest.
Proof.
  induction m as [|m IH]; intros written rest; [reflexivity|].
  cbn [seq foldl replicate app]. rewrite insert_app_r_alt by lia. rewrite Nat.sub_diag.
  change (<[0%nat := ?x]> (?y :: ?l)) with (x :: l).
  rewrite (cons_middle 0 written), app_assoc.
  replace (S (length written)) with (length (written ++ [0])) by (rewrite length_app; cbn; lia).
  rewrite IH. rewrite <- app_assoc. reflexivity.
Qed.

(** With at most 63 local maxima the sorted buffer is: the local maxima in
    scan order, zeros, and the last slot, which was never written. *)
Lemma Stepper_maxValuesBuffer_content :
  let peaks := localMaxima_spec sensorSignals idle in
  (length peaks <= 63)%nat ->
  Stepper.maxValuesBuffer junk sensorSignals idle
  = peaks ++ replicate (63 - length peaks) 0 ++ [junk].
Proof.
  intros peaks Hp. unfold peaks, localMaxima_spec in *. rewrite length_fmap in Hp.
  unfold Stepper.maxValuesBuffer, Stepper.collectMaxima.
  pose proof (Stepper_collectMaxima_fold (innerIndices sensorSignals) [] 64
                ltac:(lia) eq_refl) as H.
  cbn [length app Nat.add] in H. rewrite H. unfold Stepper.zeroFrom.
  rewrite length_fmap.
  set (found := filter _ _) in *. set (pk := _ <$> found).
  replace (64 - length found)%nat with ((63 - length found) + 1)%nat by lia.
  rewrite replicate_add. cbn [replicate].
  replace (length found) with (length pk) at 2 by (unfold pk; apply length_fmap).
  replace (length found) with (length pk) at 1 by (unfold pk; apply length_fmap).
  rewrite <- (length_fmap (fun i => Z.abs (sensorSignals !!! i - idle)) found).
  fold pk. apply Stepper_zeroFrom_fold.
Qed.
End StepperThreshold.

(** The extreme values of the DC-motor sampling loop. *)
Lemma newMaximum_head this maxValue x rest :
  newMaximum this maxValue (x :: rest) 0 <-> inWindow this x = true /\ maxValue < x.
Proof.
  unfold newMaximum. split.
  - intros (y & [= <-] & Hw & Hm & _). auto.
  - intros [Hw Hm]. exists x. repeat split; auto. intros j y Hj. lia.
Qed.

Lemma newMaximum_tail this maxValue x rest i :
  newMaximum this maxValue (x :: rest) (S i)
  <-> newMaximum this (if (maxValue <? x) && inWindow this x then x else maxValue) rest i.
Proof.
  unfold newMaximum. cbn [lookup list_lookup]. split.
  - intros (y & Hy & Hw & Hm & Hb). exists y. repeat split; auto.
    + destruct (Z.ltb_spec maxValue x), (inWindow this x) eqn:Ex; cbn [andb]; try lia.
      apply (Hb 0%nat x); [lia|reflexivity|exact Ex].
    + intros j z Hj Hz. apply (Hb (S j) z); [lia|exact Hz].
  - intros (y & Hy & Hw & Hm & Hb). exists y.
    destruct (Z.ltb_spec maxValue x), (inWindow this x) eqn:Ex; cbn [andb] in Hm;
      (repeat split; auto; try lia;
       intros [|j] z Hj Hz Hwz;
       [injection Hz as <-; first [lia | congruence]|apply (Hb j z); [lia|exact Hz|exact Hwz]]).
Qed.

Lemma DC_sampleRotation_tracked (adc : nat -> Z) n :
  forall (this : valve) (minValue0 maxValue0 : Z) (w : world),
    let '(samples, minValue, maxValue, _) :=
      DCMotor.sampleRotation adc n this minValue0 maxValue0 w in
    trackedExtremes this minValue0 maxValue0 samples minValue maxValue.
Proof.
  induction n as [|n IH]; intros this mn mx w.
  - cbn. unfold trackedExtremes. split; [intros x Hx; inversion Hx|].
    split; [left; split; [reflexivity|intros x Hx; inversion Hx]|].
    split; [intros i x Hx; discriminate|]. left. reflexivity.
  - cbn [DCMotor.sampleRotation readHallSensorSignal].
    match goal with
    | |- context [Z.quot ?s 4] => set (x := Z.quot s 4)
    end.
    fold (inWindow this x).
    match goal with
    | |- context [DCMotor.sampleRotation adc n this _ _ ?w1] => set (w1' := w1)
    end.
    pose proof (newMaximum_head this mx x) as Hhead.
    pose proof (newMaximum_tail this mx x) as Htail.
    destruct ((mx <? x) && inWindow this x) eqn:Emax.
    + apply andb_prop in Emax as [Hlt Hwin]. apply Z.ltb_lt in Hlt.
      specialize (IH this mn x w1').
      destruct (DCMotor.sampleRotation adc n this mn x w1') as [[[rest mn'] mx'] w2].
      destruct IH as (Hmax & Hmx & Hmin & Hmn). unfold trackedExtremes.
      split; [|split; [|split]].
      * intros y Hy Hwy. apply elem_of_cons in Hy as [->|Hy]; [|apply Hmax; assumption].
        destruct Hmx as [[-> _]|[? _]]; lia.
      * right. destruct Hmx as [[-> _]|(? & Hin & Hw')].
        -- split; [lia|]. split; [left|exact Hwin].
        -- split; [lia|]. split; [right; exact Hin|exact Hw'].
      * intros [|i] y Hy Hwy.
        -- right. injection Hy as <-. apply (proj2 (Hhead _)). auto.
        -- destruct (Hmin i y Hy Hwy) as [?|Hn]; [left; assumption|].
           right. exact (proj2 (Htail _ _) Hn).
      * destruct Hmn as [->|(Hlt' & i & Hi & Hwi & Hn)]; [left; reflexivity|].
        right. split; [exact Hlt'|]. exists (S i). repeat split; auto.
        intros Hn'. apply Hn. exact (proj1 (Htail _ _) Hn').
    + assert (Hnot : ~ (inWindow this x = true /\ mx < x)).
      { intros [Hwin Hlt]. rewrite Hwin in Emax. apply Z.ltb_lt in Hlt.
        rewrite Hlt in Emax. discriminate. }
      assert (Hle : inWindow this x = true -> x <= mx).
      { intros Hwin. destruct (Z_le_gt_dec x mx); [assumption|].
        exfalso. apply Hnot. split; [assumption|lia]. }
      destruct ((x <? mn) && inWindow this x) eqn:Emin.
      * apply andb_prop in Emin as [Hlt Hwin]. apply Z.ltb_lt in Hlt.
        specialize (Hle Hwin).
        specialize (IH this x mx w1').
        destruct (DCMotor.sampleRotation adc n this x mx w1') as [[[rest mn'] mx'] w2].
        destruct IH as (Hmax & Hmx & Hmin & Hmn). unfold trackedExtremes.
        split; [|split; [|split]].
        -- intros y Hy Hwy. apply elem_of_cons in Hy as [->|Hy]; [|apply Hmax; assumption].
           destruct Hmx as [[-> _]|[? _]]; lia.
        -- destruct Hmx as [[-> Hall]|(? & Hin & Hw')].
           ++ left. split; [reflexivity|].
              intros y Hy Hwy. apply elem_of_cons in Hy as [->|Hy]; [lia|auto].
           ++ right. split; [lia|]. split; [right; exact Hin|exact Hw'].
        -- intros [|i] y Hy Hwy.
           ++ injection Hy as <-. left.
              destruct Hmn as [->|[? _]]; lia.
           ++ destruct (Hmin i y Hy Hwy) as [?|Hn]; [left; assumption|].
              right. exact (proj2 (Htail _ _) Hn).
        -- right. destruct Hmn as [->|(Hlt' & i & Hi & Hwi & Hn)].
           ++ split; [exact Hlt|]. exists 0%nat. repeat split; auto.
              intros Hn'. apply Hnot. exact (proj1 (Hhead _) Hn').
           ++ split; [lia|]. exists (S i). repeat split; auto.
              intros Hn'. apply Hn. exact (proj1 (Htail _ _) Hn').
      * specialize (IH this mn mx w1').
        destruct (DCMotor.sampleRotation adc n this mn mx w1') as [[[rest mn'] mx'] w2].
        destruct IH as (Hmax & Hmx & Hmin & Hmn). unfold trackedExtremes.
        assert (Hx : inWindow this x = true -> x <= mx /\ mn <= x).
        { intros Hwin. rewrite Hwin in Emax, Emin. rewrite andb_true_r in Emax, Emin.
          apply Z.ltb_ge in Emax, Emin. lia. }
        split; [|split; [|split]].
        -- intros y Hy Hwy. apply elem_of_cons in Hy as [->|Hy]; [|apply Hmax; assumption].
           destruct (Hx Hwy). destruct Hmx as [[-> _]|[? _]]; lia.
        -- destruct Hmx as [[-> Hall]|(? & Hin & Hw')].
           ++ left. split; [reflexivity|].
              intros y Hy Hwy. apply elem_of_cons in Hy as [->|Hy]; [apply Hx, Hwy|auto].
           ++ right. split; [lia|]. split; [right; exact Hin|exact Hw'].
        -- intros [|i] y Hy Hwy.
           ++ injection Hy as <-. left. destruct (Hx Hwy).
              destruct Hmn as [->|[? _]]; lia.
           ++ destruct (Hmin i y Hy Hwy) as [?|Hn]; [left; assumption|].
              right. exact (proj2 (Htail _ _) Hn).
        -- destruct Hmn as [->|(Hlt' & i & Hi & Hwi & Hn)]; [left; reflexivity|].
           right. split; [exact Hlt'|]. exists (S i). repeat split; auto.
           intros Hn'. apply Hn. exact (proj1 (Htail _ _) Hn').
Qed.

Section StepperSlots.
Variables (junk idle : Z) (sensorSignals : list Z).

(** Every slot of the buffer holds a local maximum of the deviation, a
    zero, or what it held before the scan. *)
Lemma Stepper_maxValuesBuffer_slots (x : Z) :
  x ∈ Stepper.maxValuesBuffer junk sensorSignals idle ->
  x ∈ localMaxima_spec sensorSignals idle \/ x = 0 \/ x = junk.
Proof.
  set (P := fun x : Z => x ∈ localMaxima_spec sensorSignals idle \/ x = 0 \/ x = junk).
  assert (Hscan : forall idxs acc,
             idxs ⊆ innerIndices sensorSignals ->
             Forall P (snd acc) ->
             Forall P (snd (foldl (Stepper.storeMaximum sensorSignals idle) acc idxs))).
  { induction idxs as [|i idxs IH]; intros [j b] Hsub Hb; [exact Hb|].
    cbn [foldl]. apply IH; [intros k Hk; apply Hsub; right; exact Hk|].
    unfold Stepper.storeMaximum.
    destruct (Stepper.isLocalMax sensorSignals idle i) eqn:E; cbn [snd] in *; [|exact Hb].
    apply Forall_insert; [exact Hb|]. left. unfold localMaxima_spec.
    apply (list_elem_of_fmap_2 (fun i => Z.abs (sensorSignals !!! i - idle))).
    apply list_elem_of_filter. split; [rewrite E; exact I|].
    apply Hsub. left. }
  assert (Hzero : forall idxs b, Forall P b ->
                    Forall P (foldl (fun a i => <[i := 0]> a) b idxs)).
  { induction idxs as [|i idxs IH]; intros b Hb; [exact Hb|].
    cbn [foldl]. apply IH. apply Forall_insert; [exact Hb|]. right. left. reflexivity. }
  unfold Stepper.maxValuesBuffer, Stepper.collectMaxima.
  pose proof (Hscan (innerIndices sensorSignals) (0%nat, replicate 64 junk)
                ltac:(intros k Hk; exact Hk)
                ltac:(apply Forall_replicate; right; right; reflexivity)) as H.
  destruct (foldl _ _ _) as [j b]. cbn [snd] in H.
  unfold Stepper.zeroFrom. intros Hx.
  pose proof (Hzero (seq j (63 - j)) b H) as Hall.
  rewrite Forall_forall in Hall. exact (Hall x Hx).
Qed.
End StepperSlots.

Lemma countAtLeast_snoc v (l : list Z) x :
  (countAtLeast v (l ++ [x]) <= S (countAtLeast v l))%nat.
Proof.
  unfold countAtLeast. rewrite filter_app, length_app.
  pose proof (length_filter (fun y => v <= y) [x]) as H. cbn [length] in H. lia.
Qed.

Lemma countAbove_snoc v (l : list Z) x :
  (countAbove v l <= countAbove v (l ++ [x]))%nat.
Proof. unfold countAbove. rewrite filter_app, length_app. lia. Qed.





(** ** The liveness check of [initializeValve] *)

Ltac grow :=
  cbn [trace emit DCMotor.stopTurning] in *;
  repeat match goal with
         | H : (_ :: _) `suffix_of` _ |- _ => apply suffix_cons_l in H
         end;
  repeat apply suffix_cons_r;
  first [ reflexivity | assumption | etrans; eassumption ].

Section Liveness.
Variables (adc clock : nat -> Z).

Lemma Stepper_idleReads_sum this w :
  Stepper.idleReads adc this w
  = (Valve (currentPos this) (errors this) (idleSum adc (adcReads w)) 0,
     World (15 + adcReads w) (clockReads w) (trace w)).
Proof.
  unfold Stepper.idleReads, idleSum, hallSignalAt. cbn. reflexivity.
Qed.

Lemma DC_idleReads_sum this w :
  DCMotor.idleReads adc this w
  = (Valve (currentPos this) (errors this) (idleSum adc (adcReads w)) 0,
     World (15 + adcReads w) (clockReads w) (trace w)).
Proof.
  unfold DCMotor.idleReads, idleSum, hallSignalAt. cbn. reflexivity.
Qed.

Lemma DC_startTurning_trace (cfg : DCMotor.config) d w w' :
  trace (DCMotor.startTurning cfg d w) `suffix_of` trace w' -> trace w `suffix_of` trace w'.
Proof. unfold DCMotor.startTurning. destruct (_ || _); cbn; apply suffix_cons_l. Qed.

Lemma DC_sampleRotation_trace n :
  forall this minValue maxValue w,
    trace (snd (DCMotor.sampleRotation adc n this minValue maxValue w)) = trace w.
Proof.
  induction n as [|n IH]; intros this mn mx w; [reflexivity|].
  cbn [DCMotor.sampleRotation readHallSensorSignal].
  repeat match goal with
         | |- context [if ?c then _ else _] => destruct c
         end;
    match goal with
    | |- context [DCMotor.sampleRotation adc n this ?a ?b ?w1] =>
      specialize (IH this a b w1);
      destruct (DCMotor.sampleRotation adc n this a b w1) as [[[rest mn'] mx'] w2]
    end;
    exact IH.
Qed.

Lemma Stepper_sampleRotation_trace (cfg : Stepper.config) n :
  forall w, trace w `suffix_of` trace (snd (Stepper.sampleRotation adc cfg n w)).
Proof.
  induction n as [|n IH]; intros w; [reflexivity|].
  cbn [Stepper.sampleRotation readHallSensorSignal].
  match goal with
  | |- context [Stepper.sampleRotation adc cfg n ?w1] =>
    specialize (IH w1); destruct (Stepper.sampleRotation adc cfg n w1) as [rest w2]
  end.
  cbn in IH |- *. apply suffix_cons_l in IH. exact IH.
Qed.

Lemma Stepper_censusLoop_trace (cfg : Stepper.config) n :
  forall this l w, trace w `suffix_of` trace (snd (Stepper.censusLoop adc cfg n this l w)).
Proof.
  induction n as [|n IH]; intros this l w; [reflexivity|].
  cbn [Stepper.censusLoop readHallSensorSignal].
  match goal with
  | |- context [Stepper.censusLoop adc cfg n this ?l1 ?w1] =>
    specialize (IH this l1 w1)
  end.
  cbn in IH. apply suffix_cons_l in IH. exact IH.
Qed.

(** What comes after the census ends with error code 0, 2 or 3. *)
Lemma Stepper_afterCensus_outcomes (cfg : Stepper.config) fuel this l w ret this' w' :
  Stepper.afterCensus adc clock cfg fuel this l w = Done (ret, this', w') ->
  (errors this' = 0 \/ errors this' = 2 \/ errors this' = 3)
  /\ trace w `suffix_of` trace w'.
Proof.
  unfold Stepper.afterCensus, Stepper.locate, Stepper.finalize. cbn [millis].
  destruct (negb (_ =? _)).
  { intros [= <- <- <-]. cbn. auto using suffix_cons_r. }
  destruct (_ && _).
  - cbn [andThen]. destruct (_ <=? _).
    { intros [= <- <- <-]. cbn. auto using suffix_cons_r. }
    destruct (Stepper.homingLoop _ _ _ _ _ _ _ _ _) as [f| |] eqn:Eh; try discriminate.
    apply Stepper_homingLoop_gaveUp in Eh. destruct f as [r t w1|[] w1]; cbn [andThen gaveUp trace] in *.
    { intros [= <- <- <-]. destruct Eh as (_ & -> & Ht & _). cbn. auto. }
    destruct (Stepper.gotoPosition _ _ _ _ _ _ _) as [[[r t] w2]| |] eqn:Eg; try discriminate.
    apply Stepper_gotoPosition_outcomes in Eg as (_ & Ht & _). cbn in Ht.
    do 2 apply suffix_cons_l in Ht.
    cbn [mbind result_mbind bind]. intros [= <- <- <-]. cbn.
    split; [auto|etrans; eassumption].
  - destruct (Stepper.searchLoop _ _ _ _ _ _ _ _ _ _ _) as [f| |] eqn:Es; try discriminate.
    apply Stepper_searchLoop_gaveUp in Es. cbn [mbind result_mbind bind].
    destruct f as [r t w1|[[h a] sc] w1]; cbn [andThen gaveUp trace] in *.
    { intros [= <- <- <-]. destruct Es as (_ & -> & Ht & _). cbn. auto. }
    destruct (_ <=? _).
    { intros [= <- <- <-]. cbn. auto using suffix_cons_r. }
    destruct (Stepper.homingLoop _ _ _ _ _ _ _ _ _) as [f| |] eqn:Eh; try discriminate.
    apply Stepper_homingLoop_gaveUp in Eh. destruct f as [r t w2|[] w2]; cbn [andThen gaveUp trace] in *.
    { intros [= <- <- <-]. destruct Eh as (_ & -> & Ht & _). cbn.
      split; [auto|etrans; eassumption]. }
    destruct (Stepper.gotoPosition _ _ _ _ _ _ _) as [[[r t] w3]| |] eqn:Eg; try discriminate.
    apply Stepper_gotoPosition_outcomes in Eg as (_ & Ht & _). cbn in Ht.
    do 2 apply suffix_cons_l in Ht.
    cbn [mbind result_mbind bind]. intros [= <- <- <-]. cbn.
    split; [auto|]. etrans; [exact Es|]. etrans; eassumption.
Qed.

Lemma DC_afterCensus_outcomes (cfg : DCMotor.config) fuel this l w ret this' w' :
  DCMotor.afterCensus adc clock cfg fuel this l w = Done (ret, this', w') ->
  (errors this' = 0 \/ errors this' = 2 \/ errors this' = 3)
  /\ trace w `suffix_of` trace w'.
Proof.
  unfold DCMotor.afterCensus, DCMotor.locate, DCMotor.finalize, DCMotor.startTurning.
  cbn [millis]. cbv zeta.
  destruct (negb (_ =? _)).
  { intros [= <- <- <-]. cbn. auto using suffix_cons_r. }
  destruct (_ || _), (_ && _); cbn [andThen mbind result_mbind bind].
  1, 3: destruct (_ <=? _);
    [ intros [= <- <- <-]; split; [cbn; auto | grow]
    | destruct (DCMotor.gotoPosition _ _ _ _ _ _ _) as [[[r t] w2]| |] eqn:Eg;
      try discriminate;
      apply DC_gotoPosition_outcomes in Eg as (_ & Ht & _);
      cbn [mbind result_mbind bind]; intros [= <- <- <-]; split; [cbn; auto | grow] ].
  all: destruct (DCMotor.searchLoop _ _ _ _ _ _ _ _ _ _ _) as [f| |] eqn:Es;
    try discriminate;
    apply DC_searchLoop_gaveUp in Es; cbn [mbind result_mbind bind];
    destruct f as [r t w1|[[h a] sc] w1]; cbn [andThen gaveUp] in *;
    [ intros [= <- <- <-]; destruct Es as (_ & -> & Ht & _); split; [cbn; auto | grow] | ];
    (destruct (_ <=? _);
     [ intros [= <- <- <-]; split; [cbn; auto | grow]
     | destruct (DCMotor.gotoPosition _ _ _ _ _ _ _) as [[[r t] w2]| |] eqn:Eg;
       try discriminate;
       apply DC_gotoPosition_outcomes in Eg as (_ & Ht & _);
       cbn [mbind result_mbind bind]; intros [= <- <- <-]; split; [cbn; auto | grow] ]).
Qed.
Lemma Stepper_censusPhase_trace (cfg : Stepper.config) junk this w this1 l w1 :
  Stepper.censusPhase adc cfg junk this w = Done (this1, l, w1) ->
  SleepPin (Stepper.enableIsHigh cfg) :: trace w `suffix_of` trace w1.
Proof.
  unfold Stepper.censusPhase.
  match goal with
  | |- context [Stepper.sampleRotation adc cfg ?n ?w0] =>
    pose proof (Stepper_sampleRotation_trace cfg n w0) as Hs;
    destruct (Stepper.sampleRotation adc cfg n w0) as [sensorSignals w2]
  end.
  destruct (Stepper.calibrate _ _ _ _) as [this2| |]; try discriminate.
  cbn [mbind result_mbind bind readHallSensorSignal].
  match goal with
  | |- context [Stepper.censusLoop adc cfg ?n ?t ?l0 ?w0] =>
    pose proof (Stepper_censusLoop_trace cfg n t l0 w0) as Hc;
    destruct (Stepper.censusLoop adc cfg n t l0 w0) as [l1 w3]
  end.
  intros [= <- <- <-]. cbn in Hs, Hc. etrans; eassumption.
Qed.

Lemma DC_censusPhase_outcomes (cfg : DCMotor.config) fuel this w f :
  DCMotor.censusPhase adc clock cfg fuel this w = Done f ->
  match f with
  | Return _ this' w' =>
    errors this' = 3 /\ trace (DCMotor.startTurning cfg true w) `suffix_of` trace w'
  | Next _ w' => trace (DCMotor.startTurning cfg true w) `suffix_of` trace w'
  end.
Proof.
  unfold DCMotor.censusPhase, DCMotor.startTurning. cbn [readHallSensorSignal].
  destruct (_ || _);
    match goal with
    | |- context [DCMotor.sampleRotation adc ?n ?t ?a ?b ?w0] =>
      pose proof (DC_sampleRotation_trace n t a b w0) as Hs;
      destruct (DCMotor.sampleRotation adc n t a b w0) as [[[sensorSignals mn] mx] w2]
    end;
    (destruct (DCMotor.calibrate _ _ _ _) as [this2| |]; try discriminate);
    cbn [mbind result_mbind bind readHallSensorSignal millis];
    (destruct (DCMotor.censusLoop _ _ _ _ _ _ _ _) as [f'| |] eqn:Ec; try discriminate);
    apply DC_censusLoop_gaveUp in Ec;
    cbn [mbind result_mbind bind]; cbn [snd] in Hs;
    destruct f' as [r t w3|l1 w3]; intros [= <-]; cbn [gaveUp] in Ec;
    cbn [trace emit DCMotor.stopTurning] in Ec, Hs |- *; rewrite Hs in Ec;
    [ destruct Ec as (_ & -> & Ht & _); split; [reflexivity|]
    | rename Ec into Ht
    | destruct Ec as (_ & -> & Ht & _); split; [reflexivity|]
    | rename Ec into Ht ];
    do 2 apply suffix_cons_l in Ht; exact Ht.
Qed.

(** C7.  [initializeValve] adds up three idle reads (the stepper variant
    after the one read that initialises a local variable).  When the sum is
    0 it returns [false] with error code 1, idle signal and threshold
    reset, and nothing has been done to the actuator.  When the sum is not
    0, whatever the call returns, the error code is not 1 and the actuator
    has been started (stepper driver enabled, DC motor turning). *)
Theorem initializeValve_liveness_check
    (scfg : Stepper.config) (dcfg : DCMotor.config) (junk : Z)
    (fuel : nat) (this : valve) (w : world) :
  (let sum := idleSum adc (5 + adcReads w) in
   hallSensorIdleSignal (fst (Stepper.idleReads adc this (snd (readHallSensorSignal adc w))))
   = sum
   /\ (sum = 0 ->
       Stepper.initializeValve adc clock scfg junk fuel this w
       = Done (false, Valve (currentPos this) 1 0 0,
               World (20 + adcReads w) (clockReads w) (trace w)))
   /\ (sum <> 0 ->
       forall ret this' w',
         Stepper.initializeValve adc clock scfg junk fuel this w = Done (ret, this', w') ->
         errors this' <> 1
         /\ SleepPin (Stepper.enableIsHigh scfg) :: trace w `suffix_of` trace w'))
  /\ (let sum := idleSum adc (adcReads w) in
      hallSensorIdleSignal (fst (DCMotor.idleReads adc this w)) = sum
      /\ (sum = 0 ->
          DCMotor.initializeValve adc clock dcfg fuel this w
          = Done (false, Valve (currentPos this) 1 0 0,
                  World (15 + adcReads w) (clockReads w) (trace w)))
      /\ (sum <> 0 ->
          forall ret this' w',
            DCMotor.initializeValve adc clock dcfg fuel this w = Done (ret, this', w') ->
            errors this' <> 1
            /\ trace (DCMotor.startTurning dcfg true w) `suffix_of` trace w')).
Proof.
  split; cbv zeta.
  - unfold Stepper.initializeValve, Stepper.throughCensus.
    cbn [readHallSensorSignal snd]. rewrite !Stepper_idleReads_sum.
    cbn [fst hallSensorIdleSignal adcReads].
    split; [reflexivity|]. split.
    + intros ->. reflexivity.
    + intros Hsum ret this' w'. apply Z.eqb_neq in Hsum. rewrite Hsum.
      destruct (Stepper.censusPhase _ _ _ _ _) as [[[this1 l] w1]| |] eqn:Ec;
        try discriminate.
      apply Stepper_censusPhase_trace in Ec. cbn [mbind result_mbind bind andThen].
      intros Ha. apply Stepper_afterCensus_outcomes in Ha as [He Ht].
      split; [lia|]. cbn in Ec. etrans; eassumption.
  - unfold DCMotor.initializeValve, DCMotor.throughCensus.
    rewrite !DC_idleReads_sum. cbn [fst hallSensorIdleSignal adcReads].
    split; [reflexivity|]. split.
    + intros ->. reflexivity.
    + intros Hsum ret this' w'. apply Z.eqb_neq in Hsum. rewrite Hsum.
      destruct (DCMotor.censusPhase _ _ _ _ _ _) as [f| |] eqn:Ec; try discriminate.
      apply DC_censusPhase_outcomes in Ec.
      assert (Hw : forall d, trace (DCMotor.startTurning dcfg d
                                 (World (15 + adcReads w) (clockReads w) (trace w)))
                             = trace (DCMotor.startTurning dcfg d w)).
      { intros d. unfold DCMotor.startTurning. destruct (_ || _); reflexivity. }
      rewrite Hw in Ec.
      destruct f as [r t w1|[this1 l] w1]; cbn [andThen].
      * intros [= <- <- <-]. destruct Ec as [-> Ht]. split; [lia|exact Ht].
      * intros Ha. apply DC_afterCensus_outcomes in Ha as [He Ht].
        split; [lia|]. etrans; eassumption.
Qed.
End Liveness.

Lemma initializeValve_liveness_check_witness :
  Stepper.initializeValve (fun _ => 0) steadyClock Stepper.defaultConfig 0 100
    constructed powerOn
  = Done (false, Valve 0 1 0 0, World 20 0 [])
  /\ (forall ret this' w',
         DCMotor.initializeValve (tentSensor 10 3 1000) steadyClock DCMotor.defaultConfig
           1000 constructed powerOn = Done (ret, this', w') ->
         errors this' <> 1
         /\ trace (DCMotor.startTurning DCMotor.defaultConfig true powerOn)
              `suffix_of` trace w').
Proof.
  pose proof (initializeValve_liveness_check (fun _ => 0) steadyClock
                Stepper.defaultConfig DCMotor.defaultConfig 0 100 constructed powerOn)
    as [(_ & Hzero & _) _].
  pose proof (initializeValve_liveness_check (tentSensor 10 3 1000) steadyClock
                Stepper.defaultConfig DCMotor.defaultConfig 0 1000 constructed powerOn)
    as [_ (_ & _ & Hlive)].
  split.
  - apply Hzero. vm_compute. reflexivity.
  - apply Hlive. vm_compute. discriminate.
Defined.

(** ** The polarity census *)

Lemma DC_sampleRotation_board (adc : nat -> Z) n :
  forall this minValue maxValue w,
    snd (DCMotor.sampleRotation adc n this minValue maxValue w)
    = World (5 * n + adcReads w) (clockReads w) (trace w).
Proof.
  induction n as [|n IH]; intros this mn mx w; [destruct w; reflexivity|].
  cbn [DCMotor.sampleRotation readHallSensorSignal].
  repeat match goal with
         | |- context [if ?c then _ else _] => destruct c
         end;
    match goal with
    | |- context [DCMotor.sampleRotation adc n this ?a ?b ?w1] =>
      specialize (IH this a b w1);
      destruct (DCMotor.sampleRotation adc n this a b w1) as [[[rest mn'] mx'] w2]
    end;
    cbn [snd adcReads clockReads trace] in *; rewrite IH; f_equal; lia.
Qed.

(** The census of the DC-motor valve is left in one of two ways: through
    its guard, with the counter at [2 * ports] or beyond and no call of
    [millis] having found the budget used up; or by [return false] with
    error code 3 and the motor stopped, right after the first call of
    [millis] that did. *)
Lemma DC_censusLoop_cut_short (adc clock : nat -> Z) (cfg : DCMotor.config) fuel :
  forall this startTime l w f,
    DCMotor.censusLoop adc clock cfg fuel this startTime l w = Done f ->
    match f with
    | Return ret this' w' =>
      ret = false /\ this' = set_errors 3 this
      /\ head (trace w') = Some (MotorPins false false)
      /\ (clockReads w < clockReads w')%nat
      /\ clockRunsOut clock startTime 3000 (pred (clockReads w'))
      /\ forall k, (clockReads w <= k < pred (clockReads w'))%nat ->
                   ~ clockRunsOut clock startTime 3000 k
    | Next l' w' =>
      2 * DCMotor.ports cfg <= c_signalCounter l'
      /\ forall k, (clockReads w <= k < clockReads w')%nat ->
                   ~ clockRunsOut clock startTime 3000 k
    end.
Proof.
  induction fuel as [|fuel IH]; intros this st l w f H; [discriminate|].
  cbn [DCMotor.censusLoop millis readHallSensorSignal] in H.
  destruct (Z.ltb_spec (c_signalCounter l) (2 * DCMotor.ports cfg)) as [Hlt|Hge].
  2:{ injection H as <-. split; [exact Hge|]. intros k Hk. lia. }
  cbn [adcReads clockReads trace] in H.
  destruct (isTimedOut _ _ _) eqn:Et.
  { injection H as <-. cbn. repeat split; auto. intros k Hk. lia. }
  apply IH in H. cbn [clockReads] in H.
  assert (Hnow : ~ clockRunsOut clock st 3000 (clockReads w))
    by (unfold clockRunsOut; congruence).
  destruct f as [r t w'|l' w'].
  - destruct H as (-> & -> & Hh & Hlt' & Hlast & Hk).
    repeat split; auto; try lia.
    intros k Hr. destruct (Nat.eq_dec k (clockReads w)) as [->|]; [exact Hnow|].
    apply Hk. lia.
  - destruct H as [Hsc Hk]. split; [exact Hsc|].
    intros k Hr. destruct (Nat.eq_dec k (clockReads w)) as [->|]; [exact Hnow|].
    apply Hk. lia.
Qed.

(** How the part of the DC-motor calibration up to the end of the census
    can end once the sensor check has passed: with the census through, or
    with the census cut short on the clock. *)
Lemma DC_throughCensus_outcome (adc clock : nat -> Z) (cfg : DCMotor.config) fuel this w f :
  idleSum adc (adcReads w) <> 0 ->
  DCMotor.throughCensus adc clock cfg fuel this w = Done f ->
  let startTime := wrap32 (clock (clockReads w)) in
  match f with
  | Return ret this' w' =>
    ret = false /\ errors this' = 3
    /\ head (trace w') = Some (MotorPins false false)
    /\ (S (clockReads w) < clockReads w')%nat
    /\ clockRunsOut clock startTime 3000 (pred (clockReads w'))
    /\ forall k, (S (clockReads w) <= k < pred (clockReads w'))%nat ->
                 ~ clockRunsOut clock startTime 3000 k
  | Next (_, l) w' =>
    2 * DCMotor.ports cfg <= c_signalCounter l
    /\ forall k, (S (clockReads w) <= k < clockReads w')%nat ->
                 ~ clockRunsOut clock startTime 3000 k
  end.
Proof.
  intros Hsum Hc startTime.
  unfold DCMotor.throughCensus, DCMotor.censusPhase in Hc.
  rewrite DC_idleReads_sum in Hc. cbn [hallSensorIdleSignal] in Hc.
  apply Z.eqb_neq in Hsum. rewrite Hsum in Hc.
  cbn [readHallSensorSignal millis adcReads clockReads trace] in Hc.
  match type of Hc with
  | context [DCMotor.sampleRotation adc ?n ?t ?a ?b0 ?w0] =>
    pose proof (DC_sampleRotation_board adc n t a b0 w0) as Hw2;
    destruct (DCMotor.sampleRotation adc n t a b0 w0) as [[[sensorSignals mn] mx] w2]
  end.
  cbn [snd] in Hw2.
  assert (Hstart : forall d w0, clockReads (DCMotor.startTurning cfg d w0) = clockReads w0).
  { intros d w0. unfold DCMotor.startTurning. destruct (_ || _); reflexivity. }
  assert (Hclock : clockReads w2 = clockReads w)
    by (rewrite Hw2; cbn [clockReads]; rewrite Hstart; reflexivity).
  destruct (DCMotor.calibrate _ _ _ _) as [this2| |]; try discriminate.
  cbn [mbind result_mbind bind DCMotor.stopTurning emit adcReads clockReads trace] in Hc.
  rewrite Hclock in Hc. fold startTime in Hc.
  destruct (DCMotor.censusLoop _ _ _ _ _ _ _ _) as [[r t w3|l1 w3]| |] eqn:Ec;
    try discriminate; cbn [mbind result_mbind bind] in Hc; injection Hc as <-;
    apply DC_censusLoop_cut_short in Ec; rewrite Hstart in Ec; cbn [clockReads] in Ec.
  - destruct Ec as (-> & -> & Hh & Hlt & Hlast & Hk). repeat split; auto.
  - exact Ec.
Qed.


(** C4, as stated, does not hold for the DC-motor variant.  A valve with
    ten magnets, one of them reversed, is counted over two rotations: 18
    signals of one polarity and 2 of the other, a difference of 16 and not
    of N - 2 = 8, and the calibration succeeds.  A valve whose ten magnets
    all point the same way gets threshold 0, no signal is ever counted, and
    the calibration ends with error code 3, not 2. *)
Lemma census_DC_counterexample :
  DCMotor.throughCensus (tentSensor 10 3 1000) steadyClock DCMotor.defaultConfig 1000
    constructed powerOn
  = Done (Next (Valve 0 0 512 60, CensusLocals 572 true 20 18 2)
            (World 4180 320 [MotorPins false true; MotorPins false false;
                             MotorPins false true]))
  /\ Z.abs (18 - 2) <> DCMotor.ports DCMotor.defaultConfig - 2
  /\ DCMotor.initializeValve (tentSensor 10 3 1000) steadyClock DCMotor.defaultConfig 1000
       constructed powerOn
     = Done (true, Valve 0 0 512 60,
             World 4660 418
               [MotorPins false false; MotorPins false true;
                MotorPins false false; MotorPins false true;
                MotorPins false false; MotorPins false true;
                MotorPins false false; MotorPins false true])
  /\ DCMotor.initializeValve (tentSensor 10 3 0) slowClock DCMotor.defaultConfig 400
       constructed powerOn
     = Done (false, Valve 0 3 512 0,
             World 4090 302
               [MotorPins false false; MotorPins false true;
                MotorPins false false; MotorPins false true]).
Proof. by_computation. Qed.

(** C4, amended.  Once the census is through, the stepper variant
    requires [|pos - neg| = ports - 2] of the counters of one rotation, the
    DC-motor variant [|pos - neg| = 2 * (ports - 2)] of the counters of
    [2 * ports] signals.  Any other difference ends [initializeValve] with
    error code 2, the actuator halted and [false] returned; so does, in
    particular, a census of [ports] (DC motor: [2 * ports]) signals of
    which not exactly 1 (DC motor: 2) has the minority polarity.  The
    census of the DC-motor variant ends in one of two ways.  Either it is
    through: the counter has reached [2 * ports], and no call of [millis]
    has found more than 3000 ms elapsed since the census began.  Or, the
    sensor check passed, the function returns before the census is
    through: it does so right after the first call of [millis] that found
    more than 3000 ms elapsed since the census began, with error code 3,
    the motor stopped and [false] returned. *)
Theorem census_mismatch_is_PolarityFault
    (adc clock : nat -> Z) (scfg : Stepper.config) (dcfg : DCMotor.config) (junk : Z)
    (fuel : nat) (this : valve) (w : world) (this1 : valve) (l : censusLocals) (w1 : world) :
  let pos := posPolarityCounter l in
  let neg := negPolarityCounter l in
  let startTime := wrap32 (clock (clockReads w)) in
  (Stepper.throughCensus adc scfg junk this w = Done (Next (this1, l) w1) ->
   let failure :=
     Done (false, set_errors 2 this1,
           emit (SleepPin (negb (Stepper.enableIsHigh scfg))) w1) in
   (Z.abs (pos - neg) <> Stepper.ports scfg - 2 ->
    Stepper.initializeValve adc clock scfg junk fuel this w = failure)
   /\ (pos + neg = Stepper.ports scfg -> Z.min pos neg <> 1 ->
       Stepper.initializeValve adc clock scfg junk fuel this w = failure))
  /\ (DCMotor.throughCensus adc clock dcfg fuel this w = Done (Next (this1, l) w1) ->
      let failure := Done (false, set_errors 2 this1, DCMotor.stopTurning w1) in
      (Z.abs (pos - neg) <> 2 * (DCMotor.ports dcfg - 2) ->
       DCMotor.initializeValve adc clock dcfg fuel this w = failure)
      /\ (pos + neg = 2 * DCMotor.ports dcfg -> Z.min pos neg <> 2 ->
          DCMotor.initializeValve adc clock dcfg fuel this w = failure)
      /\ 2 * DCMotor.ports dcfg <= c_signalCounter l
      /\ forall k, (S (clockReads w) <= k < clockReads w1)%nat ->
                   ~ clockRunsOut clock startTime 3000 k)
  /\ (forall ret : bool,
         idleSum adc (adcReads w) <> 0 ->
         DCMotor.throughCensus adc clock dcfg fuel this w = Done (Return ret this1 w1) ->
         DCMotor.initializeValve adc clock dcfg fuel this w = Done (false, this1, w1)
         /\ ret = false /\ errors this1 = 3
         /\ head (trace w1) = Some (MotorPins false false)
         /\ (S (clockReads w) < clockReads w1)%nat
         /\ clockRunsOut clock startTime 3000 (pred (clockReads w1))
         /\ forall k, (S (clockReads w) <= k < pred (clockReads w1))%nat ->
                      ~ clockRunsOut clock startTime 3000 k).
Proof.
  intros pos neg startTime. split; [|split].
  - intros Hc failure.
    assert (Hm : Z.abs (pos - neg) <> Stepper.ports scfg - 2 ->
                 Stepper.initializeValve adc clock scfg junk fuel this w = failure).
    { intros Hne. unfold Stepper.initializeValve. rewrite Hc. cbn [andThen].
      unfold Stepper.afterCensus. fold pos neg.
      apply Z.eqb_neq in Hne. rewrite Hne. reflexivity. }
    split; [exact Hm|]. intros Hsum Hmin. apply Hm. lia.
  - intros Hc failure.
    assert (Hm : Z.abs (pos - neg) <> 2 * (DCMotor.ports dcfg - 2) ->
                 DCMotor.initializeValve adc clock dcfg fuel this w = failure).
    { intros Hne. unfold DCMotor.initializeValve. rewrite Hc. cbn [andThen].
      unfold DCMotor.afterCensus. fold pos neg.
      apply Z.eqb_neq in Hne. rewrite Hne. reflexivity. }
    split; [exact Hm|]. split; [intros Hsum Hmin; apply Hm; lia|].
    assert (Hsum : idleSum adc (adcReads w) <> 0).
    { intros E0. unfold DCMotor.throughCensus in Hc. rewrite DC_idleReads_sum in Hc.
      cbn [hallSensorIdleSignal] in Hc. rewrite E0 in Hc. discriminate. }
    exact (DC_throughCensus_outcome adc clock dcfg fuel this w _ Hsum Hc).
  - intros ret Hsum Hc.
    assert (Hrun : DCMotor.initializeValve adc clock dcfg fuel this w
                   = Done (ret, this1, w1))
      by (unfold DCMotor.initializeValve; rewrite Hc; reflexivity).
    pose proof (DC_throughCensus_outcome adc clock dcfg fuel this w _ Hsum Hc) as H.
    cbv zeta in H. fold startTime in H.
    destruct H as (-> & He & Hh & Hlt & Hlast & Hk).
    split; [exact Hrun|]. repeat split; auto.
Qed.

Lemma census_mismatch_is_PolarityFault_witness :
  Stepper.initializeValve (adcOfReadings sixPortAllUpReadings) steadyClock
    Stepper.defaultConfig 0 100 constructed powerOn
  = Done (false, Valve 0 2 512 55,
          World 695 0 (SleepPin false :: replicate 134 (Steps 3) ++ [SleepPin true]))
  /\ (DCMotor.initializeValve (tentSensor 5 3 1000) steadyClock DCMotor.defaultConfig 1000
        constructed powerOn
      = Done (false, Valve 0 2 512 60,
              World 4180 320 [MotorPins false false; MotorPins false true;
                              MotorPins false false; MotorPins false true])
      /\ 2 * 10 <= c_signalCounter (CensusLocals 572 true 20 16 4)
      /\ forall k, (1 <= k < 320)%nat -> ~ clockRunsOut steadyClock 0 3000 k)
  /\ (DCMotor.initializeValve (tentSensor 10 3 0) slowClock DCMotor.defaultConfig 400
        constructed powerOn
      = Done (false, Valve 0 3 512 0,
              World 4090 302 [MotorPins false false; MotorPins false true;
                              MotorPins false false; MotorPins false true])
      /\ false = false /\ errors (Valve 0 3 512 0) = 3
      /\ head [MotorPins false false; MotorPins false true;
               MotorPins false false; MotorPins false true]
         = Some (MotorPins false false)
      /\ (1 < 302)%nat
      /\ clockRunsOut slowClock 0 3000 301
      /\ forall k, (1 <= k < 301)%nat -> ~ clockRunsOut slowClock 0 3000 k).
Proof.
  split; [|split].
  - apply (proj1 (census_mismatch_is_PolarityFault
                    (adcOfReadings sixPortAllUpReadings) steadyClock
                    Stepper.defaultConfig DCMotor.defaultConfig 0 100 constructed powerOn
                    (Valve 0 0 512 55) (CensusLocals 512 false 0 6 0)
                    (World 695 0 (replicate 134 (Steps 3) ++ [SleepPin true])))).
    all: vm_compute; first [reflexivity | discriminate].
  - destruct (proj1 (proj2 (census_mismatch_is_PolarityFault
                    (tentSensor 5 3 1000) steadyClock
                    Stepper.defaultConfig DCMotor.defaultConfig 0 1000 constructed powerOn
                    (Valve 0 0 512 60) (CensusLocals 572 true 20 16 4)
                    (World 4180 320 [MotorPins false true; MotorPins false false;
                                     MotorPins false true]))))
      as (Hfail & _ & Hcount & Hclock).
    + vm_compute. reflexivity.
    + split; [|split; [exact Hcount|exact Hclock]].
      apply Hfail. vm_compute. discriminate.
  - apply (proj2 (proj2 (census_mismatch_is_PolarityFault
                    (tentSensor 10 3 0) slowClock
                    Stepper.defaultConfig DCMotor.defaultConfig 0 400 constructed powerOn
                    (Valve 0 3 512 0) (CensusLocals 0 false 0 0 0)
                    (World 4090 302 [MotorPins false false; MotorPins false true;
                                     MotorPins false false; MotorPins false true])))
             false).
    all: vm_compute; first [reflexivity | discriminate].
Defined.

(** ** The search for the reversed magnet *)

Lemma readHallSensorSignal_at adc w :
  readHallSensorSignal adc w
  = (hallSignalAt adc (adcReads w), World (5 + adcReads w) (clockReads w) (trace w)).
Proof. reflexivity. Qed.

Lemma noMinoritySignal_next adc this majority w w' :
  adcReads w' = (5 + adcReads w)%nat ->
  noMinoritySignal adc this majority w -> noMinoritySignal adc this majority w'.
Proof.
  intros Hw H j. rewrite Hw.
  replace (5 + adcReads w + 5 * j)%nat with (adcReads w + 5 * S j)%nat by lia.
  apply H.
Qed.

Lemma noMinoritySignal_now adc this majority w :
  noMinoritySignal adc this majority w ->
  aboveThreshold this (hallSignalAt adc (adcReads w)) = true ->
  negb (eqb (hallSensorIdleSignal this <? hallSignalAt adc (adcReads w)) majority) = false.
Proof.
  intros H Ha. specialize (H 0%nat). cbv zeta in H.
  replace (adcReads w + 5 * 0)%nat with (adcReads w) in H by lia.
  rewrite (H Ha). destruct majority; reflexivity.
Qed.

Lemma noMinoritySignal_later adc this majority w w' (m : nat) :
  adcReads w' = (5 * m + adcReads w)%nat ->
  noMinoritySignal adc this majority w -> noMinoritySignal adc this majority w'.
Proof.
  intros Hw H j. rewrite Hw.
  replace (5 * m + adcReads w + 5 * j)%nat with (adcReads w + 5 * (m + j))%nat by lia.
  apply H.
Qed.

Lemma readingsFrom_S adc k n :
  readingsFrom adc k (S n) = hallSignalAt adc k :: readingsFrom adc (5 + k) n.
Proof.
  unfold readingsFrom. cbn [seq fmap list_fmap]. f_equal.
  - f_equal. lia.
  - rewrite <- seq_shift, <- list_fmap_compose. apply list_fmap_ext.
    intros _ i _. unfold compose. f_equal. lia.
Qed.

Lemma risingEdges_nonneg this readings : forall a, 0 <= risingEdges this a readings.
Proof.
  induction readings as [|h rest IH]; intros a; cbn [risingEdges]; [lia|].
  specialize (IH (aboveThreshold this h)). destruct (negb a && _); lia.
Qed.

Lemma risingEdges_prefix this r1 r2 :
  forall a, risingEdges this a r1 <= risingEdges this a (r1 ++ r2).
Proof.
  induction r1 as [|h rest IH]; intros a; cbn [risingEdges app].
  - apply risingEdges_nonneg.
  - specialize (IH (aboveThreshold this h)). lia.
Qed.

Lemma readingsFrom_app adc k n m :
  readingsFrom adc k (n + m) = readingsFrom adc k n ++ readingsFrom adc (5 * n + k) m.
Proof.
  revert k. induction n as [|n IH]; intros k.
  - reflexivity.
  - cbn [Nat.add]. rewrite !readingsFrom_S, IH. cbn [app]. do 3 f_equal. lia.
Qed.

Lemma wrap8_range (z : Z) : 0 <= wrap8 z < 256.
Proof. unfold wrap8. apply Z.mod_pos_bound. lia. Qed.

Lemma wrap8_small (z : Z) : 0 <= z < 256 -> wrap8 z = z.
Proof. unfold wrap8. apply Z.mod_small. Qed.

Section Search.
Variables (adc clock : nat -> Z).

Lemma Stepper_searchLoop_no_minority (cfg : Stepper.config) this startTime majority n :
  forall fuel hallSignal isAbove signalCounter w,
    noMinoritySignal adc this majority w ->
    clockRunsOut clock startTime Stepper.timeout (clockReads w + n) ->
    (n < fuel)%nat ->
    exists f,
      Stepper.searchLoop adc clock cfg fuel this startTime majority hallSignal isAbove
        signalCounter w = Done f
      /\ searchEnds clock (SleepPin (negb (Stepper.enableIsHigh cfg)))
           (2 * Stepper.ports cfg) startTime Stepper.timeout this w f.
Proof.
  induction n as [|n IH]; intros [|fuel] h a sc w Hno Hout Hfuel; try lia;
    cbn [Stepper.searchLoop millis]; rewrite readHallSensorSignal_at;
    (destruct (Z.leb_spec sc (2 * Stepper.ports cfg));
     [|eexists; split; [reflexivity|]; cbn; split; [lia|intros k Hk; cbn in Hk; lia]]);
    (destruct (isTimedOut _ _ _) eqn:Et;
     [eexists; split; [reflexivity|]; cbn; repeat split; auto|]).
  - unfold clockRunsOut in Hout. rewrite Nat.add_0_r in Hout. congruence.
  - pose proof (noMinoritySignal_now _ _ _ _ Hno) as Hnow. cbn [adcReads] in *.
    match goal with
    | |- context [Stepper.takeSteps cfg ?d ?m ?w0] =>
      assert (Hno' : noMinoritySignal adc this majority (Stepper.takeSteps cfg d m w0))
        by (eapply noMinoritySignal_next; [|exact Hno]; reflexivity);
      assert (Hout' : clockRunsOut clock startTime Stepper.timeout
                        (clockReads (Stepper.takeSteps cfg d m w0) + n))
        by (cbn; replace (S (clockReads w + n)) with (clockReads w + S n)%nat by lia;
            exact Hout)
    end.
    assert (Hstep : forall f w0,
               clockReads w0 = S (clockReads w) ->
               searchEnds clock (SleepPin (negb (Stepper.enableIsHigh cfg)))
                 (2 * Stepper.ports cfg) startTime Stepper.timeout this w0 f ->
               searchEnds clock (SleepPin (negb (Stepper.enableIsHigh cfg)))
                 (2 * Stepper.ports cfg) startTime Stepper.timeout this w f).
    { intros f w0 Hw0. destruct f as [r t w'|[[h' a'] sc'] w']; cbn.
      - intros (? & ? & ? & ? & ?). repeat split; auto. lia.
      - intros [? Hk]. split; [assumption|]. intros k Hr.
        destruct (Nat.eq_dec k (clockReads w)) as [->|].
        + unfold clockRunsOut. congruence.
        + apply Hk. lia. }
    destruct (negb a && aboveThreshold this _) eqn:Erise.
    + apply andb_prop in Erise as [_ Habove]. rewrite (Hnow Habove).
      destruct (IH fuel (hallSignalAt adc (adcReads w))
                  (if negb (aboveThreshold this (hallSignalAt adc (adcReads w)))
                   then false else true)
                  (wrap8 (sc + 1)) _ Hno' Hout' ltac:(lia)) as (f & Hf & He).
      exists f. split; [exact Hf|]. eapply Hstep; [|exact He]. reflexivity.
    + destruct (IH fuel (hallSignalAt adc (adcReads w))
                  (if negb (aboveThreshold this (hallSignalAt adc (adcReads w)))
                   then false else a)
                  sc _ Hno' Hout' ltac:(lia)) as (f & Hf & He).
      exists f. split; [exact Hf|]. eapply Hstep; [|exact He]. reflexivity.
Qed.
End Search.

Section SearchDC.
Variables (adc clock : nat -> Z).

Lemma DC_searchLoop_no_minority (cfg : DCMotor.config) this startTime majority n :
  forall fuel hallSignal isAbove signalCounter w,
    noMinoritySignal adc this majority w ->
    clockRunsOut clock startTime 3000 (clockReads w + n) ->
    (n < fuel)%nat ->
    exists f,
      DCMotor.searchLoop adc clock cfg fuel this startTime majority hallSignal isAbove
        signalCounter w = Done f
      /\ searchEnds clock (MotorPins false false) (2 * DCMotor.ports cfg) startTime 3000
           this w f.
Proof.
  induction n as [|n IH]; intros [|fuel] h a sc w Hno Hout Hfuel; try lia;
    cbn [DCMotor.searchLoop millis]; rewrite readHallSensorSignal_at;
    (destruct (Z.leb_spec sc (2 * DCMotor.ports cfg));
     [|eexists; split; [reflexivity|]; cbn; split; [lia|intros k Hk; cbn in Hk; lia]]);
    (destruct (isTimedOut _ _ _) eqn:Et;
     [eexists; split; [reflexivity|]; cbn; repeat split; auto|]).
  - unfold clockRunsOut in Hout. rewrite Nat.add_0_r in Hout. congruence.
  - pose proof (noMinoritySignal_now _ _ _ _ Hno) as Hnow. cbn [adcReads] in *.
    set (w0 := World (5 + adcReads w) (S (clockReads w)) (trace w)).
    assert (Hno' : noMinoritySignal adc this majority w0)
      by (eapply noMinoritySignal_next; [|exact Hno]; reflexivity).
    assert (Hout' : clockRunsOut clock startTime 3000 (clockReads w0 + n))
      by (cbn; replace (S (clockReads w + n)) with (clockReads w + S n)%nat by lia;
          exact Hout).
    assert (Hstep : forall f,
               searchEnds clock (MotorPins false false) (2 * DCMotor.ports cfg)
                 startTime 3000 this w0 f ->
               searchEnds clock (MotorPins false false) (2 * DCMotor.ports cfg)
                 startTime 3000 this w f).
    { intros f. destruct f as [r t w'|[[h' a'] sc'] w']; cbn.
      - intros (? & ? & ? & ? & ?). repeat split; auto. lia.
      - intros [? Hk]. split; [assumption|]. intros k Hr.
        destruct (Nat.eq_dec k (clockReads w)) as [->|].
        + unfold clockRunsOut. congruence.
        + apply Hk. lia. }
    destruct (negb a && aboveThreshold this _) eqn:Erise.
    + apply andb_prop in Erise as [_ Habove]. rewrite (Hnow Habove).
      destruct (IH fuel (hallSignalAt adc (adcReads w))
                  (if negb (aboveThreshold this (hallSignalAt adc (adcReads w)))
                   then false else true)
                  (wrap8 (sc + 1)) w0 Hno' Hout' ltac:(lia)) as (f & Hf & He).
      exists f. split; [exact Hf|]. apply Hstep, He.
    + destruct (IH fuel (hallSignalAt adc (adcReads w))
                  (if negb (aboveThreshold this (hallSignalAt adc (adcReads w)))
                   then false else a)
                  sc w0 Hno' Hout' ltac:(lia)) as (f & Hf & He).
      exists f. split; [exact Hf|]. apply Hstep, He.
Qed.
End SearchDC.

Section SearchCounts.
Variables (adc clock : nat -> Z).

Lemma searchCounted_step bound startTime timeout this a sc w a' sc' w0 f :
  let h1 := hallSignalAt adc (adcReads w) in
  adcReads w0 = (5 + adcReads w)%nat ->
  clockReads w0 = S (clockReads w) ->
  ~ clockRunsOut clock startTime timeout (clockReads w) ->
  a' = aboveThreshold this h1 ->
  (bound < 255 -> sc' = sc + (if negb a && aboveThreshold this h1 then 1 else 0)) ->
  sc <= bound ->
  searchCounted adc clock bound startTime timeout this a' sc' w0 f ->
  searchCounted adc clock bound startTime timeout this a sc w f.
Proof.
  intros h1 Ha0 Hc0 Hnow -> Hsc' Hle.
  destruct f as [r t w'|[[h' a''] sc''] w']; cbn [searchCounted];
    intros (m & Ha & Hc & Hk & He); exists (S m);
    (split; [lia|]); (split; [lia|]);
    (split; [intros k Hr; destruct (Nat.eq_dec k (clockReads w)) as [->|];
             [exact Hnow|apply Hk; lia]|]);
    intros Hb; specialize (He Hb); specialize (Hsc' Hb);
    rewrite readingsFrom_S; fold h1; cbn [risingEdges]; rewrite Ha0 in He.
  - lia.
  - destruct He as (He & Hone & Hm). split; [lia|]. split.
    + intros _. destruct (Z_le_gt_dec sc' bound) as [Hs|Hs]; [apply Hone, Hs|].
      destruct m as [|m];
        [cbn in He; destruct (negb a && aboveThreshold this h1); lia|].
      specialize (Hm 0%nat ltac:(lia)). cbn in Hm. lia.
    + intros [|m'] Hm'; [cbn; lia|].
      rewrite readingsFrom_S. fold h1. cbn [risingEdges].
      specialize (Hm m' ltac:(lia)). lia.
Qed.

Lemma DC_searchLoop_counts (cfg : DCMotor.config) this startTime majority fuel :
  forall hallSignal isAbove signalCounter w f,
    noMinoritySignal adc this majority w ->
    0 <= signalCounter ->
    DCMotor.searchLoop adc clock cfg fuel this startTime majority hallSignal isAbove
      signalCounter w = Done f ->
    searchCounted adc clock (2 * DCMotor.ports cfg) startTime 3000 this isAbove
      signalCounter w f.
Proof.
  induction fuel as [|fuel IH]; intros h a sc w f Hno Hsc H; [discriminate|].
  cbn [DCMotor.searchLoop millis] in H. rewrite readHallSensorSignal_at in H.
  destruct (Z.leb_spec sc (2 * DCMotor.ports cfg)) as [Hle|Hgt].
  2:{ injection H as <-. exists 0%nat. cbn.
      split; [reflexivity|]. split; [reflexivity|]. split; [intros k Hk; lia|].
      intros _. split; [lia|]. split; [lia|]. intros m' Hm'. lia. }
  destruct (isTimedOut _ _ _) eqn:Et.
  { injection H as <-. exists 0%nat. cbn.
    split; [reflexivity|]. split; [reflexivity|]. split; [intros k Hk; lia|]. lia. }
  cbn [adcReads clockReads trace] in H.
  set (h1 := hallSignalAt adc (adcReads w)) in *.
  set (w0 := World (5 + adcReads w) (S (clockReads w)) (trace w)) in *.
  assert (Hno' : noMinoritySignal adc this majority w0)
    by (eapply noMinoritySignal_next; [|exact Hno]; reflexivity).
  pose proof (noMinoritySignal_now _ _ _ _ Hno) as Hnow. fold h1 in Hnow.
  pose proof (wrap8_range (sc + 1)) as Hr.
  assert (Hclock : ~ clockRunsOut clock startTime 3000 (clockReads w))
    by (unfold clockRunsOut; congruence).
  destruct (negb a && aboveThreshold this h1) eqn:Erise.
  - apply andb_prop in Erise as [Hna Habove]. rewrite (Hnow Habove) in H.
    rewrite Habove in H. cbn [negb] in H.
    apply IH in H; [|exact Hno'|lia].
    eapply (searchCounted_step _ _ _ _ a sc w); [| | | | |exact Hle|exact H];
      try reflexivity; try assumption.
    + fold h1. symmetry. exact Habove.
    + intros Hb. fold h1. rewrite Hna, Habove. cbn [andb]. apply wrap8_small. lia.
  - apply IH in H; [|exact Hno'|exact Hsc].
    eapply (searchCounted_step _ _ _ _ a sc w); [| | | | |exact Hle|exact H];
      try reflexivity; try assumption.
    + fold h1. destruct (aboveThreshold this h1), a; try reflexivity; discriminate.
    + intros _. fold h1. rewrite Erise. lia.
Qed.

Lemma Stepper_searchLoop_counts (cfg : Stepper.config) this startTime majority fuel :
  forall hallSignal isAbove signalCounter w f,
    noMinoritySignal adc this majority w ->
    0 <= signalCounter ->
    Stepper.searchLoop adc clock cfg fuel this startTime majority hallSignal isAbove
      signalCounter w = Done f ->
    searchCounted adc clock (2 * Stepper.ports cfg) startTime Stepper.timeout this isAbove
      signalCounter w f.
Proof.
  induction fuel as [|fuel IH]; intros h a sc w f Hno Hsc H; [discriminate|].
  cbn [Stepper.searchLoop millis] in H. rewrite readHallSensorSignal_at in H.
  destruct (Z.leb_spec sc (2 * Stepper.ports cfg)) as [Hle|Hgt].
  2:{ injection H as <-. exists 0%nat. cbn.
      split; [reflexivity|]. split; [reflexivity|]. split; [intros k Hk; lia|].
      intros _. split; [lia|]. split; [lia|]. intros m' Hm'. lia. }
  destruct (isTimedOut _ _ _) eqn:Et.
  { injection H as <-. exists 0%nat. cbn.
    split; [reflexivity|]. split; [reflexivity|]. split; [intros k Hk; lia|]. lia. }
  cbn [adcReads clockReads trace] in H.
  set (h1 := hallSignalAt adc (adcReads w)) in *.
  pose proof (noMinoritySignal_now _ _ _ _ Hno) as Hnow. fold h1 in Hnow.
  pose proof (wrap8_range (sc + 1)) as Hr.
  assert (Hclock : ~ clockRunsOut clock startTime Stepper.timeout (clockReads w))
    by (unfold clockRunsOut; congruence).
  destruct (negb a && aboveThreshold this h1) eqn:Erise.
  - apply andb_prop in Erise as [Hna Habove]. rewrite (Hnow Habove) in H.
    rewrite Habove in H. cbn [negb] in H.
    apply IH in H; [|eapply noMinoritySignal_next; [|exact Hno]; reflexivity|lia].
    eapply (searchCounted_step _ _ _ _ a sc w); [| | | | |exact Hle|exact H];
      try reflexivity; try assumption.
    + fold h1. symmetry. exact Habove.
    + intros Hb. fold h1. rewrite Hna, Habove. cbn [andb]. apply wrap8_small. lia.
  - apply IH in H; [|eapply noMinoritySignal_next; [|exact Hno]; reflexivity|exact Hsc].
    eapply (searchCounted_step _ _ _ _ a sc w); [| | | | |exact Hle|exact H];
      try reflexivity; try assumption.
    + fold h1. destruct (aboveThreshold this h1), a; try reflexivity; discriminate.
    + intros _. fold h1. rewrite Erise. lia.
Qed.

(** With 128 ports or more the byte-sized counter never gets past
    [2 * ports]: a search without a minority signal can only give up. *)
Lemma DC_searchLoop_byte (cfg : DCMotor.config) this startTime majority fuel :
  forall hallSignal isAbove signalCounter w l w',
    noMinoritySignal adc this majority w ->
    signalCounter <= 255 -> 255 <= 2 * DCMotor.ports cfg ->
    DCMotor.searchLoop adc clock cfg fuel this startTime majority hallSignal isAbove
      signalCounter w <> Done (Next l w').
Proof.
  induction fuel as [|fuel IH]; intros h a sc w l w' Hno Hsc Hb H; [discriminate|].
  cbn [DCMotor.searchLoop millis] in H. rewrite readHallSensorSignal_at in H.
  destruct (Z.leb_spec sc (2 * DCMotor.ports cfg)) as [Hle|Hgt]; [|lia].
  destruct (isTimedOut _ _ _); [discriminate|].
  cbn [adcReads clockReads trace] in H.
  pose proof (noMinoritySignal_now _ _ _ _ Hno) as Hnow.
  pose proof (wrap8_range (sc + 1)) as Hr.
  destruct (negb a && aboveThreshold this _) eqn:Erise.
  - apply andb_prop in Erise as [Hna Habove]. rewrite (Hnow Habove) in H.
    revert H. apply IH; [|lia|lia].
    eapply noMinoritySignal_next; [|exact Hno]. reflexivity.
  - revert H. apply IH; [|lia|lia].
    eapply noMinoritySignal_next; [|exact Hno]. reflexivity.
Qed.

Lemma Stepper_searchLoop_byte (cfg : Stepper.config) this startTime majority fuel :
  forall hallSignal isAbove signalCounter w l w',
    noMinoritySignal adc this majority w ->
    signalCounter <= 255 -> 255 <= 2 * Stepper.ports cfg ->
    Stepper.searchLoop adc clock cfg fuel this startTime majority hallSignal isAbove
      signalCounter w <> Done (Next l w').
Proof.
  induction fuel as [|fuel IH]; intros h a sc w l w' Hno Hsc Hb H; [discriminate|].
  cbn [Stepper.searchLoop millis] in H. rewrite readHallSensorSignal_at in H.
  destruct (Z.leb_spec sc (2 * Stepper.ports cfg)) as [Hle|Hgt]; [|lia].
  destruct (isTimedOut _ _ _); [discriminate|].
  cbn [adcReads clockReads trace] in H.
  pose proof (noMinoritySignal_now _ _ _ _ Hno) as Hnow.
  pose proof (wrap8_range (sc + 1)) as Hr.
  destruct (negb a && aboveThreshold this _) eqn:Erise.
  - apply andb_prop in Erise as [Hna Habove]. rewrite (Hnow Habove) in H.
    revert H. apply IH; [|lia|lia].
    eapply noMinoritySignal_next; [|exact Hno]. reflexivity.
  - revert H. apply IH; [|lia|lia].
    eapply noMinoritySignal_next; [|exact Hno]. reflexivity.
Qed.
End SearchCounts.

Lemma Stepper_censusLoop_signalCounter (adc : nat -> Z) (cfg : Stepper.config) this n :
  forall l w,
    c_signalCounter (fst (Stepper.censusLoop adc cfg n this l w)) = c_signalCounter l.
Proof.
  induction n as [|n IH]; intros l w; [reflexivity|].
  cbn [Stepper.censusLoop]. rewrite readHallSensorSignal_at. rewrite IH.
  repeat match goal with
         | |- context [if ?c then _ else _] => destruct c
         end; reflexivity.
Qed.

Lemma Stepper_throughCensus_signalCounter (adc : nat -> Z) (cfg : Stepper.config) junk
    this w this1 l w1 :
  Stepper.throughCensus adc cfg junk this w = Done (Next (this1, l) w1) ->
  c_signalCounter l = 0.
Proof.
  unfold Stepper.throughCensus. cbn [readHallSensorSignal].
  destruct (Stepper.idleReads _ _ _) as [this0 w0].
  destruct (_ =? 0); [discriminate|].
  unfold Stepper.censusPhase.
  destruct (Stepper.sampleRotation _ _ _ _) as [sensorSignals w2].
  destruct (Stepper.calibrate _ _ _ _) as [this2| |]; try discriminate.
  cbn [mbind result_mbind bind]. rewrite readHallSensorSignal_at.
  match goal with
  | |- context [Stepper.censusLoop adc cfg ?n this2 ?l0 ?w3] =>
    pose proof (Stepper_censusLoop_signalCounter adc cfg this2 n l0 w3) as Hc;
    destruct (Stepper.censusLoop adc cfg n this2 l0 w3) as [l' w4]
  end.
  cbn [mbind result_mbind bind fst c_signalCounter] in *.
  intros [= _ <- _]. exact Hc.
Qed.

Lemma risingEdges_monotone adc this a k (m m' : nat) :
  (m <= m')%nat ->
  risingEdges this a (readingsFrom adc k m) <= risingEdges this a (readingsFrom adc k m').
Proof.
  intros Hm. replace m' with (m + (m' - m))%nat by lia.
  rewrite readingsFrom_app. apply risingEdges_prefix.
Qed.


(** C5, as stated, does not hold.  A DC-motor valve with ten ports passes
    the census; afterwards no signal of the minority polarity shows up any
    more.  The search counts 21 signals within 337 ms, far from the time
    budget of 3 s, and [initializeValve] ends with error code 2, not 3. *)
Lemma search_exhausted_counterexample :
  DCMotor.throughCensus (tentSensor 10 3 53) steadyClock DCMotor.defaultConfig 1000
    constructed powerOn
  = Done (Next (Valve 0 0 512 60, CensusLocals 572 true 20 18 2)
            (World 4180 320 [MotorPins false true; MotorPins false false;
                             MotorPins false true]))
  /\ DCMotor.locate (tentSensor 10 3 53) steadyClock DCMotor.defaultConfig 1000
       (Valve 0 0 512 60) (CensusLocals 572 true 20 18 2)
       (DCMotor.stopTurning
          (World 4180 320 [MotorPins false true; MotorPins false false;
                           MotorPins false true]))
     = Done (Next (Valve 0 0 512 60, 21)
               (World 5860 657 [MotorPins false true; MotorPins false false;
                                MotorPins false true; MotorPins false false;
                                MotorPins false true]))
  /\ DCMotor.initializeValve (tentSensor 10 3 53) steadyClock DCMotor.defaultConfig 1000
       constructed powerOn
     = Done (false, Valve 0 2 512 60,
             World 5860 657 [MotorPins false false; MotorPins false true;
                             MotorPins false false; MotorPins false true;
                             MotorPins false false; MotorPins false true]).
Proof. by_computation. Qed.

(** C5, amended.  The census is through and its check passed; the valve
    does not stand on a signal of the minority polarity, and from now on no
    reading that passes the threshold has that polarity; the clock runs out
    at the latest at the [n]-th call of [millis] of the search.  Then
    [initializeValve] returns [false] with the actuator halted, after a
    search of [m] readings before none of which the call of [millis] found
    the time budget used up, in one of two ways.  Either the next call of
    [millis] finds it used up: the error code is 3, and the counter has
    not passed [2 * ports] (with at most 127 ports, where the byte-sized
    counter cannot wrap: the [m] readings show at most [2 * ports] rising
    edges).  Or the loop is left because the counter has passed
    [2 * ports]: the [m] readings show [2 * ports + 1] rising edges and no
    shorter run of them shows more than [2 * ports]; the error code is
    then 2, not 3.  Which of the two it is can be read off the sensor and
    the clock (at most 127 ports): if the readings of the search come to
    show [2 * ports + 1] rising edges and none of the calls of [millis]
    before these readings has found the budget used up, the error code is
    2; if a call of [millis] finds the budget used up while the readings
    before it show at most [2 * ports] rising edges, the error code is
    3. *)
Theorem search_without_reversed_magnet
    (adc clock : nat -> Z) (scfg : Stepper.config) (dcfg : DCMotor.config) (junk : Z)
    (fuel n : nat) (this : valve) (w : world)
    (this1 : valve) (l : censusLocals) (w1 : world) :
  let pos := posPolarityCounter l in
  let neg := negPolarityCounter l in
  let majority := neg <? pos in
  let startTime := wrap32 (clock (clockReads w1)) in
  let edges (m : nat) :=
    risingEdges this1 (c_isAboveThreshold l) (readingsFrom adc (adcReads w1) m) in
  let ends (run : result outcome) (halt : event) (timeout ports : Z) :=
    (exists (w' : world) (m : nat),
        head (trace w') = Some halt
        /\ adcReads w' = (5 * m + adcReads w1)%nat
        /\ (forall k, (S (clockReads w1) <= k < S (clockReads w1) + m)%nat ->
                      ~ clockRunsOut clock startTime timeout k)
        /\ ((run = Done (false, set_errors 3 this1, w')
             /\ clockReads w' = (S (S (clockReads w1)) + m)%nat
             /\ clockRunsOut clock startTime timeout (pred (clockReads w'))
             /\ (2 * ports < 255 -> edges m <= 2 * ports))
            \/ (run = Done (false, set_errors 2 this1, w')
                /\ clockReads w' = (S (clockReads w1) + m)%nat
                /\ edges m = 2 * ports + 1
                /\ forall m', (m' < m)%nat -> edges m' <= 2 * ports)))
    /\ (2 * ports < 255 ->
        forall m0 : nat,
          edges m0 = 2 * ports + 1 ->
          (forall k, (S (clockReads w1) <= k < S (clockReads w1) + m0)%nat ->
                     ~ clockRunsOut clock startTime timeout k) ->
          exists w', run = Done (false, set_errors 2 this1, w'))
    /\ (2 * ports < 255 ->
        forall m0 : nat,
          edges m0 <= 2 * ports ->
          clockRunsOut clock startTime timeout (S (clockReads w1) + m0) ->
          exists w', run = Done (false, set_errors 3 this1, w')) in
  c_isAboveThreshold l
  && negb (eqb (hallSensorIdleSignal this1 <? c_hallSignal l) majority) = false ->
  noMinoritySignal adc this1 majority w1 ->
  (n < fuel)%nat ->
  (Stepper.throughCensus adc scfg junk this w = Done (Next (this1, l) w1) ->
   Z.abs (pos - neg) = Stepper.ports scfg - 2 ->
   clockRunsOut clock startTime Stepper.timeout (S (clockReads w1) + n) ->
   ends (Stepper.initializeValve adc clock scfg junk fuel this w)
     (SleepPin (negb (Stepper.enableIsHigh scfg))) Stepper.timeout (Stepper.ports scfg))
  /\ (DCMotor.throughCensus adc clock dcfg fuel this w = Done (Next (this1, l) w1) ->
      Z.abs (pos - neg) = 2 * (DCMotor.ports dcfg - 2) ->
      clockRunsOut clock startTime 3000 (S (clockReads w1) + n) ->
      ends (DCMotor.initializeValve adc clock dcfg fuel this w)
        (MotorPins false false) 3000 (DCMotor.ports dcfg)).
Proof.
  intros pos neg majority startTime edges ends Hstand Hno Hfuel.
  assert (Hmono : forall m m', (m <= m')%nat -> edges m <= edges m')
    by (intros m m'; apply risingEdges_monotone).
  assert (Hends : forall run halt timeout ports,
             (exists (w' : world) (m : nat),
                 head (trace w') = Some halt
                 /\ adcReads w' = (5 * m + adcReads w1)%nat
                 /\ (forall k, (S (clockReads w1) <= k < S (clockReads w1) + m)%nat ->
                               ~ clockRunsOut clock startTime timeout k)
                 /\ ((run = Done (false, set_errors 3 this1, w')
                      /\ clockReads w' = (S (S (clockReads w1)) + m)%nat
                      /\ clockRunsOut clock startTime timeout (pred (clockReads w'))
                      /\ (2 * ports < 255 -> edges m <= 2 * ports))
                     \/ (run = Done (false, set_errors 2 this1, w')
                         /\ clockReads w' = (S (clockReads w1) + m)%nat
                         /\ edges m = 2 * ports + 1
                         /\ forall m', (m' < m)%nat -> edges m' <= 2 * ports))) ->
             ends run halt timeout ports).
  { intros run halt timeout ports H. split; [exact H|].
    destruct H as (w' & m & _ & _ & Hk & [(Hrun & Hcl & Hlast & He)|(Hrun & Hcl & He & Hm)]).
    - split.
      + intros Hb m0 Hm0 Hquiet. exfalso.
        destruct (Nat.le_gt_cases m0 m) as [Hle|Hgt].
        * specialize (He Hb). specialize (Hmono m0 m Hle). lia.
        * apply (Hquiet (pred (clockReads w'))); [lia|exact Hlast].
      + intros _ m0 _ _. exists w'. exact Hrun.
    - split.
      + intros _ m0 _ _. exists w'. exact Hrun.
      + intros Hb m0 Hm0 Hout. exfalso.
        destruct (Nat.le_gt_cases m m0) as [Hle|Hgt].
        * specialize (Hmono m m0 Hle). lia.
        * apply (Hk (S (clockReads w1) + m0)%nat); [lia|exact Hout]. }
  split; intros Hc Hcheck Hout; apply Hends.
  - assert (Hports : 0 <= 2 * Stepper.ports scfg) by lia.
    pose proof (Stepper_throughCensus_signalCounter _ _ _ _ _ _ _ _ Hc) as Hzero.
    unfold Stepper.initializeValve. rewrite Hc. cbn [andThen].
    unfold Stepper.afterCensus, Stepper.locate. fold pos neg majority.
    apply Z.eqb_eq in Hcheck. rewrite Hcheck. cbn [negb millis]. fold startTime.
    rewrite Hstand, Hzero.
    set (w2 := World (adcReads w1) (S (clockReads w1)) (trace w1)).
    assert (Hno2 : noMinoritySignal adc this1 majority w2) by exact Hno.
    destruct (Stepper_searchLoop_no_minority adc clock scfg this1 startTime majority n fuel
                (c_hallSignal l) (c_isAboveThreshold l) 0 w2)
      as (f & Hf & He); [exact Hno2|exact Hout|exact Hfuel|].
    pose proof (Stepper_searchLoop_counts adc clock scfg this1 startTime majority fuel
                  _ _ _ _ _ Hno2 (Z.le_refl 0) Hf) as Hn.
    rewrite Hf. cbn [mbind result_mbind bind].
    destruct f as [r t w'|[[h a] sc] w'];
      cbn [searchEnds searchCounted clockReads adcReads w2] in He, Hn;
      destruct Hn as (m & Ha & Hcl & Hk & Hn).
    + destruct He as (-> & -> & Hh & _ & Hlast). cbn [andThen].
      exists w', m. split; [exact Hh|]. split; [exact Ha|]. split.
      { intros k Hr. apply Hk. lia. }
      left. split; [reflexivity|]. split; [lia|]. split; [exact Hlast|].
      intros Hb. specialize (Hn Hb). fold (edges m) in Hn. lia.
    + destruct He as [Hsc _]. cbn [andThen].
      destruct (Z.leb_spec (2 * Stepper.ports scfg) sc); [|lia].
      assert (Hb : 2 * Stepper.ports scfg < 255).
      { destruct (Z_lt_le_dec (2 * Stepper.ports scfg) 255) as [|Hbig]; [assumption|].
        exfalso. revert Hf. apply Stepper_searchLoop_byte; [exact Hno2|lia|lia]. }
      destruct (Hn Hb) as (Hs & Hone & Hm). fold (edges m) in Hs.
      exists (emit (SleepPin (negb (Stepper.enableIsHigh scfg))) w'), m.
      split; [reflexivity|]. split; [exact Ha|]. split.
      { intros k Hr. apply Hk. lia. }
      right. split; [reflexivity|]. split; [cbn; lia|]. split; [lia|].
      intros m' Hm'. specialize (Hm m' Hm'). fold (edges m') in Hm. lia.
  - assert (Hports : 0 <= 2 * DCMotor.ports dcfg) by lia.
    unfold DCMotor.initializeValve. rewrite Hc. cbn [andThen].
    unfold DCMotor.afterCensus, DCMotor.locate.
    fold pos neg majority.
    apply Z.eqb_eq in Hcheck. rewrite Hcheck. cbn [negb millis]. cbv zeta.
    cbn [DCMotor.stopTurning emit clockReads adcReads trace]. fold startTime.
    rewrite Hstand.
    match goal with
    | |- context [DCMotor.searchLoop adc clock dcfg fuel this1 startTime majority
                    ?h ?a ?sc ?w2] =>
      assert (Ha2 : adcReads w2 = adcReads w1)
        by (unfold DCMotor.startTurning; destruct (_ || _); reflexivity);
      assert (Hc2 : clockReads w2 = S (clockReads w1))
        by (unfold DCMotor.startTurning; destruct (_ || _); reflexivity);
      assert (Hno2 : noMinoritySignal adc this1 majority w2)
        by (apply (noMinoritySignal_later adc this1 majority w1 _ 0); [rewrite Ha2; reflexivity|exact Hno]);
      destruct (DC_searchLoop_no_minority adc clock dcfg this1 startTime majority n fuel
                  h a sc w2) as (f & Hf & He);
        [exact Hno2|rewrite Hc2; exact Hout|exact Hfuel|];
      pose proof (DC_searchLoop_counts adc clock dcfg this1 startTime majority fuel
                    _ _ _ _ _ Hno2 (Z.le_refl 0) Hf) as Hn
    end.
    rewrite Hf. cbn [mbind result_mbind bind].
    destruct f as [r t w'|[[h a] sc] w'];
      cbn [searchEnds searchCounted] in He, Hn; rewrite Ha2, Hc2 in Hn;
      destruct Hn as (m & Ha & Hcl & Hk & Hn).
    + destruct He as (-> & -> & Hh & _ & Hlast). cbn [andThen].
      exists w', m. split; [exact Hh|]. split; [exact Ha|]. split.
      { intros k Hr. apply Hk. lia. }
      left. split; [reflexivity|]. split; [lia|]. split; [exact Hlast|].
      intros Hb. specialize (Hn Hb). fold (edges m) in Hn. lia.
    + destruct He as [Hsc _]. cbn [andThen].
      destruct (Z.leb_spec (2 * DCMotor.ports dcfg) sc); [|lia].
      assert (Hb : 2 * DCMotor.ports dcfg < 255).
      { destruct (Z_lt_le_dec (2 * DCMotor.ports dcfg) 255) as [|Hbig]; [assumption|].
        exfalso. revert Hf. apply DC_searchLoop_byte; [exact Hno2|lia|lia]. }
      destruct (Hn Hb) as (Hs & Hone & Hm). fold (edges m) in Hs.
      exists (DCMotor.stopTurning w'), m.
      split; [reflexivity|]. split; [exact Ha|]. split.
      { intros k Hr. apply Hk. lia. }
      right. split; [reflexivity|]. split; [cbn; lia|]. split; [lia|].
      intros m' Hm'. specialize (Hm m' Hm'). fold (edges m') in Hm. lia.
Qed.

(** Beyond the end of a list of readings the bench shows the idle level. *)
Lemma adcOfReadings_flat (r : list Z) (k : nat) :
  (5 * length r <= k)%nat -> hallSignalAt (adcOfReadings r) k = 512.
Proof.
  intros Hk. unfold hallSignalAt, readHallSensorSignal, adcOfReadings. cbn [fst adcReads].
  rewrite !nth_overflow by (apply Nat.div_le_lower_bound; lia). reflexivity.
Qed.

(** A way to establish [noMinoritySignal] on a bench: a table of the first
    [bound] readings, and nothing above the threshold afterwards. *)
Lemma noMinoritySignal_by_table adc this majority (k0 bound c : nat) (t : list event) :
  forallb
    (fun j =>
       implb (aboveThreshold this (hallSignalAt adc (k0 + 5 * j)))
         (eqb (hallSensorIdleSignal this <? hallSignalAt adc (k0 + 5 * j)) majority))
    (seq 0 bound) = true ->
  (forall j, (bound <= j)%nat ->
             aboveThreshold this (hallSignalAt adc (k0 + 5 * j)) = false) ->
  noMinoritySignal adc this majority (World k0 c t).
Proof.
  intros Htable Hflat j. cbv zeta. cbn [adcReads]. intros Ha.
  destruct (Nat.lt_ge_cases j bound) as [Hj|Hj].
  - rewrite forallb_forall in Htable.
    specialize (Htable j ltac:(apply in_seq; lia)). cbv beta in Htable.
    rewrite Ha in Htable. apply eqb_prop. exact Htable.
  - rewrite (Hflat j Hj) in Ha. discriminate.
Qed.

Lemma search_without_reversed_magnet_witness :
  (exists (w' : world) (m : nat),
      head (trace w') = Some (SleepPin false)
      /\ adcReads w' = (5 * m + 695)%nat
      /\ (forall k, (1 <= k < 1 + m)%nat -> ~ clockRunsOut slowClock 0 2000 k)
      /\ ((Stepper.initializeValve (adcOfReadings sixPortCensusReadings) slowClock
             Stepper.defaultConfig 0 300 constructed powerOn
           = Done (false, Valve 0 3 512 55, w')
           /\ clockReads w' = (2 + m)%nat
           /\ clockRunsOut slowClock 0 2000 (pred (clockReads w'))
           /\ (2 * 6 < 255 ->
               risingEdges (Valve 0 0 512 55) false
                 (readingsFrom (adcOfReadings sixPortCensusReadings) 695 m) <= 2 * 6))
          \/ (Stepper.initializeValve (adcOfReadings sixPortCensusReadings) slowClock
                Stepper.defaultConfig 0 300 constructed powerOn
              = Done (false, Valve 0 2 512 55, w')
              /\ clockReads w' = (1 + m)%nat
              /\ risingEdges (Valve 0 0 512 55) false
                   (readingsFrom (adcOfReadings sixPortCensusReadings) 695 m) = 2 * 6 + 1
              /\ forall m', (m' < m)%nat ->
                   risingEdges (Valve 0 0 512 55) false
                     (readingsFrom (adcOfReadings sixPortCensusReadings) 695 m') <= 2 * 6)))
  /\ (exists (w' : world) (m : nat),
         head (trace w') = Some (MotorPins false false)
         /\ adcReads w' = (5 * m + 4180)%nat
         /\ (forall k, (321 <= k < 321 + m)%nat -> ~ clockRunsOut steadyClock 320 3000 k)
         /\ ((DCMotor.initializeValve (adcOfReadings tenPortLostMagnetReadings) steadyClock
                DCMotor.defaultConfig 3001 constructed powerOn
              = Done (false, Valve 0 3 512 60, w')
              /\ clockReads w' = (322 + m)%nat
              /\ clockRunsOut steadyClock 320 3000 (pred (clockReads w'))
              /\ (2 * 10 < 255 ->
                  risingEdges (Valve 0 0 512 60) true
                    (readingsFrom (adcOfReadings tenPortLostMagnetReadings) 4180 m)
                  <= 2 * 10))
             \/ (DCMotor.initializeValve (adcOfReadings tenPortLostMagnetReadings)
                   steadyClock DCMotor.defaultConfig 3001 constructed powerOn
                 = Done (false, Valve 0 2 512 60, w')
                 /\ clockReads w' = (321 + m)%nat
                 /\ risingEdges (Valve 0 0 512 60) true
                      (readingsFrom (adcOfReadings tenPortLostMagnetReadings) 4180 m)
                    = 2 * 10 + 1
                 /\ forall m', (m' < m)%nat ->
                      risingEdges (Valve 0 0 512 60) true
                        (readingsFrom (adcOfReadings tenPortLostMagnetReadings) 4180 m')
                      <= 2 * 10))).
Proof.
  split.
  - assert (Hno : noMinoritySignal (adcOfReadings sixPortCensusReadings)
                    (Valve 0 0 512 55) (1 <? 5)
                    (World 695 0 (replicate 134 (Steps 3) ++ [SleepPin true]))).
    { apply (noMinoritySignal_by_table _ _ _ 695 0); [reflexivity|].
      intros j _. rewrite adcOfReadings_flat; [reflexivity|].
      change (length sixPortCensusReadings) with 139%nat. lia. }
    refine (proj1 (proj1 (search_without_reversed_magnet
                            (adcOfReadings sixPortCensusReadings) slowClock
                            Stepper.defaultConfig DCMotor.defaultConfig 0 300 200
                            constructed powerOn
                            (Valve 0 0 512 55) (CensusLocals 512 false 0 5 1)
                            (World 695 0 (replicate 134 (Steps 3) ++ [SleepPin true]))
                            eq_refl Hno ltac:(lia)) _ _ _));
      vm_compute; reflexivity.
  - assert (Hno : noMinoritySignal (adcOfReadings tenPortLostMagnetReadings)
                    (Valve 0 0 512 60) (2 <? 18)
                    (World 4180 320 [MotorPins false true; MotorPins false false;
                                     MotorPins false true])).
    { apply (noMinoritySignal_by_table _ _ _ 4180 464); [vm_compute; reflexivity|].
      intros j Hj. rewrite adcOfReadings_flat; [reflexivity|].
      unfold tenPortLostMagnetReadings. rewrite length_fmap, length_seq. lia. }
    refine (proj1 (proj2 (search_without_reversed_magnet
                            (adcOfReadings tenPortLostMagnetReadings) steadyClock
                            Stepper.defaultConfig DCMotor.defaultConfig 0 3001 3000
                            constructed powerOn
                            (Valve 0 0 512 60) (CensusLocals 572 true 20 18 2)
                            (World 4180 320 [MotorPins false true; MotorPins false false;
                                             MotorPins false true])
                            eq_refl Hno ltac:(lia)) _ _ _));
      vm_compute; reflexivity.
Defined.

(** ** The end of [initializeValve] *)

(** C9.  When the census check has passed, the reversed magnet has been
    found with the counter below [2 * ports] (and, on the stepper, its peak
    has been climbed), [initializeValve] sets the position to the reference
    port and calls [gotoPosition(0)].  Whatever that call returns,
    [initializeValve] returns [true] with error code 0; if the call ended
    with error code 3, the position is still the reference port. *)
Theorem initializeValve_success_hides_gotoPosition_failure
    (adc clock : nat -> Z) (scfg : Stepper.config) (dcfg : DCMotor.config) (junk : Z)
    (fuel : nat) (this : valve) (w : world)
    (this1 : valve) (l : censusLocals) (w1 : world)
    (this2 : valve) (signalCounter : Z) (w2 : world)
    (ret : bool) (this3 : valve) (w3 : world) :
  let pos := posPolarityCounter l in
  let neg := negPolarityCounter l in
  (forall (hallSignal startTime : Z) (w2' : world),
      Stepper.throughCensus adc scfg junk this w = Done (Next (this1, l) w1) ->
      Z.abs (pos - neg) = Stepper.ports scfg - 2 ->
      Stepper.locate adc clock scfg fuel this1 l w1
      = Done (Next (this2, hallSignal, signalCounter, startTime) w2) ->
      signalCounter < 2 * Stepper.ports scfg ->
      Stepper.homingLoop adc clock scfg fuel this2 startTime hallSignal hallSignal w2
      = Done (Next tt w2') ->
      Stepper.gotoPosition adc clock scfg fuel 0
        (set_currentPos (Stepper.reversedPolarityPos scfg) this2)
        (emit (SleepPin (negb (Stepper.enableIsHigh scfg)))
           (Stepper.takeSteps scfg (-1) 1 w2'))
      = Done (ret, this3, w3) ->
      Stepper.initializeValve adc clock scfg junk fuel this w
      = Done (true, set_errors 0 this3, w3)
      /\ errors (set_errors 0 this3) = 0
      /\ (errors this3 = 3 ->
          currentPos (set_errors 0 this3) = Stepper.reversedPolarityPos scfg))
  /\ (DCMotor.throughCensus adc clock dcfg fuel this w = Done (Next (this1, l) w1) ->
      Z.abs (pos - neg) = 2 * (DCMotor.ports dcfg - 2) ->
      DCMotor.locate adc clock dcfg fuel this1 l (DCMotor.stopTurning w1)
      = Done (Next (this2, signalCounter) w2) ->
      signalCounter < 2 * DCMotor.ports dcfg ->
      DCMotor.gotoPosition adc clock dcfg fuel 0
        (set_currentPos (DCMotor.reversedPolarityPos dcfg) this2) (DCMotor.stopTurning w2)
      = Done (ret, this3, w3) ->
      DCMotor.initializeValve adc clock dcfg fuel this w
      = Done (true, set_errors 0 this3, w3)
      /\ errors (set_errors 0 this3) = 0
      /\ (errors this3 = 3 ->
          currentPos (set_errors 0 this3) = DCMotor.reversedPolarityPos dcfg)).
Proof.
  intros pos neg. split.
  - intros h st w2' Hc Hcheck Hl Hsc Hh Hg.
    unfold Stepper.initializeValve. rewrite Hc. cbn [andThen].
    unfold Stepper.afterCensus. fold pos neg.
    apply Z.eqb_eq in Hcheck. rewrite Hcheck. cbn [negb]. rewrite Hl. cbn [andThen].
    destruct (Z.leb_spec (2 * Stepper.ports scfg) signalCounter); [lia|].
    rewrite Hh. cbn [andThen]. unfold Stepper.finalize. rewrite Hg.
    split; [reflexivity|]. split; [reflexivity|].
    apply Stepper_gotoPosition_outcomes in Hg as (_ & _ & [[_ ->]| ->]); cbn; [lia|auto].
  - intros Hc Hcheck Hl Hsc Hg.
    unfold DCMotor.initializeValve. rewrite Hc. cbn [andThen].
    unfold DCMotor.afterCensus. fold pos neg.
    apply Z.eqb_eq in Hcheck. rewrite Hcheck. cbn [negb]. cbv zeta.
    rewrite Hl. cbn [andThen].
    destruct (Z.leb_spec (2 * DCMotor.ports dcfg) signalCounter); [lia|].
    unfold DCMotor.finalize. rewrite Hg.
    split; [reflexivity|]. split; [reflexivity|].
    apply DC_gotoPosition_outcomes in Hg as (_ & _ & [[_ ->]|[_ ->]]); cbn; [lia|auto].
Qed.

Lemma initializeValve_success_hides_gotoPosition_failure_witness :
  (exists w',
      Stepper.initializeValve (adcOfReadings sixPortReadings) (jumpingClock 44)
        Stepper.defaultConfig 0 100 constructed powerOn
      = Done (true, Valve 3 0 512 55, w'))
  /\ DCMotor.initializeValve (tentSensor 10 3 1000) (jumpingClock 400)
       DCMotor.defaultConfig 1000 constructed powerOn
     = Done (true, Valve 5 0 512 60,
             World 4570 401
               [MotorPins false false; MotorPins false true;
                MotorPins false false; MotorPins false true;
                MotorPins false false; MotorPins false true;
                MotorPins false false; MotorPins false true]).
Proof.
  split.
  - pose (adc := adcOfReadings sixPortReadings).
    pose (clock := jumpingClock 44).
    pose (cfg := Stepper.defaultConfig).
    let census := eval vm_compute in (Stepper.throughCensus adc cfg 0 constructed powerOn) in
    match census with
    | Done (Next (?t1, ?l) ?w1) =>
      let found := eval vm_compute in (Stepper.locate adc clock cfg 100 t1 l w1) in
      match found with
      | Done (Next (?t2, ?h, ?sc, ?st) ?w2) =>
        let climbed := eval vm_compute in (Stepper.homingLoop adc clock cfg 100 t2 st h h w2) in
        match climbed with
        | Done (Next tt ?w2') =>
          let gone :=
            eval vm_compute in
              (Stepper.gotoPosition adc clock cfg 100 0
                 (set_currentPos (Stepper.reversedPolarityPos cfg) t2)
                 (emit (SleepPin (negb (Stepper.enableIsHigh cfg)))
                    (Stepper.takeSteps cfg (-1) 1 w2'))) in
          match gone with
          | Done (?r, ?t3, ?w3) =>
            exists w3;
            refine (proj1 (proj1 (initializeValve_success_hides_gotoPosition_failure
                                    adc clock cfg DCMotor.defaultConfig 0 100
                                    constructed powerOn t1 l w1 t2 sc w2 r t3 w3)
                             h st w2' _ _ _ _ _ _));
            vm_compute; first [reflexivity | discriminate]
          end
        end
      end
    end.
  - refine (proj1 (proj2 (initializeValve_success_hides_gotoPosition_failure
                      (tentSensor 10 3 1000) (jumpingClock 400)
                      Stepper.defaultConfig DCMotor.defaultConfig
                      0 1000 constructed powerOn
                      (Valve 0 0 512 60) (CensusLocals 572 true 20 18 2)
                      (World 4180 320 [MotorPins false true; MotorPins false false;
                                       MotorPins false true])
                      (Valve 0 0 512 60) 1
                      (World 4260 337 [MotorPins false true; MotorPins false false;
                                       MotorPins false true; MotorPins false false;
                                       MotorPins false true])
                      false (Valve 5 3 512 60)
                      (World 4570 401
                         [MotorPins false false; MotorPins false true;
                          MotorPins false false; MotorPins false true;
                          MotorPins false false; MotorPins false true;
                          MotorPins false false; MotorPins false true]))
                    _ _ _ _ _));
      vm_compute; first [reflexivity | discriminate].
Defined.

(** ** The six-port example, end to end *)

(** On the synthetic trace of a six-port valve (idle level 512, five magnets
    at +150, the reference magnet at -150) the stepper variant calibrates
    to idle signal 512 and threshold 55 and ends at position 0 without
    error. *)
Example sixPort_calibration :
  exists w',
    Stepper.initializeValve (adcOfReadings sixPortReadings) steadyClock
      Stepper.defaultConfig 0 100 constructed powerOn
    = Done (true, Valve 0 0 512 55, w')
    /\ head (trace w') = Some (SleepPin false).
Proof. eexists. split; vm_compute; reflexivity. Qed.

(** From position 0 to position 4 of that valve the forward distance is 4
    and the backward distance 2: the second branch is taken, with two
    signals to travel. *)
Example sixPort_goto_4 : chooseDirection 6 0 4 = (false, 2).
Proof. reflexivity. Qed.


(** * Further properties

    What the code shows beyond the statements above: edge cases of the
    helper functions, what an arrival and a calibration amount to, that no
    call hangs, and the moves of the hotplate clamp. *)

(** ** The helper functions and the sensor *)

(** X1.  For a positive modulus [mod] returns the representative of [x] in
    [0, y): the result is in range, differs from [x] by a multiple of [y],
    does not change when a multiple of [y] is added to [x] (negative [x]
    included), and is [x] itself when [x] is already in range. *)
Theorem mod__range_and_period (x y k : Z) :
  0 < y ->
  0 <= mod_ x y < y
  /\ (y | mod_ x y - x)
  /\ mod_ (x + k * y) y = mod_ x y
  /\ (0 <= x < y -> mod_ x y = x).
Proof.
  intros Hy. rewrite !mod__is_modulo by assumption.
  split; [apply Z.mod_pos_bound; assumption|]. split; [|split].
  - exists (- (x / y)). pose proof (Z.div_mod x y ltac:(lia)). lia.
  - apply Z_mod_plus_full.
  - intros Hx. apply Z.mod_small; assumption.
Qed.

Lemma mod__range_and_period_witness :
  0 <= mod_ (-1) 4 < 4
  /\ (4 | mod_ (-1) 4 - -1)
  /\ mod_ (-1 + 3 * 4) 4 = mod_ (-1) 4
  /\ (0 <= -1 < 4 -> mod_ (-1) 4 = -1).
Proof. apply (mod__range_and_period (-1) 4 3); lia. Defined.

(** X2.  [isTimedOut] converts its [int] timeout to [unsigned long].  No
    time elapsed is never a timeout, whatever the timeout; and a negative
    timeout (a 16-bit [int]) becomes a value just below 2^32, so that the
    function answers [false] for every elapsed time up to
    2^32 - 32769 ms: such a loop is not bounded by the clock. *)
Theorem isTimedOut_negative_timeout (startTime elapsed timeout : Z) :
  -32768 <= timeout < 0 ->
  0 <= elapsed <= 2 ^ 32 - 32769 ->
  isTimedOut (wrap32 (startTime + elapsed)) startTime timeout = false
  /\ (forall t, isTimedOut startTime startTime t = false).
Proof.
  intros Ht He. unfold isTimedOut, wrap32. split.
  - rewrite Zminus_mod_idemp_l.
    replace (startTime + elapsed - startTime) with elapsed by lia.
    rewrite (Z.mod_small elapsed) by lia.
    replace (timeout mod 2 ^ 32) with (timeout + 2 ^ 32).
    + apply Z.ltb_ge. lia.
    + apply Z.mod_unique with (q := -1); lia.
  - intros t. rewrite Z.sub_diag. apply Z.ltb_ge.
    apply Z.mod_pos_bound. lia.
Qed.

Lemma isTimedOut_negative_timeout_witness :
  isTimedOut (wrap32 (4294967000 + 3600000)) 4294967000 (-25536) = false
  /\ (forall t, isTimedOut 4294967000 4294967000 t = false).
Proof. apply (isTimedOut_negative_timeout 4294967000 3600000 (-25536)); lia. Defined.

(** X3.  [readHallSensorSignal] discards one conversion and returns the
    mean of the next four, truncated towards zero as the [int] division
    does: four times the reading is at most 3 short of their sum when the
    sum is not negative.  If the four conversions lie in [lo, hi], so does
    the reading (in particular four equal conversions are returned
    unchanged).  The call uses five conversions and touches neither the
    clock nor the actuator. *)
Theorem readHallSensorSignal_mean_of_four (adc : nat -> Z) (w : world) (lo hi : Z) :
  let k := adcReads w in
  let sum := adc (1 + k)%nat + adc (2 + k)%nat + adc (3 + k)%nat + adc (4 + k)%nat in
  let reading := fst (readHallSensorSignal adc w) in
  (forall i, (1 <= i <= 4)%nat -> lo <= adc (i + k)%nat <= hi) ->
  reading = Z.quot sum 4
  /\ (0 <= sum -> 4 * reading <= sum < 4 * reading + 4)
  /\ (sum <= 0 -> sum <= 4 * reading < sum + 4)
  /\ lo <= reading <= hi
  /\ snd (readHallSensorSignal adc w)
     = World (5 + adcReads w) (clockReads w) (trace w).
Proof.
  intros k sum reading H.
  assert (Hr : reading = Z.quot sum 4) by reflexivity.
  assert (Hs : lo * 4 <= sum <= hi * 4).
  { pose proof (H 1%nat ltac:(lia)). pose proof (H 2%nat ltac:(lia)).
    pose proof (H 3%nat ltac:(lia)). pose proof (H 4%nat ltac:(lia)).
    subst sum. lia. }
  clearbody reading sum. subst reading. split; [reflexivity|].
  pose proof (Z.quot_rem' sum 4) as Hq.
  split; [intros Hp; pose proof (Z.rem_bound_pos sum 4 Hp eq_refl); lia|].
  split; [intros Hn; pose proof (Z.rem_bound_pos_neg sum 4 eq_refl Hn); lia|].
  split; [|reflexivity].
  rewrite <- (Z.quot_mul lo 4), <- (Z.quot_mul hi 4) by lia.
  split; apply Z.quot_le_mono; lia.
Qed.

Lemma readHallSensorSignal_mean_of_four_witness :
  fst (readHallSensorSignal (adcOfReadings sixPortRotation) (World 25 0 []))
  = Z.quot (adcOfReadings sixPortRotation 26 + adcOfReadings sixPortRotation 27
            + adcOfReadings sixPortRotation 28 + adcOfReadings sixPortRotation 29) 4
  /\ 662 <= fst (readHallSensorSignal (adcOfReadings sixPortRotation) (World 25 0 [])) <= 662
  /\ snd (readHallSensorSignal (adcOfReadings sixPortRotation) (World 25 0 []))
     = World (5 + 25) 0 [].
Proof.
  destruct (readHallSensorSignal_mean_of_four (adcOfReadings sixPortRotation)
              (World 25 0 []) 662 662) as (Hmean & _ & _ & Hrange & Hboard).
  - intros i Hi. cbn [adcReads].
    assert (Hc : i = 1%nat \/ i = 2%nat \/ i = 3%nat \/ i = 4%nat) by lia.
    destruct Hc as [->|[->|[->| ->]]]; split; apply Z.leb_le; vm_compute; reflexivity.
  - split; [exact Hmean|]. split; [exact Hrange|exact Hboard].
Defined.

(** ** Direction and target of [gotoPosition] *)

(** X4.  There and back again.  For two different ports [a] and [b] of a
    valve with at least two ports, the way from [a] to [b] and the way back
    from [b] to [a] each take between 1 and [(N + 1) / 2] signals.  Either
    the way back takes the other branch with the same number of signals,
    or both ways take the second branch and their signals add up to [N]
    (a full turn in one direction): this happens at a tie and, for an odd
    number of ports, for the two distances next to [N / 2].  In both cases
    the valve is back where it started. *)
Theorem chooseDirection_round_trip (N a b : Z) :
  2 <= N -> 0 <= a < N -> 0 <= b < N -> a <> b ->
  let there := chooseDirection N a b in
  let back := chooseDirection N b a in
  1 <= snd there <= (N + 1) / 2
  /\ 1 <= snd back <= (N + 1) / 2
  /\ ((fst there = negb (fst back) /\ snd there = snd back)
      \/ (fst there = false /\ fst back = false /\ snd there + snd back = N)).
Proof.
  intros HN Ha Hb Hab there back. subst there back. unfold chooseDirection.
  rewrite !mod__is_modulo by lia.
  assert (Hq : Z.quot N 2 = N / 2) by (apply Z.quot_div_nonneg; lia).
  rewrite Hq.
  pose proof (Z.div_mod N 2 ltac:(lia)) as Hd.
  pose proof (Z.mod_pos_bound N 2 ltac:(lia)) as Hr.
  pose proof (Z.div_mod (N + 1) 2 ltac:(lia)) as Hd'.
  pose proof (Z.mod_pos_bound (N + 1) 2 ltac:(lia)) as Hr'.
  assert (Hf : (a < b /\ (b - a) mod N = b - a /\ (a - b) mod N = a - b + N)
               \/ (b < a /\ (b - a) mod N = b - a + N /\ (a - b) mod N = a - b)).
  { destruct (Z.lt_total a b) as [Hlt|[Heq|Hgt]]; [left|lia|right];
      (split; [assumption|split]).
    - apply Z.mod_small; lia.
    - symmetry. apply Z.mod_unique with (q := -1); lia.
    - symmetry. apply Z.mod_unique with (q := -1); lia.
    - apply Z.mod_small; lia. }
  destruct Hf as [(Hlt & -> & ->)|(Hgt & -> & ->)];
    repeat match goal with
           | |- context [if ?x <? ?y then _ else _] => destruct (Z.ltb_spec x y)
           end; cbn [fst snd negb]; lia.
Qed.

Lemma chooseDirection_round_trip_witness :
  let there := chooseDirection 7 1 4 in
  let back := chooseDirection 7 4 1 in
  1 <= snd there <= (7 + 1) / 2
  /\ 1 <= snd back <= (7 + 1) / 2
  /\ ((fst there = negb (fst back) /\ snd there = snd back)
      \/ (fst there = false /\ fst back = false /\ snd there + snd back = 7)).
Proof. apply (chooseDirection_round_trip 7 1 4); lia. Defined.



Lemma chooseDirection_period (N c t : Z) :
  0 < N -> chooseDirection N c (t + N) = chooseDirection N c t.
Proof.
  intros HN. unfold chooseDirection. rewrite !mod__is_modulo by assumption.
  replace (t + N - c) with (t - c + 1 * N) by lia. rewrite Z_mod_plus_full. reflexivity.
Qed.

(** X5.  [gotoPosition] does not check its target against the number of
    ports.  Asked for [target + ports] (a value that still fits the [byte]
    parameter), either valve moves exactly as for [target] (same readings,
    same steps, same result), but where it records the new position it
    records [target + ports], which is not the number of a port. *)
Theorem gotoPosition_target_not_reduced
    (adc clock : nat -> Z) (scfg : Stepper.config) (dcfg : DCMotor.config)
    (fuel : nat) (target : Z) (this : valve) (w : world) :
  0 < Stepper.ports scfg -> 0 < DCMotor.ports dcfg ->
  0 <= target -> target + Stepper.ports scfg <= 255 -> target + DCMotor.ports dcfg <= 255 ->
  Stepper.gotoPosition adc clock scfg fuel (target + Stepper.ports scfg) this w
  = match Stepper.gotoPosition adc clock scfg fuel target this w with
    | Done (ret, this', w') =>
      Done (ret,
            if errors this' =? 0
            then set_currentPos (target + Stepper.ports scfg) this' else this',
            w')
    | r => r
    end
  /\ DCMotor.gotoPosition adc clock dcfg fuel (target + DCMotor.ports dcfg) this w
     = match DCMotor.gotoPosition adc clock dcfg fuel target this w with
       | Done (ret, this', w') =>
         Done (ret,
               if ret then set_currentPos (target + DCMotor.ports dcfg) this' else this',
               w')
       | r => r
       end.
Proof.
  intros Hs Hd _ _ _. split.
  - unfold Stepper.gotoPosition. cbn [millis].
    rewrite chooseDirection_period by assumption.
    destruct (chooseDirection _ _ _) as [first signalSteps].
    destruct (Stepper.coarseLoop _ _ _ _ _ _ _ _ _ _) as [f| |] eqn:E; try reflexivity.
    apply Stepper_coarseLoop_gaveUp in E.
    destruct f as [r t w1|l w1]; cbn [andThen gaveUp] in *.
    { destruct E as (_ & -> & _). reflexivity. }
    destruct (Stepper.fineLoop _ _ _ _ _ _ _ _ _ _) as [f| |] eqn:E'; try reflexivity.
    apply Stepper_fineLoop_gaveUp in E'.
    destruct f as [r t w2|[] w2]; cbn [andThen gaveUp] in *.
    + destruct E' as (_ & -> & _). reflexivity.
    + reflexivity.
  - unfold DCMotor.gotoPosition. cbn [millis].
    rewrite chooseDirection_period by assumption.
    destruct (chooseDirection _ _ _) as [first signalSteps].
    destruct (DCMotor.travelLoop _ _ _ _ _ _ _ _ _ _) as [f| |] eqn:E; try reflexivity.
    apply DC_travelLoop_gaveUp in E.
    destruct f as [r t w1|[] w1]; cbn [andThen gaveUp] in *.
    + destruct E as (-> & _). reflexivity.
    + reflexivity.
Qed.

Lemma gotoPosition_target_not_reduced_witness :
  Stepper.gotoPosition flatSensor (jumpingClock 1) Stepper.defaultConfig 5
    (2 + Stepper.ports Stepper.defaultConfig) (calibratedAt 0) powerOn
  = match Stepper.gotoPosition flatSensor (jumpingClock 1) Stepper.defaultConfig 5 2
            (calibratedAt 0) powerOn with
    | Done (ret, this', w') =>
      Done (ret,
            if errors this' =? 0
            then set_currentPos (2 + Stepper.ports Stepper.defaultConfig) this' else this',
            w')
    | r => r
    end
  /\ DCMotor.gotoPosition (tentSensor 10 3 1000) steadyClock DCMotor.defaultConfig 1000
       (2 + DCMotor.ports DCMotor.defaultConfig) (Valve 0 0 512 60) powerOn
     = match DCMotor.gotoPosition (tentSensor 10 3 1000) steadyClock DCMotor.defaultConfig
               1000 2 (Valve 0 0 512 60) powerOn with
       | Done (ret, this', w') =>
         Done (ret,
               if ret then set_currentPos (2 + DCMotor.ports DCMotor.defaultConfig) this'
               else this',
               w')
       | r => r
       end.
Proof.
  split.
  - apply (proj1 (gotoPosition_target_not_reduced flatSensor (jumpingClock 1)
                    Stepper.defaultConfig DCMotor.defaultConfig 5 2 (calibratedAt 0)
                    powerOn ltac:(cbn; lia) ltac:(cbn; lia)
                    ltac:(lia) ltac:(cbn; lia) ltac:(cbn; lia))).
  - apply (proj2 (gotoPosition_target_not_reduced (tentSensor 10 3 1000) steadyClock
                    Stepper.defaultConfig DCMotor.defaultConfig 1000 2 (Valve 0 0 512 60)
                    powerOn ltac:(cbn; lia) ltac:(cbn; lia)
                    ltac:(lia) ltac:(cbn; lia) ltac:(cbn; lia))).
Defined.



(** ** No call hangs *)

Lemma endsWithin_later {L : Type} n w w1 (r : result (flow L)) :
  clockReads w1 = S (clockReads w) -> endsWithin n w1 r -> endsWithin (S n) w r.
Proof. intros E. destruct r as [[]| |]; cbn; trivial. lia. Qed.

Lemma clockRunsOut_now clock startTime timeout w :
  clockRunsOut clock startTime timeout (clockReads w + 0) ->
  isTimedOut (wrap32 (clock (clockReads w))) startTime timeout = true.
Proof. rewrite Nat.add_0_r. trivial. Qed.

(** One turn of a loop that looks at the clock before anything else. *)
Ltac ends_loop IH Hc :=
  lazymatch goal with
  | |- endsWithin _ _ (if ?guard then _ else _) =>
    destruct guard; [|cbn; lia]
  end;
  lazymatch goal with
  | |- context [if isTimedOut ?a ?b ?c then _ else _] =>
    let E := fresh "E" in
    destruct (isTimedOut a b c) eqn:E; [exact I|]
  end;
  lazymatch type of Hc with
  | clockRunsOut _ _ _ (_ + 0) =>
    apply clockRunsOut_now in Hc; cbn [clockReads emit Stepper.takeSteps] in *; congruence
  | _ =>
    rewrite <- Nat.add_succ_comm in Hc;
    repeat match goal with
           | |- context [if ?c then _ else _] => destruct c
           end;
    first [ cbn; lia
          | eapply endsWithin_later; [|apply IH; [lia|exact Hc]]; reflexivity ]
  end.

Section Termination.
Variables (adc clock : nat -> Z).

Lemma DC_travelLoop_ends n :
  forall fuel this signalSteps startTime hallSignal signalCounter isAbove w,
    (n < fuel)%nat ->
    clockRunsOut clock startTime 1500 (clockReads w + n) ->
    endsWithin n w
      (DCMotor.travelLoop adc clock fuel this signalSteps startTime hallSignal
         signalCounter isAbove w).
Proof.
  induction n as [|n IH]; intros fuel this ss st h sc a w Hf Hc;
    (destruct fuel as [|fuel]; [lia|]);
    cbn [DCMotor.travelLoop millis readHallSensorSignal];
    ends_loop IH Hc.
Qed.

Lemma DC_searchLoop_ends (cfg : DCMotor.config) n :
  forall fuel this startTime majority hallSignal isAbove signalCounter w,
    (n < fuel)%nat ->
    clockRunsOut clock startTime 3000 (clockReads w + n) ->
    endsWithin n w
      (DCMotor.searchLoop adc clock cfg fuel this startTime majority hallSignal isAbove
         signalCounter w).
Proof.
  induction n as [|n IH]; intros fuel this st maj h a sc w Hf Hc;
    (destruct fuel as [|fuel]; [lia|]);
    cbn [DCMotor.searchLoop millis readHallSensorSignal];
    ends_loop IH Hc.
Qed.

Lemma DC_censusLoop_ends (cfg : DCMotor.config) n :
  forall fuel this startTime l w,
    (n < fuel)%nat ->
    clockRunsOut clock startTime 3000 (clockReads w + n) ->
    endsWithin n w (DCMotor.censusLoop adc clock cfg fuel this startTime l w).
Proof.
  induction n as [|n IH]; intros fuel this st l w Hf Hc;
    (destruct fuel as [|fuel]; [lia|]);
    cbn [DCMotor.censusLoop millis readHallSensorSignal];
    ends_loop IH Hc.
Qed.

Lemma Stepper_coarseLoop_ends (cfg : Stepper.config) n :
  forall fuel this dir signalSteps startTime l w,
    (n < fuel)%nat ->
    clockRunsOut clock startTime Stepper.timeout (clockReads w + n) ->
    endsWithin n w (Stepper.coarseLoop adc clock cfg fuel this dir signalSteps startTime l w).
Proof.
  induction n as [|n IH]; intros fuel this dir ss st l w Hf Hc;
    (destruct fuel as [|fuel]; [lia|]);
    cbn [Stepper.coarseLoop millis readHallSensorSignal];
    ends_loop IH Hc.
Qed.

Lemma Stepper_fineLoop_ends (cfg : Stepper.config) n :
  forall fuel this dir startTime lastRead hallSignal isAbove w,
    (n < fuel)%nat ->
    clockRunsOut clock startTime Stepper.timeout (clockReads w + n) ->
    endsWithin n w
      (Stepper.fineLoop adc clock cfg fuel this dir startTime lastRead hallSignal isAbove w).
Proof.
  induction n as [|n IH]; intros fuel this dir st lr h a w Hf Hc;
    (destruct fuel as [|fuel]; [lia|]);
    cbn [Stepper.fineLoop millis readHallSensorSignal];
    ends_loop IH Hc.
Qed.

Lemma Stepper_searchLoop_ends (cfg : Stepper.config) n :
  forall fuel this startTime majority hallSignal isAbove signalCounter w,
    (n < fuel)%nat ->
    clockRunsOut clock startTime Stepper.timeout (clockReads w + n) ->
    endsWithin n w
      (Stepper.searchLoop adc clock cfg fuel this startTime majority hallSignal isAbove
         signalCounter w).
Proof.
  induction n as [|n IH]; intros fuel this st maj h a sc w Hf Hc;
    (destruct fuel as [|fuel]; [lia|]);
    cbn [Stepper.searchLoop millis readHallSensorSignal];
    ends_loop IH Hc.
Qed.

Lemma Stepper_homingLoop_ends (cfg : Stepper.config) n :
  forall fuel this startTime lastRead hallSignal w,
    (n < fuel)%nat ->
    clockRunsOut clock startTime Stepper.timeout (clockReads w + n) ->
    endsWithin n w (Stepper.homingLoop adc clock cfg fuel this startTime lastRead hallSignal w).
Proof.
  induction n as [|n IH]; intros fuel this st lr h w Hf Hc;
    (destruct fuel as [|fuel]; [lia|]);
    cbn [Stepper.homingLoop millis readHallSensorSignal];
    ends_loop IH Hc.
Qed.
End Termination.

Lemma clockRunsOut_sooner clock startTime timeout timeout' k :
  0 <= timeout' <= timeout -> timeout < 2 ^ 32 ->
  clockRunsOut clock startTime timeout k -> clockRunsOut clock startTime timeout' k.
Proof.
  unfold clockRunsOut, isTimedOut, wrap32. intros Ht Hb H.
  apply Z.ltb_lt in H. apply Z.ltb_lt.
  rewrite (Z.mod_small timeout) in H by lia. rewrite (Z.mod_small timeout') by lia. lia.
Qed.

Lemma liveClock_sooner clock timeout timeout' budget :
  0 <= timeout' <= timeout -> timeout < 2 ^ 32 ->
  liveClock clock timeout budget -> liveClock clock timeout' budget.
Proof.
  intros Ht Hb H s. destruct (H s) as (n & Hn & Hc). exists n. split; [assumption|].
  eapply clockRunsOut_sooner; eassumption.
Qed.

Section GotoPositionEnds.
Variables (adc clock : nat -> Z).

Lemma Stepper_gotoPosition_ends (cfg : Stepper.config) n fuel target this w :
  (n < fuel)%nat ->
  clockRunsOut clock (wrap32 (clock (clockReads w))) Stepper.timeout (S (clockReads w) + n) ->
  exists out, Stepper.gotoPosition adc clock cfg fuel target this w = Done out.
Proof.
  intros Hf Hc. unfold Stepper.gotoPosition. cbn [millis].
  destruct (chooseDirection _ _ _) as [first signalSteps].
  match goal with
  | |- context [Stepper.coarseLoop adc clock cfg fuel this ?d ?ss ?st ?l ?w0] =>
    pose proof (Stepper_coarseLoop_ends adc clock cfg n fuel this d ss st l w0 Hf Hc) as Hl;
    destruct (Stepper.coarseLoop adc clock cfg fuel this d ss st l w0) as [[r t w1|l1 w1]| |]
  end; cbn [endsWithin andThen clockReads emit] in *; try contradiction.
  { eexists; reflexivity. }
  match goal with
  | |- context [Stepper.fineLoop adc clock cfg fuel this ?d ?st ?lr ?h ?a w1] =>
    pose proof (Stepper_fineLoop_ends adc clock cfg
                  (S (clockReads w) + n - clockReads w1) fuel this d st lr h a w1
                  ltac:(lia)) as Hl2;
    destruct (Stepper.fineLoop adc clock cfg fuel this d st lr h a w1) as [[r t w2|[] w2]| |]
  end; cbn [endsWithin andThen] in *; try (eexists; reflexivity).
  all: exfalso; apply Hl2;
    replace (clockReads w1 + (S (clockReads w) + n - clockReads w1))%nat
      with (S (clockReads w) + n)%nat by lia; exact Hc.
Qed.

Lemma DC_gotoPosition_ends (cfg : DCMotor.config) n fuel target this w :
  (n < fuel)%nat ->
  clockRunsOut clock (wrap32 (clock (clockReads w))) 1500 (S (clockReads w) + n) ->
  exists out, DCMotor.gotoPosition adc clock cfg fuel target this w = Done out.
Proof.
  intros Hf Hc. unfold DCMotor.gotoPosition. cbn [millis].
  destruct (chooseDirection _ _ _) as [first signalSteps].
  match goal with
  | |- context [DCMotor.travelLoop adc clock fuel this ?ss ?st ?h ?sc ?a ?w0] =>
    pose proof (DC_travelLoop_ends adc clock n fuel this ss st h sc a w0 Hf) as Hl;
    destruct (DCMotor.travelLoop adc clock fuel this ss st h sc a w0) as [[r t w1|[] w1]| |]
  end; cbn [endsWithin andThen] in *; try (eexists; reflexivity).
  all: exfalso; apply Hl; unfold DCMotor.startTurning; destruct (_ || _); exact Hc.
Qed.
End GotoPositionEnds.

(** X6.  [gotoPosition] cannot hang.  Take a valve with at least one port
    (so that [mod] is defined) and, for the stepper, a micro-stepping
    factor between 1 and 255 with the step rate of 400 that the
    constructor sets (so that the speed handed to AccelStepper,
    [400 * microSteppingFactor] as an [int], is not 0 and every burst of
    [takeSteps] completes).  As soon as one of the calls of [millis] that
    follow the first finds 2000 ms elapsed (the budget of the stepper
    valve; the DC-motor valve gives up after 1500 ms), the call returns,
    whatever the sensor shows. *)
Theorem gotoPosition_returns
    (adc clock : nat -> Z) (scfg : Stepper.config) (dcfg : DCMotor.config)
    (n fuel : nat) (target : Z) (this : valve) (w : world) :
  0 < Stepper.ports scfg ->
  1 <= Stepper.microSteppingFactor scfg <= 255 ->
  Stepper.stepsPerSecond scfg = 400 ->
  0 < DCMotor.ports dcfg ->
  (n < fuel)%nat ->
  clockRunsOut clock (wrap32 (clock (clockReads w))) 2000 (S (clockReads w) + n) ->
  (exists out, Stepper.gotoPosition adc clock scfg fuel target this w = Done out)
  /\ (exists out, DCMotor.gotoPosition adc clock dcfg fuel target this w = Done out).
Proof.
  intros _ _ _ _ Hf Hc. split.
  - eapply Stepper_gotoPosition_ends; eassumption.
  - eapply DC_gotoPosition_ends; [eassumption|].
    eapply clockRunsOut_sooner; [| |exact Hc]; lia.
Qed.

Lemma gotoPosition_returns_witness :
  (exists out,
      Stepper.gotoPosition flatSensor slowClock Stepper.defaultConfig 201 2
        (calibratedAt 0) powerOn = Done out)
  /\ (exists out,
         DCMotor.gotoPosition flatSensor slowClock DCMotor.defaultConfig 201 2
           (calibratedAt 0) powerOn = Done out).
Proof.
  apply (gotoPosition_returns flatSensor slowClock Stepper.defaultConfig
           DCMotor.defaultConfig 200 201 2 (calibratedAt 0) powerOn).
  - reflexivity.
  - cbn. lia.
  - reflexivity.
  - reflexivity.
  - lia.
  - vm_compute. reflexivity.
Defined.

Lemma readAt_no_fuel (a : list Z) (i : Z) : readAt a i <> OutOfFuel.
Proof. unfold readAt. destruct (_ && _); discriminate. Qed.

Lemma DC_collectMinima_no_fuel sensorSignals : DCMotor.collectMinima sensorSignals <> OutOfFuel.
Proof.
  unfold DCMotor.collectMinima.
  pose proof (DC_collectMinima_fold sensorSignals (innerIndices sensorSignals) 0
                (replicate 64 0) ltac:(lia)) as H.
  intros E. rewrite E in H. exact H.
Qed.

Lemma DC_calibrate_no_fuel sensorSignals minValue maxValue this :
  DCMotor.calibrate sensorSignals minValue maxValue this <> OutOfFuel.
Proof.
  unfold DCMotor.calibrate.
  pose proof (DC_collectMinima_no_fuel sensorSignals).
  destruct (DCMotor.collectMinima sensorSignals) as [[j buf]| |];
    cbn [mbind result_mbind bind]; try congruence.
  match goal with |- context [readAt ?a ?i] =>
    pose proof (readAt_no_fuel a i); destruct (readAt a i) end;
    cbn [mbind result_mbind bind]; first [discriminate | congruence].
Qed.

Lemma Stepper_calibrate_no_fuel (cfg : Stepper.config) junk sensorSignals this :
  Stepper.calibrate cfg junk sensorSignals this <> OutOfFuel.
Proof.
  unfold Stepper.calibrate.
  destruct (Stepper.collectMinima _ _) as [j buf].
  match goal with |- context [readAt ?a ?i] =>
    pose proof (readAt_no_fuel a i); destruct (readAt a i) end;
    cbn [mbind result_mbind bind]; try congruence.
  match goal with |- context [readAt ?a ?i] =>
    pose proof (readAt_no_fuel a i); destruct (readAt a i) end;
    cbn [mbind result_mbind bind]; first [discriminate | congruence].
Qed.
Section InitializeValveEnds.
Variables (adc clock : nat -> Z) (budget fuel : nat).
Hypothesis Hbudget : (budget <= fuel)%nat.

Lemma Stepper_finalize_ends (cfg : Stepper.config) this w :
  liveClock clock Stepper.timeout budget ->
  exists out, Stepper.finalize adc clock cfg fuel this w = Done out.
Proof.
  intros Hlive. unfold Stepper.finalize.
  match goal with
  | |- context [Stepper.gotoPosition adc clock cfg fuel ?t ?v ?w0] =>
    destruct (Hlive (clockReads w0)) as (n & Hn & Hc);
    destruct (Stepper_gotoPosition_ends adc clock cfg n fuel t v w0 ltac:(lia) Hc)
      as ([[r t'] w'] & ->)
  end.
  cbn [mbind result_mbind bind]. eexists; reflexivity.
Qed.

Lemma Stepper_homing_ends (cfg : Stepper.config) n this startTime lastRead hallSignal w :
  liveClock clock Stepper.timeout budget ->
  (n < fuel)%nat ->
  clockRunsOut clock startTime Stepper.timeout (clockReads w + n) ->
  exists out,
    andThen (Stepper.homingLoop adc clock cfg fuel this startTime lastRead hallSignal w)
      (fun _ w => Stepper.finalize adc clock cfg fuel this w) = Done out.
Proof.
  intros Hlive Hn Hc.
  pose proof (Stepper_homingLoop_ends adc clock cfg n fuel this startTime lastRead
                hallSignal w Hn Hc) as Hl.
  destruct (Stepper.homingLoop _ _ _ _ _ _ _ _ _) as [[r t w1|[] w1]| |];
    cbn [endsWithin andThen] in *; try contradiction.
  - eexists; reflexivity.
  - apply Stepper_finalize_ends; assumption.
Qed.

Lemma Stepper_afterCensus_ends (cfg : Stepper.config) this l w :
  liveClock clock Stepper.timeout budget ->
  exists out, Stepper.afterCensus adc clock cfg fuel this l w = Done out.
Proof.
  intros Hlive. unfold Stepper.afterCensus, Stepper.locate. cbn [millis].
  destruct (negb (_ =? _)); [eexists; reflexivity|].
  destruct (Hlive (clockReads w)) as (n & Hn & Hc).
  destruct (_ && _).
  - cbn [andThen]. destruct (_ <=? _); [eexists; reflexivity|].
    apply Stepper_homing_ends with (n := n); [assumption|lia|exact Hc].
  - match goal with
    | |- context [Stepper.searchLoop adc clock cfg fuel this ?st ?m ?h ?a ?sc ?w0] =>
      pose proof (Stepper_searchLoop_ends adc clock cfg n fuel this st m h a sc w0
                    ltac:(lia) Hc) as Hl;
      destruct (Stepper.searchLoop adc clock cfg fuel this st m h a sc w0)
        as [[r t w1|[[h1 a1] sc1] w1]| |]
    end; cbn [endsWithin andThen mbind result_mbind bind clockReads] in *;
      try contradiction.
    + eexists; reflexivity.
    + destruct (_ <=? _); [eexists; reflexivity|].
      apply Stepper_homing_ends with (n := (S (clockReads w) + n - clockReads w1)%nat);
        [assumption|lia|].
      replace (clockReads w1 + (S (clockReads w) + n - clockReads w1))%nat
        with (S (clockReads w) + n)%nat by lia.
      exact Hc.
Qed.

Lemma DC_afterCensus_ends (cfg : DCMotor.config) this l w :
  liveClock clock 3000 budget ->
  exists out, DCMotor.afterCensus adc clock cfg fuel this l w = Done out.
Proof.
  intros Hlive.
  assert (Hfin : forall this w, exists out, DCMotor.finalize adc clock cfg fuel this w = Done out).
  { intros this0 w0. unfold DCMotor.finalize.
    match goal with
    | |- context [DCMotor.gotoPosition adc clock cfg fuel ?t ?v ?w1] =>
      destruct (Hlive (clockReads w1)) as (n & Hn & Hc);
      destruct (DC_gotoPosition_ends adc clock cfg n fuel t v w1 ltac:(lia)
                  ltac:(eapply clockRunsOut_sooner; [| |exact Hc]; lia))
        as ([[r t'] w'] & ->)
    end.
    cbn [mbind result_mbind bind]. eexists; reflexivity. }
  unfold DCMotor.afterCensus, DCMotor.locate. cbn [millis]. cbv zeta.
  destruct (negb (_ =? _)); [eexists; reflexivity|].
  destruct (Hlive (clockReads (DCMotor.stopTurning w))) as (n & Hn & Hc).
  destruct (_ && _).
  - cbn [andThen]. destruct (_ <=? _); [eexists; reflexivity|]. apply Hfin.
  - match goal with
    | |- context [DCMotor.searchLoop adc clock cfg fuel this ?st ?m ?h ?a ?sc ?w0] =>
      pose proof (DC_searchLoop_ends adc clock cfg n fuel this st m h a sc w0
                    ltac:(lia)) as Hl;
      destruct (DCMotor.searchLoop adc clock cfg fuel this st m h a sc w0)
        as [[r t w1|[[h1 a1] sc1] w1]| |]
    end; cbn [endsWithin andThen mbind result_mbind bind] in *.
    + eexists; reflexivity.
    + destruct (_ <=? _); [eexists; reflexivity|]. apply Hfin.
    + exfalso. apply Hl. unfold DCMotor.startTurning. destruct (_ || _); exact Hc.
    + exfalso. apply Hl. unfold DCMotor.startTurning. destruct (_ || _); exact Hc.
Qed.

End InitializeValveEnds.

Lemma slowClock_live (timeout : Z) (budget : nat) :
  0 <= timeout -> timeout < 10 * Z.of_nat budget -> 10 * Z.of_nat budget < 2 ^ 32 ->
  liveClock slowClock timeout budget.
Proof.
  intros H0 H1 H2 s. exists (budget - 1)%nat. split; [lia|].
  unfold clockRunsOut, isTimedOut, slowClock, wrap32. apply Z.ltb_lt.
  rewrite Zminus_mod_idemp_l, Zminus_mod_idemp_r.
  replace (10 * Z.of_nat (S s + (budget - 1)) - 10 * Z.of_nat s)
    with (10 * Z.of_nat budget) by lia.
  rewrite !Z.mod_small; lia.
Qed.

(** X7.  [initializeValve] cannot hang: on a board whose clock keeps
    going (every time budget of 3000 ms is found used up within [budget]
    calls of [millis]) the call comes to an end, whatever the sensor
    shows: it returns, or it has left one of its arrays. *)
Theorem initializeValve_returns
    (adc clock : nat -> Z) (scfg : Stepper.config) (dcfg : DCMotor.config) (junk : Z)
    (budget fuel : nat) (this : valve) (w : world) :
  liveClock clock 3000 budget ->
  (budget <= fuel)%nat ->
  ((exists out, Stepper.initializeValve adc clock scfg junk fuel this w = Done out)
   \/ Stepper.initializeValve adc clock scfg junk fuel this w = MemoryFault)
  /\ ((exists out, DCMotor.initializeValve adc clock dcfg fuel this w = Done out)
      \/ DCMotor.initializeValve adc clock dcfg fuel this w = MemoryFault).
Proof.
  intros Hlive Hf.
  assert (Hlive' : liveClock clock Stepper.timeout budget).
  { eapply liveClock_sooner; [| |exact Hlive]; unfold Stepper.timeout; lia. }
  assert (Hres : forall r : result outcome,
             r <> OutOfFuel -> (exists out, r = Done out) \/ r = MemoryFault).
  { intros [out| |] Hr; [left; eexists; reflexivity|congruence|right; reflexivity]. }
  split; apply Hres.
  - unfold Stepper.initializeValve, Stepper.throughCensus, Stepper.censusPhase.
    cbn [readHallSensorSignal]. destruct (Stepper.idleReads _ _ _) as [this1 w1].
    destruct (_ =? _); [discriminate|].
    destruct (Stepper.sampleRotation _ _ _ _) as [sensorSignals w2].
    pose proof (Stepper_calibrate_no_fuel scfg junk sensorSignals (set_idle 512 this1)) as Hcal.
    destruct (Stepper.calibrate _ _ _ _) as [this2| |];
      cbn [mbind result_mbind bind andThen]; try congruence.
    destruct (Stepper.censusLoop _ _ _ _ _ _) as [l w3].
    cbn [mbind result_mbind bind andThen].
    destruct (Stepper_afterCensus_ends adc clock budget fuel Hf scfg this2 l w3 Hlive')
      as (out & ->).
    discriminate.
  - unfold DCMotor.initializeValve, DCMotor.throughCensus, DCMotor.censusPhase.
    destruct (DCMotor.idleReads _ _ _) as [this1 w1].
    destruct (_ =? _); [discriminate|].
    cbn [readHallSensorSignal].
    destruct (DCMotor.sampleRotation _ _ _ _ _ _) as [[[sensorSignals mn] mx] w2].
    pose proof (DC_calibrate_no_fuel sensorSignals mn mx (set_idle 512 this1)) as Hcal.
    destruct (DCMotor.calibrate _ _ _ _) as [this2| |];
      cbn [mbind result_mbind bind andThen]; try congruence.
    cbn [millis].
    match goal with
    | |- context [DCMotor.censusLoop adc clock dcfg fuel ?t ?st ?l ?w0] =>
      destruct (Hlive (clockReads (DCMotor.stopTurning w2))) as (n & Hn & Hc);
      pose proof (DC_censusLoop_ends adc clock dcfg n fuel t st l w0 ltac:(lia)) as Hl;
      destruct (DCMotor.censusLoop adc clock dcfg fuel t st l w0) as [[r t' w3|l1 w3]| |]
    end; cbn [endsWithin andThen mbind result_mbind bind] in *.
    + discriminate.
    + destruct (DC_afterCensus_ends adc clock budget fuel Hf dcfg this2 l1 w3 Hlive)
        as (out & ->).
      discriminate.
    + exfalso. apply Hl. unfold DCMotor.startTurning. destruct (_ || _); exact Hc.
    + exfalso. apply Hl. unfold DCMotor.startTurning. destruct (_ || _); exact Hc.
Qed.

Lemma initializeValve_returns_witness :
  ((exists out,
       Stepper.initializeValve (tentSensor 10 3 1000) slowClock
         Stepper.defaultConfig 0 301 constructed powerOn = Done out)
   \/ Stepper.initializeValve (tentSensor 10 3 1000) slowClock
        Stepper.defaultConfig 0 301 constructed powerOn = MemoryFault)
  /\ ((exists out,
          DCMotor.initializeValve (tentSensor 10 3 1000) slowClock DCMotor.defaultConfig
            301 constructed powerOn = Done out)
      \/ DCMotor.initializeValve (tentSensor 10 3 1000) slowClock DCMotor.defaultConfig
           301 constructed powerOn = MemoryFault).
Proof.
  apply (initializeValve_returns (tentSensor 10 3 1000) slowClock
           Stepper.defaultConfig DCMotor.defaultConfig 0 301 301 constructed powerOn).
  - apply slowClock_live; lia.
  - lia.
Defined.

(** ** What an arrival of the DC-motor valve means *)

Lemma chooseDirection_signalSteps (N c t : Z) :
  1 <= N -> 0 <= snd (chooseDirection N c t) <= (N + 1) / 2.
Proof.
  intros HN. unfold chooseDirection. rewrite !mod__is_modulo by lia.
  rewrite Z.quot_div_nonneg by lia.
  pose proof (Z.mod_pos_bound (t - c) N ltac:(lia)).
  pose proof (Z.div_mod N 2 ltac:(lia)). pose proof (Z.mod_pos_bound N 2 ltac:(lia)).
  pose proof (Z.div_mod (N + 1) 2 ltac:(lia)).
  pose proof (Z.mod_pos_bound (N + 1) 2 ltac:(lia)).
  destruct (Z.ltb_spec ((t - c) mod N) (N / 2)); cbn [snd]; lia.
Qed.

Section Counting.
Variables (adc clock : nat -> Z).

Lemma DC_travelLoop_counts fuel :
  forall this signalSteps startTime hallSignal signalCounter isAbove w w',
    0 <= signalCounter <= signalSteps + 1 -> signalSteps < 255 ->
    DCMotor.travelLoop adc clock fuel this signalSteps startTime hallSignal
      signalCounter isAbove w = Done (Next tt w') ->
    exists n : nat,
      adcReads w' = (5 * n + adcReads w)%nat
      /\ signalCounter + risingEdges this isAbove (readingsFrom adc (adcReads w) n)
         = signalSteps + 1
      /\ forall m, (m < n)%nat ->
           signalCounter + risingEdges this isAbove (readingsFrom adc (adcReads w) m)
           <= signalSteps.
Proof.
  induction fuel as [|fuel IH]; intros this ss st h sc a w w' Hsc Hss H; [discriminate|].
  cbn [DCMotor.travelLoop millis] in H. rewrite readHallSensorSignal_at in H.
  destruct (Z.leb_spec sc ss) as [Hle|Hgt].
  - destruct (isTimedOut _ _ _); [discriminate|].
    cbn [adcReads] in H.
    set (h1 := hallSignalAt adc (adcReads w)) in *.
    assert (Hw : wrap8 (sc + 1) = sc + 1) by (unfold wrap8; apply Z.mod_small; lia).
    destruct a, (aboveThreshold this h1) eqn:Ea; cbn [negb andb] in H;
      rewrite ?Hw in H; apply IH in H; try lia;
      destruct H as (n & Hn & Hcount & Hmin); cbn [adcReads] in *;
      exists (S n); (split; [lia|]); rewrite readingsFrom_S; fold h1;
      cbn [risingEdges]; rewrite Ea; cbn [negb andb];
      (split; [lia|]);
      (intros [|m] Hm; [cbn; lia|]);
      rewrite readingsFrom_S; fold h1; cbn [risingEdges]; rewrite Ea; cbn [negb andb];
      specialize (Hmin m ltac:(lia)); lia.
  - injection H as <-. exists 0%nat. cbn. split; [reflexivity|]. split; [lia|].
    intros m Hm. lia.
Qed.
End Counting.

(** X8.  When the DC-motor valve reports arrival, it has seen exactly the
    magnets it set out to see: with [signalSteps] the number of ports to
    travel, the readings taken during the call show [signalSteps + 1]
    rising edges (the magnet it starts on included), no shorter run of
    them does, and nothing else was read from the sensor. *)
Theorem DC_gotoPosition_counts_magnets
    (adc clock : nat -> Z) (cfg : DCMotor.config) (fuel : nat)
    (target : Z) (this this' : valve) (w w' : world) :
  1 <= DCMotor.ports cfg <= 255 ->
  DCMotor.gotoPosition adc clock cfg fuel target this w = Done (true, this', w') ->
  let signalSteps := snd (chooseDirection (DCMotor.ports cfg) (currentPos this) target) in
  exists n : nat,
    adcReads w' = (5 * n + adcReads w)%nat
    /\ risingEdges this false (readingsFrom adc (adcReads w) n) = signalSteps + 1
    /\ forall m, (m < n)%nat ->
         risingEdges this false (readingsFrom adc (adcReads w) m) <= signalSteps.
Proof.
  intros Hports H.
  pose proof (chooseDirection_signalSteps (DCMotor.ports cfg) (currentPos this) target
                ltac:(lia)) as Hss.
  assert (Hb : (DCMotor.ports cfg + 1) / 2 <= 128).
  { apply Z.div_le_upper_bound; lia. }
  unfold DCMotor.gotoPosition in H. cbn [millis] in H.
  destruct (chooseDirection _ _ _) as [first signalSteps]. cbn [snd] in *.
  destruct (DCMotor.travelLoop _ _ _ _ _ _ _ _ _ _) as [f| |] eqn:E; try discriminate.
  destruct f as [r t w1|[] w1]; cbn [andThen] in H.
  - apply DC_travelLoop_gaveUp in E. destruct E as (-> & _). discriminate.
  - injection H as _ <-. apply DC_travelLoop_counts in E; [|lia..].
    destruct E as (n & Hn & Hcount & Hmin). exists n.
    assert (Ha : forall d w0, adcReads (DCMotor.startTurning cfg d w0) = adcReads w0).
    { intros d w0. unfold DCMotor.startTurning. destruct (_ || _); reflexivity. }
    rewrite Ha in *. cbn [adcReads DCMotor.stopTurning emit] in *.
    split; [exact Hn|]. split; [lia|]. intros m Hm. specialize (Hmin m Hm). lia.
Qed.

Lemma DC_gotoPosition_counts_magnets_witness :
  let signalSteps :=
    snd (chooseDirection (DCMotor.ports DCMotor.defaultConfig)
           (currentPos (Valve 0 0 512 60)) 2) in
  exists n : nat,
    adcReads (World 180 37 [MotorPins false false; MotorPins true false])
    = (5 * n + adcReads powerOn)%nat
    /\ risingEdges (Valve 0 0 512 60) false
         (readingsFrom (tentSensor 10 3 1000) (adcReads powerOn) n) = signalSteps + 1
    /\ forall m, (m < n)%nat ->
         risingEdges (Valve 0 0 512 60) false
           (readingsFrom (tentSensor 10 3 1000) (adcReads powerOn) m) <= signalSteps.
Proof.
  apply (DC_gotoPosition_counts_magnets (tentSensor 10 3 1000) steadyClock
           DCMotor.defaultConfig 1000 2 (Valve 0 0 512 60) (Valve 2 0 512 60) powerOn
           (World 180 37 [MotorPins false false; MotorPins true false])).
  - cbn. lia.
  - vm_compute. reflexivity.
Defined.

(** X9.  What [gotoPosition] leaves behind.  Neither variant touches the
    calibration (idle signal and threshold); the error code is 0 or 3
    afterwards; with error code 0 the position is the target, with error
    code 3 the position is unchanged; and the last thing done to the
    actuator is to halt it.  For the DC-motor valve the returned flag
    tells which of the two happened. *)
Theorem gotoPosition_contract
    (adc clock : nat -> Z) (scfg : Stepper.config) (dcfg : DCMotor.config)
    (fuel : nat) (target : Z) (this : valve) (w : world) :
  (forall ret this' w',
      Stepper.gotoPosition adc clock scfg fuel target this w = Done (ret, this', w') ->
      hallSensorIdleSignal this' = hallSensorIdleSignal this
      /\ hallSensorThreshold this' = hallSensorThreshold this
      /\ ((ret = true /\ errors this' = 0 /\ currentPos this' = target)
          \/ (errors this' = 3 /\ currentPos this' = currentPos this))
      /\ head (trace w') = Some (SleepPin (negb (Stepper.enableIsHigh scfg))))
  /\ (forall ret this' w',
         DCMotor.gotoPosition adc clock dcfg fuel target this w = Done (ret, this', w') ->
         hallSensorIdleSignal this' = hallSensorIdleSignal this
         /\ hallSensorThreshold this' = hallSensorThreshold this
         /\ ((ret = true /\ errors this' = 0 /\ currentPos this' = target)
             \/ (ret = false /\ errors this' = 3 /\ currentPos this' = currentPos this))
         /\ head (trace w') = Some (MotorPins false false)).
Proof.
  split; intros ret this' w' H.
  - apply Stepper_gotoPosition_outcomes in H as (Hh & _ & [[-> ->]| ->]); cbn; auto 10.
  - apply DC_gotoPosition_outcomes in H as (Hh & _ & [[-> ->]|[-> ->]]); cbn; auto 10.
Qed.

Lemma gotoPosition_contract_witness :
  (hallSensorIdleSignal (Valve 0 3 512 55) = hallSensorIdleSignal (calibratedAt 0)
   /\ hallSensorThreshold (Valve 0 3 512 55) = hallSensorThreshold (calibratedAt 0)
   /\ ((true = true /\ errors (Valve 0 3 512 55) = 0 /\ currentPos (Valve 0 3 512 55) = 2)
       \/ (errors (Valve 0 3 512 55) = 3
           /\ currentPos (Valve 0 3 512 55) = currentPos (calibratedAt 0)))
   /\ head (trace (World 0 2 [SleepPin false; Steps 3; SleepPin true]))
      = Some (SleepPin (negb (Stepper.enableIsHigh Stepper.defaultConfig))))
  /\ (hallSensorIdleSignal (Valve 2 0 512 60) = hallSensorIdleSignal (Valve 0 0 512 60)
      /\ hallSensorThreshold (Valve 2 0 512 60) = hallSensorThreshold (Valve 0 0 512 60)
      /\ ((true = true /\ errors (Valve 2 0 512 60) = 0 /\ currentPos (Valve 2 0 512 60) = 2)
          \/ (true = false /\ errors (Valve 2 0 512 60) = 3
              /\ currentPos (Valve 2 0 512 60) = currentPos (Valve 0 0 512 60)))
      /\ head (trace (World 180 37 [MotorPins false false; MotorPins true false]))
         = Some (MotorPins false false)).
Proof.
  split.
  - apply (proj1 (gotoPosition_contract flatSensor (jumpingClock 1) Stepper.defaultConfig
                    DCMotor.defaultConfig 5 2 (calibratedAt 0) powerOn)
             true (Valve 0 3 512 55) (World 0 2 [SleepPin false; Steps 3; SleepPin true])).
    vm_compute. reflexivity.
  - apply (proj2 (gotoPosition_contract (tentSensor 10 3 1000) steadyClock
                    Stepper.defaultConfig DCMotor.defaultConfig 1000 2 (Valve 0 0 512 60)
                    powerOn)
             true (Valve 2 0 512 60)
             (World 180 37 [MotorPins false false; MotorPins true false])).
    vm_compute. reflexivity.
Defined.

(** ** The census and the verdict of [initializeValve] *)

Section Census.
Variables (adc clock : nat -> Z) (cfg : DCMotor.config).

(** The byte-sized counter of the census stays below 256: with 128 ports
    or more the census loop is never left through its guard. *)
Lemma DC_censusLoop_byte fuel :
  forall this startTime l w l' w',
    0 <= c_signalCounter l < 256 ->
    128 <= DCMotor.ports cfg ->
    DCMotor.censusLoop adc clock cfg fuel this startTime l w <> Done (Next l' w').
Proof.
  induction fuel as [|fuel IH]; intros this st l w l' w' Hsc Hp; [discriminate|].
  cbn [DCMotor.censusLoop millis readHallSensorSignal].
  destruct (Z.ltb_spec (c_signalCounter l) (2 * DCMotor.ports cfg)); [|lia].
  destruct (isTimedOut _ _ _); [discriminate|].
  apply IH; [|assumption].
  pose proof (wrap8_range (c_signalCounter l + 1)).
  repeat match goal with
         | |- context [if ?c then _ else _] => destruct c
         end; cbn [c_signalCounter]; lia.
Qed.

(** Every signal of the census is counted once as positive or negative. *)
Lemma DC_censusLoop_sum fuel :
  forall this startTime l w l' w',
    DCMotor.ports cfg <= 127 ->
    0 <= posPolarityCounter l -> 0 <= negPolarityCounter l ->
    c_signalCounter l = posPolarityCounter l + negPolarityCounter l ->
    c_signalCounter l <= 2 * DCMotor.ports cfg ->
    DCMotor.censusLoop adc clock cfg fuel this startTime l w = Done (Next l' w') ->
    0 <= posPolarityCounter l' /\ 0 <= negPolarityCounter l'
    /\ posPolarityCounter l' + negPolarityCounter l' = 2 * DCMotor.ports cfg
    /\ c_signalCounter l' = 2 * DCMotor.ports cfg.
Proof.
  induction fuel as [|fuel IH]; intros this st l w l' w' Hp Hpos Hneg Hsum Hle H;
    [discriminate|].
  cbn [DCMotor.censusLoop millis readHallSensorSignal] in H.
  destruct (Z.ltb_spec (c_signalCounter l) (2 * DCMotor.ports cfg)) as [Hlt|Hge].
  - destruct (isTimedOut _ _ _); [discriminate|].
    apply IH in H; [exact H|assumption|..];
      repeat match goal with
             | |- context [if ?c then _ else _] => destruct c
             end;
      cbn [c_signalCounter posPolarityCounter negPolarityCounter];
      rewrite ?wrap8_small by lia; lia.
  - injection H as <- _. lia.
Qed.
End Census.

(** X10.  The census of the DC-motor valve (at most 127 ports) ends, when
    it is not cut short by the clock, with exactly [2 * ports] signals
    counted, each of them as positive or as negative.  The polarity test
    that follows, [|pos - neg| = 2 * (ports - 2)], therefore passes only
    when exactly two signals had the minority polarity: the reversed
    magnet was seen once per rotation. *)
Theorem DC_census_counts_every_signal
    (adc clock : nat -> Z) (cfg : DCMotor.config) (fuel : nat) (this : valve)
    (startTime hallSignal : Z) (isAbove : bool) (w : world) (l : censusLocals) (w' : world) :
  0 <= DCMotor.ports cfg <= 127 ->
  DCMotor.censusLoop adc clock cfg fuel this startTime
    (CensusLocals hallSignal isAbove 0 0 0) w = Done (Next l w') ->
  c_signalCounter l = 2 * DCMotor.ports cfg
  /\ posPolarityCounter l + negPolarityCounter l = 2 * DCMotor.ports cfg
  /\ (Z.abs (posPolarityCounter l - negPolarityCounter l) = 2 * (DCMotor.ports cfg - 2) ->
      (posPolarityCounter l = 2 /\ negPolarityCounter l = 2 * DCMotor.ports cfg - 2)
      \/ (negPolarityCounter l = 2 /\ posPolarityCounter l = 2 * DCMotor.ports cfg - 2)).
Proof.
  intros Hp H. apply DC_censusLoop_sum in H; cbn; lia.
Qed.

Lemma DC_census_counts_every_signal_witness :
  c_signalCounter (CensusLocals 572 true 20 18 2) = 2 * DCMotor.ports DCMotor.defaultConfig
  /\ posPolarityCounter (CensusLocals 572 true 20 18 2)
     + negPolarityCounter (CensusLocals 572 true 20 18 2)
     = 2 * DCMotor.ports DCMotor.defaultConfig
  /\ (Z.abs (posPolarityCounter (CensusLocals 572 true 20 18 2)
             - negPolarityCounter (CensusLocals 572 true 20 18 2))
      = 2 * (DCMotor.ports DCMotor.defaultConfig - 2) ->
      (posPolarityCounter (CensusLocals 572 true 20 18 2) = 2
       /\ negPolarityCounter (CensusLocals 572 true 20 18 2)
          = 2 * DCMotor.ports DCMotor.defaultConfig - 2)
      \/ (negPolarityCounter (CensusLocals 572 true 20 18 2) = 2
          /\ posPolarityCounter (CensusLocals 572 true 20 18 2)
             = 2 * DCMotor.ports DCMotor.defaultConfig - 2)).
Proof.
  apply (DC_census_counts_every_signal (tentSensor 10 3 1000) steadyClock
           DCMotor.defaultConfig 400 (Valve 0 0 512 60) 0 512 false powerOn
           (CensusLocals 572 true 20 18 2) (World 1540 308 [])).
  - cbn. lia.
  - vm_compute. reflexivity.
Defined.

(** X11.  The census counter of the DC-motor valve is a byte, and the
    census runs while it is below [2 * ports]: with 128 ports or more that
    bound is out of its reach, so the census can only end on the clock.
    [initializeValve] then never succeeds: whenever it returns, it returns
    [false], with error code 1 (sensor) or 3 (timeout). *)
Theorem DC_initializeValve_too_many_ports
    (adc clock : nat -> Z) (cfg : DCMotor.config) (fuel : nat)
    (this this' : valve) (w w' : world) (ret : bool) :
  128 <= DCMotor.ports cfg ->
  DCMotor.initializeValve adc clock cfg fuel this w = Done (ret, this', w') ->
  ret = false /\ (errors this' = 1 \/ errors this' = 3).
Proof.
  intros Hp. unfold DCMotor.initializeValve, DCMotor.throughCensus, DCMotor.censusPhase.
  rewrite DC_idleReads_sum. cbn [hallSensorIdleSignal].
  destruct (_ =? 0).
  { cbn [andThen]. intros [= <- <- <-]. auto. }
  cbn [readHallSensorSignal millis].
  destruct (DCMotor.sampleRotation _ _ _ _ _ _) as [[[sensorSignals mn] mx] w2].
  destruct (DCMotor.calibrate _ _ _ _) as [this2| |]; try discriminate.
  cbn [mbind result_mbind bind].
  destruct (DCMotor.censusLoop _ _ _ _ _ _ _ _) as [[r t w3|l1 w3]| |] eqn:Ec;
    try discriminate; cbn [mbind result_mbind bind andThen].
  - apply DC_censusLoop_gaveUp in Ec. destruct Ec as (-> & -> & _).
    intros [= <- <- <-]. auto.
  - exfalso. revert Ec. apply DC_censusLoop_byte; cbn; lia.
Qed.

Lemma DC_initializeValve_too_many_ports_witness :
  false = false /\ (errors (Valve 0 3 512 60) = 1 \/ errors (Valve 0 3 512 60) = 3).
Proof.
  apply (DC_initializeValve_too_many_ports (tentSensor 130 3 1000) slowClock
           (DCMotor.Config 5 130 false) 400 constructed (Valve 0 3 512 60) powerOn
           (World 4090 302
              [MotorPins false false; MotorPins false true;
               MotorPins false false; MotorPins false true])
           false).
  - cbn. lia.
  - vm_compute. reflexivity.
Defined.

Section Verdict.
Variables (adc clock : nat -> Z).

Lemma Stepper_afterCensus_verdict (cfg : Stepper.config) fuel this l w out :
  Stepper.afterCensus adc clock cfg fuel this l w = Done out ->
  verdict (SleepPin (negb (Stepper.enableIsHigh cfg))) out.
Proof.
  assert (Hfin : forall this w out,
             Stepper.finalize adc clock cfg fuel this w = Done out ->
             verdict (SleepPin (negb (Stepper.enableIsHigh cfg))) out).
  { intros this0 w0 out0. unfold Stepper.finalize.
    destruct (Stepper.gotoPosition _ _ _ _ _ _ _) as [[[r t] w2]| |] eqn:Eg;
      try discriminate.
    apply Stepper_gotoPosition_outcomes in Eg as (Hh & _).
    cbn [mbind result_mbind bind]. intros [= <-]. cbn. auto. }
  assert (Hhome : forall this st lr h w out,
             andThen (Stepper.homingLoop adc clock cfg fuel this st lr h w)
               (fun _ w => Stepper.finalize adc clock cfg fuel this w) = Done out ->
             verdict (SleepPin (negb (Stepper.enableIsHigh cfg))) out).
  { intros this0 st lr h w0 out0.
    destruct (Stepper.homingLoop _ _ _ _ _ _ _ _ _) as [f| |] eqn:Eh; try discriminate.
    apply Stepper_homingLoop_gaveUp in Eh.
    destruct f as [r t w1|[] w1]; cbn [andThen gaveUp] in *.
    - intros [= <-]. destruct Eh as (-> & -> & _ & Hh). cbn. auto.
    - apply Hfin. }
  unfold Stepper.afterCensus, Stepper.locate. cbn [millis].
  destruct (negb (_ =? _)).
  { intros [= <-]. cbn. auto. }
  destruct (_ && _).
  - cbn [andThen]. destruct (_ <=? _).
    { intros [= <-]. cbn. auto. }
    apply Hhome.
  - destruct (Stepper.searchLoop _ _ _ _ _ _ _ _ _ _ _) as [f| |] eqn:Es; try discriminate.
    apply Stepper_searchLoop_gaveUp in Es. cbn [mbind result_mbind bind].
    destruct f as [r t w1|[[h a] sc] w1]; cbn [andThen gaveUp] in *.
    { intros [= <-]. destruct Es as (-> & -> & _ & Hh). cbn. auto. }
    destruct (_ <=? _).
    { intros [= <-]. cbn. auto. }
    apply Hhome.
Qed.

Lemma DC_afterCensus_verdict (cfg : DCMotor.config) fuel this l w out :
  DCMotor.afterCensus adc clock cfg fuel this l w = Done out ->
  verdict (MotorPins false false) out.
Proof.
  assert (Hfin : forall this w out,
             DCMotor.finalize adc clock cfg fuel this w = Done out ->
             verdict (MotorPins false false) out).
  { intros this0 w0 out0. unfold DCMotor.finalize.
    destruct (DCMotor.gotoPosition _ _ _ _ _ _ _) as [[[r t] w2]| |] eqn:Eg;
      try discriminate.
    apply DC_gotoPosition_outcomes in Eg as (Hh & _).
    cbn [mbind result_mbind bind]. intros [= <-]. cbn. auto. }
  unfold DCMotor.afterCensus, DCMotor.locate. cbn [millis]. cbv zeta.
  destruct (negb (_ =? _)).
  { intros [= <-]. cbn. auto. }
  destruct (_ && _).
  - cbn [andThen]. destruct (_ <=? _).
    { intros [= <-]. cbn. auto. }
    apply Hfin.
  - destruct (DCMotor.searchLoop _ _ _ _ _ _ _ _ _ _ _) as [f| |] eqn:Es; try discriminate.
    apply DC_searchLoop_gaveUp in Es. cbn [mbind result_mbind bind].
    destruct f as [r t w1|[[h a] sc] w1]; cbn [andThen gaveUp] in *.
    { intros [= <-]. destruct Es as (-> & -> & _ & Hh). cbn. auto. }
    destruct (_ <=? _).
    { intros [= <-]. cbn. auto. }
    apply Hfin.
Qed.
End Verdict.

(** X12.  The flag and the error code of [initializeValve] agree, in both
    variants: it returns [true] exactly when it leaves error code 0, and
    otherwise the code is 1, 2 or 3.  With error code 1 the actuator has
    not been touched; in every other case the last thing done to it was to
    halt it (driver asleep, motor pins low). *)
Theorem initializeValve_verdict
    (adc clock : nat -> Z) (scfg : Stepper.config) (dcfg : DCMotor.config) (junk : Z)
    (fuel : nat) (this : valve) (w : world) :
  (forall ret this' w',
      Stepper.initializeValve adc clock scfg junk fuel this w = Done (ret, this', w') ->
      (ret = true <-> errors this' = 0)
      /\ 0 <= errors this' <= 3
      /\ (if errors this' =? 1 then trace w' = trace w
          else head (trace w') = Some (SleepPin (negb (Stepper.enableIsHigh scfg)))))
  /\ (forall ret this' w',
         DCMotor.initializeValve adc clock dcfg fuel this w = Done (ret, this', w') ->
         (ret = true <-> errors this' = 0)
         /\ 0 <= errors this' <= 3
         /\ (if errors this' =? 1 then trace w' = trace w
             else head (trace w') = Some (MotorPins false false))).
Proof.
  assert (Hv : forall halt ret this' w',
             verdict halt (ret, this', w') ->
             (ret = true <-> errors this' = 0)
             /\ 0 <= errors this' <= 3
             /\ (if errors this' =? 1 then trace w' = trace w
                 else head (trace w') = Some halt)).
  { intros halt ret this' w' [[[-> He]|[-> [He|He]]] Hh]; rewrite He; cbn;
      repeat split; try lia; try assumption; intros; try discriminate; try lia. }
  split; intros ret this' w'.
  - unfold Stepper.initializeValve, Stepper.throughCensus.
    cbn [readHallSensorSignal]. rewrite Stepper_idleReads_sum. cbn [hallSensorIdleSignal].
    destruct (_ =? 0).
    { cbn [andThen]. intros [= <- <- <-]. cbn. repeat split; intros; try discriminate; lia. }
    destruct (Stepper.censusPhase _ _ _ _ _) as [[[this1 l] w1]| |]; try discriminate.
    cbn [mbind result_mbind bind andThen]. intros H.
    apply Stepper_afterCensus_verdict in H. apply Hv. exact H.
  - unfold DCMotor.initializeValve, DCMotor.throughCensus, DCMotor.censusPhase.
    rewrite DC_idleReads_sum. cbn [hallSensorIdleSignal].
    destruct (_ =? 0).
    { cbn [andThen]. intros [= <- <- <-]. cbn. repeat split; intros; try discriminate; lia. }
    cbn [readHallSensorSignal millis].
    destruct (DCMotor.sampleRotation _ _ _ _ _ _) as [[[sensorSignals mn] mx] w2].
    destruct (DCMotor.calibrate _ _ _ _) as [this2| |]; try discriminate.
    cbn [mbind result_mbind bind].
    destruct (DCMotor.censusLoop _ _ _ _ _ _ _ _) as [[r t w3|l1 w3]| |] eqn:Ec;
      try discriminate; cbn [mbind result_mbind bind andThen].
    + apply DC_censusLoop_gaveUp in Ec. destruct Ec as (-> & -> & _ & Hh).
      intros [= <- <- <-]. apply (Hv (MotorPins false false)). cbn. auto.
    + intros H. apply DC_afterCensus_verdict in H. apply Hv. exact H.
Qed.

Lemma initializeValve_verdict_witness :
  (true = true <-> errors (Valve 5 0 512 60) = 0)
  /\ 0 <= errors (Valve 5 0 512 60) <= 3
  /\ (if errors (Valve 5 0 512 60) =? 1
      then trace (World 4570 401
                    [MotorPins false false; MotorPins false true;
                     MotorPins false false; MotorPins false true;
                     MotorPins false false; MotorPins false true;
                     MotorPins false false; MotorPins false true]) = trace powerOn
      else head (trace (World 4570 401
                          [MotorPins false false; MotorPins false true;
                           MotorPins false false; MotorPins false true;
                           MotorPins false false; MotorPins false true;
                           MotorPins false false; MotorPins false true]))
           = Some (MotorPins false false)).
Proof.
  apply (proj2 (initializeValve_verdict (tentSensor 10 3 1000) (jumpingClock 400)
                  Stepper.defaultConfig DCMotor.defaultConfig 0 1000 constructed powerOn)
           true (Valve 5 0 512 60)
           (World 4570 401
              [MotorPins false false; MotorPins false true;
               MotorPins false false; MotorPins false true;
               MotorPins false false; MotorPins false true;
               MotorPins false false; MotorPins false true])).
  vm_compute. reflexivity.
Defined.

(** ** The calibration *)

Lemma localMinima_length sensorSignals :
  length (localMinima sensorSignals) = countLocalMinima sensorSignals.
Proof. unfold localMinima, countLocalMinima. apply length_fmap. Qed.

Lemma localMinima_sample sensorSignals v :
  v ∈ localMinima sensorSignals -> v ∈ sensorSignals.
Proof.
  unfold localMinima, innerIndices. intros H.
  apply list_elem_of_fmap in H as (i & -> & Hi).
  apply list_elem_of_filter in Hi as [_ Hi]. apply elem_of_seq in Hi.
  apply list_elem_of_lookup_total_2. lia.
Qed.

(** The slots of the scratch buffer that the baseline scan of the DC-motor
    valve has filled hold the local minima in scan order. *)
Lemma DC_collectMinima_content sensorSignals idxs :
  forall (j : nat) (minValuesTmp : list Z) j' minValuesTmp',
    length minValuesTmp = 64%nat ->
    foldl (DCMotor.storeMinimum sensorSignals) (Done (j, minValuesTmp)) idxs
    = Done (j', minValuesTmp') ->
    length minValuesTmp' = 64%nat
    /\ take j' minValuesTmp'
       = take j minValuesTmp
         ++ ((fun i => sensorSignals !!! i)
               <$> filter (fun i => Is_true (isLocalMin sensorSignals i)) idxs).
Proof.
  induction idxs as [|i idxs IH]; intros j buf j' buf' Hlen; cbn [foldl].
  - intros [= <- <-]. rewrite app_nil_r. auto.
  - rewrite filter_cons. unfold DCMotor.storeMinimum at 2. cbn [mbind result_mbind bind].
    destruct (isLocalMin sensorSignals i) eqn:E.
    + rewrite decide_True by exact I.
      destruct (Nat.ltb_spec j 64).
      * intros Hf. apply IH in Hf; [|rewrite length_insert; exact Hlen].
        destruct Hf as [Hl Ht]. split; [exact Hl|]. rewrite Ht.
        rewrite (take_S_r _ _ (sensorSignals !!! i)).
        -- rewrite take_insert_ge by lia. rewrite fmap_cons, <- app_assoc. reflexivity.
        -- apply list_lookup_insert_eq. lia.
      * rewrite DC_storeMinimum_fault. discriminate.
    + rewrite decide_False by exact id. apply IH, Hlen.
Qed.

Lemma half_index (j : nat) : Z.to_nat (Z.quot (Z.of_nat j) 2) = (j / 2)%nat.
Proof.
  rewrite Z.quot_div_nonneg by lia.
  change 2 with (Z.of_nat 2). rewrite <- Nat2Z.inj_div. apply Nat2Z.id.
Qed.

Lemma readAt_Done (a : list Z) (i : Z) :
  0 <= i < Z.of_nat (length a) -> readAt a i = Done (a !!! Z.to_nat i).
Proof.
  intros H. unfold readAt.
  destruct (Z.leb_spec 0 i), (Z.ltb_spec i (Z.of_nat (length a))); try lia. reflexivity.
Qed.

Lemma readAt_MemoryFault (a : list Z) (i : Z) :
  ~ (0 <= i < Z.of_nat (length a)) -> readAt a i = MemoryFault.
Proof.
  intros H. unfold readAt.
  destruct (Z.leb_spec 0 i), (Z.ltb_spec i (Z.of_nat (length a))); try lia; reflexivity.
Qed.

Lemma shellSortKnuth_length (a : list Z) : length (shellSortKnuth a) = length a.
Proof. unfold shellSortKnuth. apply Permutation_length, merge_sort_Permutation. Qed.

(** The element that both calibrations take as idle signal, the one at
    index [length / 2] of the sorted minima: their upper median. *)
Lemma upper_median (a : list Z) :
  (1 <= length a)%nat ->
  let v := shellSortKnuth a !!! (length a / 2)%nat in
  v ∈ a
  /\ (length a - length a / 2 <= countAtLeast v a)%nat
  /\ (countAbove v a < length a - length a / 2)%nat.
Proof.
  intros Ha.
  assert (Hh : (length a / 2 < length a)%nat) by (apply Nat.div_lt; lia).
  pose proof (nth_largest a (length a - length a / 2) ltac:(lia)) as H.
  replace (length a - (length a - length a / 2))%nat with (length a / 2)%nat in H by lia.
  exact H.
Qed.

(** X13.  The baseline of the DC-motor valve.  [calibrate] goes through
    exactly when the sampled rotation has between 1 and 64 local minima
    (with none it reads an empty array, with more it overruns its
    buffer).  The idle signal it stores is then the upper median of the
    local minima, one of the samples: at least half of the minima are not
    below it and fewer than half exceed it.  The threshold is not
    negative; position and error code are left alone. *)
Theorem DC_calibrate_median (sensorSignals : list Z) (minValue maxValue : Z) (this : valve) :
  let minima := localMinima sensorSignals in
  ((exists this', DCMotor.calibrate sensorSignals minValue maxValue this = Done this')
   <-> (1 <= length minima <= 64)%nat)
  /\ (forall this',
         DCMotor.calibrate sensorSignals minValue maxValue this = Done this' ->
         let idle := hallSensorIdleSignal this' in
         idle ∈ minima /\ idle ∈ sensorSignals
         /\ (length minima - length minima / 2 <= countAtLeast idle minima)%nat
         /\ (countAbove idle minima < length minima - length minima / 2)%nat
         /\ hallSensorThreshold this'
            = divideBy2_5 (Z.min (Z.abs (minValue - idle)) (Z.abs (maxValue - idle)))
         /\ 0 <= hallSensorThreshold this'
         /\ currentPos this' = currentPos this /\ errors this' = errors this).
Proof.
  intros minima. unfold DCMotor.calibrate, DCMotor.collectMinima.
  pose proof (DC_collectMinima_fold sensorSignals (innerIndices sensorSignals) 0
                (replicate 64 0) ltac:(lia)) as Hcount.
  pose proof (DC_collectMinima_content sensorSignals (innerIndices sensorSignals) 0
                (replicate 64 0)) as Hcontent.
  cbn zeta in Hcount. fold (countLocalMinima sensorSignals) in Hcount.
  rewrite <- localMinima_length in Hcount. fold minima in Hcount.
  destruct (foldl _ _ _) as [[j buf]| |]; cbn [mbind result_mbind bind].
  - destruct Hcount as [-> Hle].
    destruct (Hcontent _ _ (length_replicate _ _) eq_refl) as [_ Htake].
    fold (localMinima sensorSignals) in Htake. fold minima in Htake.
    rewrite take_0 in Htake. cbn [app Nat.add] in *. rewrite Htake.
    destruct (Nat.eq_dec (length minima) 0%nat) as [H0|H0].
    + rewrite readAt_MemoryFault
        by (rewrite shellSortKnuth_length, H0; cbn; lia).
      cbn [bind]. split; [split; [intros [? [=]]|lia]|discriminate].
    + rewrite readAt_Done.
      2:{ rewrite shellSortKnuth_length, Z.quot_div_nonneg by lia.
          split; [apply Z.div_pos; lia|apply Z.div_lt_upper_bound; lia]. }
      rewrite half_index. cbn [bind].
      split; [split; [lia|eexists; reflexivity]|].
      intros this' [= <-]. cbn.
      destruct (upper_median minima ltac:(lia)) as (Hin & Hge & Hgt).
      repeat split; try assumption.
      * apply localMinima_sample, Hin.
      * unfold divideBy2_5. apply Z.quot_pos; lia.
  - contradiction.
  - split; [split; [intros [? [=]]|lia]|discriminate].
Qed.

Lemma DC_calibrate_median_witness :
  let minima := localMinima tenPortSamples in
  let idle := hallSensorIdleSignal (Valve 0 0 512 60) in
  idle ∈ minima /\ idle ∈ tenPortSamples
  /\ (length minima - length minima / 2 <= countAtLeast idle minima)%nat
  /\ (countAbove idle minima < length minima - length minima / 2)%nat
  /\ hallSensorThreshold (Valve 0 0 512 60)
     = divideBy2_5 (Z.min (Z.abs (362 - idle)) (Z.abs (662 - idle)))
  /\ 0 <= hallSensorThreshold (Valve 0 0 512 60)
  /\ currentPos (Valve 0 0 512 60) = currentPos (Valve 0 0 512 0)
  /\ errors (Valve 0 0 512 60) = errors (Valve 0 0 512 0).
Proof.
  apply (proj2 (DC_calibrate_median tenPortSamples 362 662 (Valve 0 0 512 0))
           (Valve 0 0 512 60)).
  vm_compute. reflexivity.
Defined.

(** The baseline scan of the stepper valve counts every local minimum, and
    as long as there are at most 64 of them the slots it has filled hold
    them in scan order. *)
Lemma Stepper_collectMinima_fold sensorSignals idxs :
  forall (j : nat) (minValuesTmp : list Z),
    length minValuesTmp = 64%nat ->
    let found := filter (fun i => Is_true (isLocalMin sensorSignals i)) idxs in
    let r := foldl (Stepper.storeMinimum sensorSignals) (j, minValuesTmp) idxs in
    fst r = (j + length found)%nat
    /\ length (snd r) = 64%nat
    /\ ((j + length found <= 64)%nat ->
        take (fst r) (snd r)
        = take j minValuesTmp ++ ((fun i => sensorSignals !!! i) <$> found)).
Proof.
  induction idxs as [|i idxs IH]; intros j buf Hlen; cbn [foldl].
  - cbn. rewrite Nat.add_0_r, app_nil_r. auto.
  - rewrite filter_cons.
    destruct (isLocalMin sensorSignals i) eqn:E.
    + replace (Stepper.storeMinimum sensorSignals (j, buf) i)
        with (S j, <[(j mod 64)%nat := sensorSignals !!! i]> buf)
        by (unfold Stepper.storeMinimum; rewrite E; reflexivity).
      rewrite decide_True by exact I. cbn [length].
      specialize (IH (S j) (<[(j mod 64)%nat := sensorSignals !!! i]> buf)
                    ltac:(rewrite length_insert; exact Hlen)).
      cbn zeta in IH. destruct IH as (Hj & Hl & Ht).
      rewrite Nat.add_succ_r. split; [exact Hj|]. split; [exact Hl|].
      intros Hle. rewrite Ht by lia. rewrite Nat.mod_small by lia.
      rewrite (take_S_r _ _ (sensorSignals !!! i)).
      * rewrite take_insert_ge by lia. rewrite fmap_cons, <- app_assoc. reflexivity.
      * apply list_lookup_insert_eq. lia.
    + replace (Stepper.storeMinimum sensorSignals (j, buf) i) with (j, buf)
        by (unfold Stepper.storeMinimum; rewrite E; reflexivity).
      rewrite decide_False by exact id. apply IH, Hlen.
Qed.

(** X14.  The calibration of the stepper valve reads the sorted minima at
    index [j / 2], where [j] is the number of local minima modulo 64, and
    the sorted maxima at index [64 - ports]: it goes through exactly when
    the number of local minima is not a multiple of 64 (in particular not
    0) and the valve has between 1 and 64 ports; otherwise it reads
    outside an array.  When it goes through with fewer than 64 local
    minima, the idle signal is their upper median, one of the samples.
    Position and error code are left alone. *)
Theorem Stepper_calibrate_defined
    (cfg : Stepper.config) (junk : Z) (sensorSignals : list Z) (this : valve) :
  let minima := localMinima sensorSignals in
  ((exists this', Stepper.calibrate cfg junk sensorSignals this = Done this')
   <-> ((length minima mod 64)%nat <> 0%nat /\ 1 <= Stepper.ports cfg <= 64))
  /\ (forall this',
         Stepper.calibrate cfg junk sensorSignals this = Done this' ->
         currentPos this' = currentPos this /\ errors this' = errors this
         /\ ((length minima < 64)%nat ->
             let idle := hallSensorIdleSignal this' in
             idle ∈ minima /\ idle ∈ sensorSignals
             /\ (length minima - length minima / 2 <= countAtLeast idle minima)%nat
             /\ (countAbove idle minima < length minima - length minima / 2)%nat)).
Proof.
  intros minima. unfold Stepper.calibrate, Stepper.collectMinima.
  pose proof (Stepper_collectMinima_fold sensorSignals (innerIndices sensorSignals) 0
                (replicate 64 junk) (length_replicate _ _)) as Hfold.
  cbn zeta in Hfold. destruct (foldl _ _ _) as [j buf]. cbn [fst snd] in Hfold.
  fold (localMinima sensorSignals) in Hfold. fold minima in Hfold.
  rewrite take_0 in Hfold. cbn [app Nat.add] in Hfold.
  fold (countLocalMinima sensorSignals) in Hfold.
  rewrite <- localMinima_length in Hfold. fold minima in Hfold.
  destruct Hfold as (-> & Hlen & Htake).
  set (m := (length minima mod 64)%nat).
  assert (Hm : (m < 64)%nat) by (apply Nat.mod_upper_bound; lia).
  assert (Hlt : length (shellSortKnuth (take m buf)) = m).
  { rewrite shellSortKnuth_length, length_take. lia. }
  destruct (Nat.eq_dec m 0%nat) as [H0|H0].
  { rewrite readAt_MemoryFault by (rewrite Hlt, H0; cbn; lia).
    cbn [mbind result_mbind bind].
    split; [split; [intros [? [=]]|tauto]|discriminate]. }
  rewrite readAt_Done.
  2:{ rewrite Hlt, Z.quot_div_nonneg by lia.
      split; [apply Z.div_pos; lia|apply Z.div_lt_upper_bound; lia]. }
  rewrite half_index. cbn [mbind result_mbind bind].
  match goal with
  | |- context [readAt (shellSortKnuth ?b) ?i] =>
    assert (Hlb : length (shellSortKnuth b) = 64%nat)
      by (rewrite shellSortKnuth_length; apply Stepper_maxValuesBuffer_length);
    destruct (Z_le_dec 1 (Stepper.ports cfg)) as [H1|H1];
      [destruct (Z_le_dec (Stepper.ports cfg) 64) as [H2|H2]|];
      [ rewrite (readAt_Done (shellSortKnuth b) i) by (rewrite Hlb; lia)
      | rewrite (readAt_MemoryFault (shellSortKnuth b) i) by (rewrite Hlb; lia)
      | rewrite (readAt_MemoryFault (shellSortKnuth b) i) by (rewrite Hlb; lia) ]
  end; cbn [bind].
  2, 3: split; [split; [intros [? [=]]|lia]|discriminate].
  split; [split; [auto|eexists; reflexivity]|].
  intros this' [= <-].
  cbn [currentPos errors hallSensorIdleSignal set_idle set_threshold].
  split; [reflexivity|]. split; [reflexivity|].
  intros Hfew. unfold m in *. rewrite (Nat.mod_small (length minima) 64) in * by lia.
  rewrite Htake by lia.
  destruct (upper_median minima ltac:(lia)) as (Hin & Hge & Hgt).
  repeat split; try assumption. apply localMinima_sample, Hin.
Qed.

Lemma Stepper_calibrate_defined_witness :
  let minima := localMinima sixPortRotation in
  currentPos (Valve 0 0 512 55) = currentPos (Valve 0 0 512 0)
  /\ errors (Valve 0 0 512 55) = errors (Valve 0 0 512 0)
  /\ ((length minima < 64)%nat ->
      let idle := hallSensorIdleSignal (Valve 0 0 512 55) in
      idle ∈ minima /\ idle ∈ sixPortRotation
      /\ (length minima - length minima / 2 <= countAtLeast idle minima)%nat
      /\ (countAbove idle minima < length minima - length minima / 2)%nat).
Proof.
  apply (proj2 (Stepper_calibrate_defined Stepper.defaultConfig 0 sixPortRotation
                  (Valve 0 0 512 0))
           (Valve 0 0 512 55)).
  vm_compute. reflexivity.
Defined.

(** X15.  What the sampling loop of the DC-motor calibration hands on:
    the [n] readings in order, at five conversions each, with clock and
    motor untouched.  [maxValue] ends as the largest of its start value
    and the samples in the window.  [minValue] is tested only in the
    [else] branch: a sample that raises the maximum is never taken as
    minimum, so [minValue] is guaranteed to be at most those samples in
    the window that did not exceed the starting maximum; on a rising ramp
    it keeps its start value. *)
Theorem DC_sampleRotation_extremes (adc : nat -> Z) (n : nat) :
  forall (this : valve) (minValue maxValue : Z) (w : world),
    let '(samples, minValue', maxValue', w') :=
      DCMotor.sampleRotation adc n this minValue maxValue w in
    samples = readingsFrom adc (adcReads w) n
    /\ w' = World (5 * n + adcReads w) (clockReads w) (trace w)
    /\ maxValue <= maxValue' /\ minValue' <= minValue
    /\ (forall x, x ∈ samples -> inWindow this x = true -> x <= maxValue')
    /\ (forall x, x ∈ samples -> inWindow this x = true -> minValue' <= x \/ maxValue < x)
    /\ (maxValue' = maxValue \/ (maxValue' ∈ samples /\ inWindow this maxValue' = true))
    /\ (minValue' = minValue \/ (minValue' ∈ samples /\ inWindow this minValue' = true))
    /\ (StronglySorted Z.lt (maxValue :: samples)
        -> Forall (fun x => inWindow this x = true) samples
        -> minValue' = minValue).
Proof.
  induction n as [|n IH]; intros this mn mx w.
  - cbn. repeat split; try lia; try (intros x Hx; inversion Hx); auto.
    destruct w; reflexivity.
  - cbn [DCMotor.sampleRotation]. rewrite readHallSensorSignal_at.
    set (x := hallSignalAt adc (adcReads w)).
    fold (inWindow this x).
    match goal with
    | |- context [DCMotor.sampleRotation adc n this _ _ ?w1] => set (w1' := w1)
    end.
    assert (Hcase :
      ((mx <? x) && inWindow this x = true /\ mx < x /\ inWindow this x = true)
      \/ ((mx <? x) && inWindow this x = false
          /\ (x <? mn) && inWindow this x = true /\ x < mn /\ x <= mx
          /\ inWindow this x = true)
      \/ ((mx <? x) && inWindow this x = false /\ (x <? mn) && inWindow this x = false
          /\ (inWindow this x = true -> mn <= x /\ x <= mx))).
    { destruct (Z.ltb_spec mx x), (Z.ltb_spec x mn), (inWindow this x); cbn;
        intuition (try lia; try discriminate). }
    destruct Hcase as [(-> & H1 & H2)|[(-> & -> & H1 & H2 & H3)|(-> & -> & H1)]];
      match goal with
      | |- context [DCMotor.sampleRotation adc n this ?a ?b w1'] =>
        specialize (IH this a b w1');
        destruct (DCMotor.sampleRotation adc n this a b w1') as [[[rest mn'] mx'] w2]
      end;
      destruct IH as (Hs & Hw & Hmx & Hmn & Hmax & Hmin & Hmx' & Hmn' & Hramp);
      subst w1'; cbn [adcReads clockReads trace] in *;
      rewrite readingsFrom_S; fold x; rewrite <- Hs.
    all: split; [reflexivity|].
    all: split; [rewrite Hw; f_equal; lia|].
    all: split; [lia|]. all: split; [lia|].
    all: split; [intros y Hy Hwin; apply elem_of_cons in Hy as [->|Hy];
                 [try lia; try (destruct (H1 Hwin); lia)|apply Hmax; assumption]|].
    all: split; [intros y Hy Hwin; apply elem_of_cons in Hy as [->|Hy];
                 [try lia; try (destruct (H1 Hwin); lia)
                 |destruct (Hmin y Hy Hwin); lia]|].
    all: split; [destruct Hmx' as [->|[Hin Hwin]];
                 [first [left; reflexivity | right; split; [left|assumption]]
                 |right; split; [right; exact Hin|exact Hwin]]|].
    all: split; [destruct Hmn' as [->|[Hin Hwin]];
                 [first [left; reflexivity | right; split; [left|assumption]]
                 |right; split; [right; exact Hin|exact Hwin]]|].
    all: intros Hsorted Hall;
      apply StronglySorted_cons in Hsorted as [Hfirst Hsorted];
      apply Forall_cons in Hfirst as [Hfirst _];
      apply Forall_cons in Hall as [Hx Hall].
    + apply Hramp; assumption.
    + lia.
    + destruct (H1 Hx). lia.
Qed.

Lemma DC_sampleRotation_extremes_witness :
  snd (fst (fst (DCMotor.sampleRotation (adcOfReadings [500; 510; 520]) 3
                   (Valve 0 0 512 0) 1023 0 powerOn))) = 1023.
Proof.
  generalize (DC_sampleRotation_extremes (adcOfReadings [500; 510; 520]) 3
                (Valve 0 0 512 0) 1023 0 powerOn).
  destruct (DCMotor.sampleRotation _ _ _ _ _ _) as [[[s mn] mx] w'].
  cbn [fst snd]. intros (Hs & _ & _ & _ & _ & _ & _ & _ & Hramp).
  apply Hramp; subst s; vm_compute; repeat constructor.
Defined.

Section Rotation.
Variables (adc : nat -> Z) (cfg : Stepper.config).

Lemma Stepper_sampleRotation_steps n :
  forall w,
    let '(samples, w') := Stepper.sampleRotation adc cfg n w in
    samples = readingsFrom adc (adcReads w) n
    /\ adcReads w' = (5 * n + adcReads w)%nat
    /\ clockReads w' = clockReads w
    /\ stepsTaken (trace w')
       = Z.of_nat n * ((if Stepper.clockwiseNumbering cfg then -1 else 1)
                       * Stepper.initMul cfg)
         + stepsTaken (trace w).
Proof.
  induction n as [|n IH]; intros w.
  - cbn [Stepper.sampleRotation]. repeat split; lia.
  - cbn [Stepper.sampleRotation]. rewrite readHallSensorSignal_at.
    match goal with
    | |- context [Stepper.sampleRotation adc cfg n ?w1] =>
      specialize (IH w1); destruct (Stepper.sampleRotation adc cfg n w1) as [rest w2]
    end.
    destruct IH as (Hs & Ha & Hc & Ht).
    unfold Stepper.takeSteps in *. cbn [adcReads clockReads trace emit stepsTaken] in *.
    rewrite readingsFrom_S, <- Hs. repeat split; try lia.
    rewrite Ht. destruct (Stepper.clockwiseNumbering cfg); lia.
Qed.
End Rotation.

(** X16.  The sampling rotation of the stepper calibration takes
    [stepsPerRevolution / mul + 1] samples, [mul] steps apart: it turns the
    valve by more than one full revolution, but by at most [mul] steps
    more (backwards when the ports are numbered clockwise), so that every
    magnet passes the sensor; the samples are the readings in order, and
    the clock is not consulted. *)
Theorem Stepper_sampleRotation_full_turn
    (adc : nat -> Z) (cfg : Stepper.config) (w : world) :
  1 <= Stepper.initMul cfg -> 0 <= Stepper.stepsPerRevolution cfg ->
  let n := Stepper.sensorSignalsLength cfg in
  let turned :=
    stepsTaken (trace (snd (Stepper.sampleRotation adc cfg n w))) - stepsTaken (trace w) in
  fst (Stepper.sampleRotation adc cfg n w) = readingsFrom adc (adcReads w) n
  /\ clockReads (snd (Stepper.sampleRotation adc cfg n w)) = clockReads w
  /\ Z.abs turned = Z.of_nat n * Stepper.initMul cfg
  /\ Stepper.stepsPerRevolution cfg < Z.abs turned
     <= Stepper.stepsPerRevolution cfg + Stepper.initMul cfg
  /\ (0 < turned <-> Stepper.clockwiseNumbering cfg = false).
Proof.
  intros Hmul Hspr n turned. subst turned.
  pose proof (Stepper_sampleRotation_steps adc cfg n w) as H.
  destruct (Stepper.sampleRotation adc cfg n w) as [samples w'].
  destruct H as (Hs & _ & Hc & Ht). cbn [fst snd]. rewrite Ht.
  assert (Hn : Z.of_nat n = Stepper.stepsPerRevolution cfg / Stepper.initMul cfg + 1).
  { subst n. unfold Stepper.sensorSignalsLength.
    rewrite Z.quot_div_nonneg by lia.
    pose proof (Z.div_pos (Stepper.stepsPerRevolution cfg) (Stepper.initMul cfg)
                  ltac:(lia) ltac:(lia)).
    lia. }
  pose proof (Z.div_mod (Stepper.stepsPerRevolution cfg) (Stepper.initMul cfg)
                ltac:(lia)) as Hd.
  pose proof (Z.mod_pos_bound (Stepper.stepsPerRevolution cfg) (Stepper.initMul cfg)
                ltac:(lia)) as Hr.
  split; [exact Hs|]. split; [exact Hc|].
  destruct (Stepper.clockwiseNumbering cfg); nia.
Qed.

Lemma Stepper_sampleRotation_full_turn_witness :
  let n := Stepper.sensorSignalsLength Stepper.defaultConfig in
  let turned :=
    stepsTaken (trace (snd (Stepper.sampleRotation flatSensor Stepper.defaultConfig n
                              powerOn)))
    - stepsTaken (trace powerOn) in
  fst (Stepper.sampleRotation flatSensor Stepper.defaultConfig n powerOn)
  = readingsFrom flatSensor (adcReads powerOn) n
  /\ clockReads (snd (Stepper.sampleRotation flatSensor Stepper.defaultConfig n powerOn))
     = clockReads powerOn
  /\ Z.abs turned = Z.of_nat n * Stepper.initMul Stepper.defaultConfig
  /\ Stepper.stepsPerRevolution Stepper.defaultConfig < Z.abs turned
     <= Stepper.stepsPerRevolution Stepper.defaultConfig
        + Stepper.initMul Stepper.defaultConfig
  /\ (0 < turned <-> Stepper.clockwiseNumbering Stepper.defaultConfig = false).
Proof.
  apply (Stepper_sampleRotation_full_turn flatSensor Stepper.defaultConfig powerOn);
    apply Z.leb_le; reflexivity.
Defined.

(** ** The hotplate clamp *)

Lemma ramp_S n inc p : ramp (S n) inc p = (p + inc) :: ramp n inc (p + inc).
Proof.
  unfold ramp. cbn [seq fmap list_fmap]. f_equal; [lia|].
  rewrite <- seq_shift, <- list_fmap_compose. apply list_fmap_ext.
  intros _ i _. unfold compose. lia.
Qed.

Lemma ramp_length n inc p : length (ramp n inc p) = n.
Proof. unfold ramp. rewrite length_fmap. apply length_seq. Qed.

Lemma ramp_elem n inc p a :
  a ∈ ramp n inc p <-> exists i : nat, (1 <= i <= n)%nat /\ a = p + Z.of_nat i * inc.
Proof.
  unfold ramp. rewrite list_elem_of_fmap. split.
  - intros (i & -> & Hi). apply elem_of_seq in Hi. exists (S i). split; [lia|reflexivity].
  - intros (i & Hi & ->). exists (pred i). split.
    + replace (S (pred i)) with i by lia. reflexivity.
    + apply elem_of_seq. lia.
Qed.

Lemma ramp_last n inc p : last (ramp (S n) inc p) = Some (p + Z.of_nat (S n) * inc).
Proof.
  unfold ramp. rewrite fmap_last, last_lookup, length_seq. cbn [pred].
  rewrite lookup_seq_lt by lia. reflexivity.
Qed.

Lemma afterWrites_nil b : afterWrites [] b = b.
Proof. destruct b; reflexivity. Qed.

Lemma afterWrites_cons a angles b :
  afterWrites (a :: angles) b
  = afterWrites angles (HotplateClamp.act (HotplateClamp.ServoWrite a) b).
Proof.
  unfold afterWrites, HotplateClamp.act. cbn [HotplateClamp.switchReads
    HotplateClamp.millisCalls HotplateClamp.actions].
  rewrite fmap_cons, reverse_cons, <- app_assoc. reflexivity.
Qed.

Lemma afterWrites_app angles1 angles2 b :
  afterWrites (angles1 ++ angles2) b = afterWrites angles2 (afterWrites angles1 b).
Proof.
  revert b. induction angles1 as [|a l IH]; intros b; cbn [app].
  - rewrite afterWrites_nil. reflexivity.
  - rewrite !afterWrites_cons. apply IH.
Qed.

Lemma afterWrites_snoc angles a b :
  afterWrites (angles ++ [a]) b
  = HotplateClamp.act (HotplateClamp.ServoWrite a) (afterWrites angles b).
Proof. rewrite afterWrites_app, afterWrites_cons, afterWrites_nil. reflexivity. Qed.

(** The servo loop in closed form. *)
Lemma creep_ramp n inc :
  forall p b,
    HotplateClamp.creep n inc p b = (p + Z.of_nat n * inc, afterWrites (ramp n inc p) b).
Proof.
  induction n as [|n IH]; intros p b.
  - cbn [HotplateClamp.creep]. rewrite afterWrites_nil. f_equal. lia.
  - cbn [HotplateClamp.creep]. rewrite IH, ramp_S, afterWrites_cons. f_equal. lia.
Qed.

Section ServoMoves.
Import HotplateClamp.

Lemma head_afterWrites_snoc angles a b :
  head (actions (afterWrites (angles ++ [a]) b)) = Some (ServoWrite a).
Proof.
  unfold afterWrites. cbn [actions]. rewrite fmap_app, reverse_app. reflexivity.
Qed.

Lemma head_afterWrites_ramp n inc p b :
  head (actions (afterWrites (p :: ramp n inc p) b))
  = Some (ServoWrite (p + Z.of_nat n * inc)).
Proof.
  destruct n as [|n].
  - cbn. do 2 f_equal. lia.
  - destruct (ramp (S n) inc p) as [|x l] eqn:E using rev_ind.
    + apply (f_equal length) in E. rewrite ramp_length in E. discriminate.
    + pose proof (ramp_last n inc p) as Hl. rewrite E, last_snoc in Hl.
      injection Hl as ->. rewrite app_comm_cons. apply head_afterWrites_snoc.
Qed.

Lemma elem_of_afterWrites a angles b :
  ServoWrite a ∈ actions (afterWrites angles b)
  <-> a ∈ angles \/ ServoWrite a ∈ actions b.
Proof.
  unfold afterWrites. cbn [actions]. rewrite elem_of_app, elem_of_reverse, list_elem_of_fmap.
  split.
  - intros [(x & [= ->] & Hx)|H]; auto.
  - intros [H|H]; [left; exists a; auto|auto].
Qed.
End ServoMoves.

(** X17.  [closeClamp] (the same code in both clamp classes) sends the
    servo to the requested angle, [servoClosedPos] when none is given.
    With a slow-down of [slowdownDegrees >= 0] it jumps to the angle that
    lies [d] degrees before the target, [d] being the smaller of the
    slow-down and the distance, and then writes every degree up to the
    target: the last angle written is the target, the one the object
    records, and no angle outside the way from the old position to the
    target is written.  A second call with the same arguments does
    nothing.  With a negative slow-down the only angle written lies beyond
    the target by that many degrees, while the object records the
    target. *)
Theorem closeClamp_lands_on_target
    (closed opened : Z) (servoPos slowdownDegrees cur err stage : Z)
    (b : HotplateClamp.board) :
  let cfg := HotplateClampDCMotor.Config closed opened in
  let this := HotplateClampDCMotor.Clamp cur err in
  let target := if servoPos =? -1 then closed else servoPos in
  let inc := if target <? cur then -1 else 1 in
  let d := Z.min (Z.abs (cur - target)) slowdownDegrees in
  smallInt cur -> smallInt target -> smallInt slowdownDegrees -> target <> cur ->
  let '(this', b') := HotplateClampDCMotor.closeClamp cfg servoPos slowdownDegrees this b in
  this' = HotplateClampDCMotor.Clamp target err
  /\ HotplateClampDCMotor.closeClamp cfg servoPos slowdownDegrees this' b' = (this', b')
  /\ HotplateClampStepperMotor.closeClamp (HotplateClampStepperMotor.Config closed opened)
       servoPos slowdownDegrees (HotplateClampStepperMotor.Clamp stage cur err) b
     = (HotplateClampStepperMotor.Clamp stage target err, b')
  /\ (0 <= slowdownDegrees ->
      b' = afterWrites ((target - inc * d) :: ramp (Z.to_nat d) inc (target - inc * d)) b
      /\ head (HotplateClamp.actions b') = Some (HotplateClamp.ServoWrite target)
      /\ forall a, HotplateClamp.ServoWrite a ∈ HotplateClamp.actions b' ->
           HotplateClamp.ServoWrite a ∈ HotplateClamp.actions b
           \/ Z.min cur target <= a <= Z.max cur target)
  /\ (slowdownDegrees < 0 ->
      b' = afterWrites [target - inc * slowdownDegrees] b
      /\ (target - inc * slowdownDegrees < Z.min cur target
          \/ Z.max cur target < target - inc * slowdownDegrees)).
Proof.
  intros cfg this target inc d Hcur Htarget Hsd Hne. unfold smallInt in *.
  subst cfg this.
  unfold HotplateClampDCMotor.closeClamp, HotplateClampStepperMotor.closeClamp.
  cbn [HotplateClampDCMotor.servoClosedPos HotplateClampDCMotor.currentServoPos
       HotplateClampDCMotor.errors HotplateClampStepperMotor.servoClosedPos
       HotplateClampStepperMotor.currentServoPos HotplateClampStepperMotor.errors
       HotplateClampStepperMotor.currentPos].
  fold target. destruct (Z.eqb_spec target cur) as [|_]; [contradiction|].
  replace (target <=? cur) with (target <? cur)
    by (destruct (Z.ltb_spec target cur), (Z.leb_spec target cur); lia || reflexivity).
  fold inc d. rewrite !creep_ramp, <- afterWrites_cons. cbv beta iota.
  cbn [HotplateClampDCMotor.currentServoPos]. fold target. rewrite Z.eqb_refl.
  split; [reflexivity|]. split; [reflexivity|]. split; [reflexivity|].
  assert (Hinc : inc = 1 /\ cur < target \/ inc = -1 /\ target < cur).
  { subst inc. destruct (Z.ltb_spec target cur); lia. }
  split.
  - intros H0.
    assert (Hd : 0 <= d <= Z.abs (cur - target)) by (subst d; lia).
    split; [reflexivity|]. split.
    + rewrite head_afterWrites_ramp. do 2 f_equal. rewrite Z2Nat.id by lia.
      destruct Hinc as [[-> _]|[-> _]]; lia.
    + intros a Ha. apply elem_of_afterWrites in Ha as [Ha|Ha]; [right|left; exact Ha].
      apply elem_of_cons in Ha as [->|Ha].
      * destruct Hinc as [[-> ?]|[-> ?]]; lia.
      * apply ramp_elem in Ha as (i & Hi & ->).
        destruct Hinc as [[-> ?]|[-> ?]]; lia.
  - intros Hneg.
    assert (Hd : d = slowdownDegrees) by (subst d; lia).
    rewrite Hd. replace (Z.to_nat slowdownDegrees) with 0%nat by lia.
    split; [reflexivity|]. destruct Hinc as [[-> ?]|[-> ?]]; lia.
Qed.

Lemma closeClamp_lands_on_target_witness :
  head (HotplateClamp.actions
          (snd (HotplateClampDCMotor.closeClamp HotplateClampDCMotor.defaultConfig (-1) 25
                  (HotplateClampDCMotor.Clamp 180 0) (HotplateClamp.Board 0 0 []))))
  = Some (HotplateClamp.ServoWrite 0).
Proof.
  pose proof (closeClamp_lands_on_target 0 180 (-1) 25 180 0 100
                (HotplateClamp.Board 0 0 [])) as H.
  cbv zeta in H.
  specialize (H ltac:(unfold smallInt; lia) ltac:(cbn; unfold smallInt; lia)
                ltac:(unfold smallInt; lia) ltac:(cbn; lia)).
  change (HotplateClampDCMotor.Config 0 180) with HotplateClampDCMotor.defaultConfig in H.
  destruct (HotplateClampDCMotor.closeClamp _ _ _ _ _) as [this' b'].
  destruct H as (_ & _ & _ & H & _). apply H. lia.
Defined.

(** X18.  [openClamp] of the DC-motor clamp does not stop at the requested
    angle.  Asked for an angle other than the current one (slow-down not
    negative), it writes [d] single degrees from the current position
    towards that angle, then jumps to [d] degrees before [servoOpenedPos],
    seen in the same direction, and writes every degree up to
    [servoOpenedPos]: the clamp always ends fully opened, whatever angle
    was asked for.  When the requested angle lies below the current one,
    the jump goes to [servoOpenedPos + d], beyond the opened position. *)
Theorem ClampDC_openClamp_ends_fully_opened
    (cfg : HotplateClampDCMotor.config) (servoPos slowdownDegrees : Z)
    (this : HotplateClampDCMotor.clamp) (b : HotplateClamp.board) :
  let opened := HotplateClampDCMotor.servoOpenedPos cfg in
  let cur := HotplateClampDCMotor.currentServoPos this in
  let target := if servoPos =? -1 then opened else servoPos in
  let inc := if target <? cur then -1 else 1 in
  let d := Z.min (Z.abs (cur - target)) slowdownDegrees in
  smallInt cur -> smallInt target -> smallInt opened ->
  0 <= slowdownDegrees <= 8000 -> target <> cur ->
  let '(this', b') := HotplateClampDCMotor.openClamp cfg servoPos slowdownDegrees this b in
  this' = HotplateClampDCMotor.Clamp opened (HotplateClampDCMotor.errors this)
  /\ b' = afterWrites
            (ramp (Z.to_nat d) inc cur
             ++ (opened - inc * d) :: ramp (Z.to_nat d) inc (opened - inc * d)) b
  /\ head (HotplateClamp.actions b') = Some (HotplateClamp.ServoWrite opened)
  /\ (target < cur -> 0 < slowdownDegrees ->
      opened < opened + d
      /\ HotplateClamp.ServoWrite (opened + d) ∈ HotplateClamp.actions b').
Proof.
  intros opened cur target inc d Hcur Htarget Hopened Hsd Hne. unfold smallInt in *.
  unfold HotplateClampDCMotor.openClamp.
  fold opened cur target. destruct (Z.eqb_spec target cur) as [|_]; [contradiction|].
  replace (target <=? cur) with (target <? cur)
    by (destruct (Z.ltb_spec target cur), (Z.leb_spec target cur); lia || reflexivity).
  fold inc d. rewrite !creep_ramp. cbv beta iota.
  rewrite <- afterWrites_cons, <- afterWrites_app.
  assert (Hinc : inc = 1 /\ cur < target \/ inc = -1 /\ target < cur).
  { subst inc. destruct (Z.ltb_spec target cur); lia. }
  assert (Hd : 0 <= d <= Z.abs (cur - target)) by (subst d; lia).
  split.
  { f_equal. rewrite Z2Nat.id by lia. destruct Hinc as [[-> _]|[-> _]]; lia. }
  split; [reflexivity|]. split.
  - rewrite afterWrites_app, head_afterWrites_ramp. do 2 f_equal.
    rewrite Z2Nat.id by lia. destruct Hinc as [[-> _]|[-> _]]; lia.
  - intros Hlt Hpos. destruct Hinc as [[_ ?]|[Hi _]]; [lia|].
    split; [subst d; lia|].
    apply elem_of_afterWrites. left. apply elem_of_app. right.
    apply elem_of_cons. left. rewrite Hi. lia.
Qed.

Lemma ClampDC_openClamp_ends_fully_opened_witness :
  fst (HotplateClampDCMotor.openClamp HotplateClampDCMotor.defaultConfig 90 20
         (HotplateClampDCMotor.Clamp 0 0) (HotplateClamp.Board 0 0 []))
  = HotplateClampDCMotor.Clamp 180 0.
Proof.
  pose proof (ClampDC_openClamp_ends_fully_opened HotplateClampDCMotor.defaultConfig 90 20
                (HotplateClampDCMotor.Clamp 0 0) (HotplateClamp.Board 0 0 [])) as H.
  cbv zeta in H.
  specialize (H ltac:(cbn; unfold smallInt; lia) ltac:(cbn; unfold smallInt; lia)
                ltac:(cbn; unfold smallInt; lia) ltac:(lia) ltac:(cbn; lia)).
  destruct (HotplateClampDCMotor.openClamp _ _ _ _ _) as [this' b'].
  destruct H as (H & _). exact H.
Defined.

(** X19.  [openClamp] of the stepper clamp does stop at the requested
    angle ([servoOpenedPos] when none is given): it writes [d] single
    degrees from the current position towards the target, [d] being the
    smaller of the slow-down and the distance, and then the target itself,
    which the object records.  No angle outside the way from the old
    position to the target is written; the stage position and the error
    code are left alone. *)
Theorem ClampStepper_openClamp_lands_on_target
    (cfg : HotplateClampStepperMotor.config) (servoPos slowdownDegrees : Z)
    (this : HotplateClampStepperMotor.clamp) (b : HotplateClamp.board) :
  let cur := HotplateClampStepperMotor.currentServoPos this in
  let target :=
    if servoPos =? -1 then HotplateClampStepperMotor.servoOpenedPos cfg else servoPos in
  let inc := if target <? cur then -1 else 1 in
  let d := Z.min (Z.abs (cur - target)) slowdownDegrees in
  smallInt cur -> smallInt target -> smallInt slowdownDegrees -> target <> cur ->
  let '(this', b') :=
    HotplateClampStepperMotor.openClamp cfg servoPos slowdownDegrees this b in
  this' = HotplateClampStepperMotor.Clamp (HotplateClampStepperMotor.currentPos this)
            target (HotplateClampStepperMotor.errors this)
  /\ b' = afterWrites (ramp (Z.to_nat d) inc cur ++ [target]) b
  /\ head (HotplateClamp.actions b') = Some (HotplateClamp.ServoWrite target)
  /\ forall a, HotplateClamp.ServoWrite a ∈ HotplateClamp.actions b' ->
       HotplateClamp.ServoWrite a ∈ HotplateClamp.actions b
       \/ Z.min cur target <= a <= Z.max cur target.
Proof.
  intros cur target inc d Hcur Htarget Hsd Hne. unfold smallInt in *.
  unfold HotplateClampStepperMotor.openClamp.
  fold cur target. destruct (Z.eqb_spec target cur) as [|_]; [contradiction|].
  replace (target <=? cur) with (target <? cur)
    by (destruct (Z.ltb_spec target cur), (Z.leb_spec target cur); lia || reflexivity).
  fold inc d. rewrite !creep_ramp. cbv beta iota.
  rewrite <- afterWrites_snoc.
  assert (Hinc : inc = 1 /\ cur < target \/ inc = -1 /\ target < cur).
  { subst inc. destruct (Z.ltb_spec target cur); lia. }
  split; [reflexivity|]. split; [reflexivity|]. split.
  - apply head_afterWrites_snoc.
  - intros a Ha. apply elem_of_afterWrites in Ha as [Ha|Ha]; [right|left; exact Ha].
    apply elem_of_app in Ha as [Ha|Ha].
    + apply ramp_elem in Ha as (i & Hi & ->).
      assert (Hd : Z.of_nat i <= Z.abs (cur - target)) by (subst d; lia).
      destruct Hinc as [[-> ?]|[-> ?]]; lia.
    + apply list_elem_of_singleton in Ha as ->. lia.
Qed.

Lemma ClampStepper_openClamp_lands_on_target_witness :
  fst (HotplateClampStepperMotor.openClamp HotplateClampStepperMotor.defaultConfig 90 20
         (HotplateClampStepperMotor.Clamp 100 0 0) (HotplateClamp.Board 0 0 []))
  = HotplateClampStepperMotor.Clamp 100 90 0.
Proof.
  pose proof (ClampStepper_openClamp_lands_on_target HotplateClampStepperMotor.defaultConfig
                90 20 (HotplateClampStepperMotor.Clamp 100 0 0)
                (HotplateClamp.Board 0 0 [])) as H.
  cbv zeta in H.
  specialize (H ltac:(cbn; unfold smallInt; lia) ltac:(cbn; unfold smallInt; lia)
                ltac:(unfold smallInt; lia) ltac:(cbn; lia)).
  destruct (HotplateClampStepperMotor.openClamp _ _ _ _ _) as [this' b'].
  destruct H as (H & _). exact H.
Defined.

Section StageMoves.
Import HotplateClamp.
Variables (switch : limitSwitch -> nat -> bool) (clock : nat -> Z).

(** The wait for a limit switch of the DC-motor clamp does nothing to the
    stage; it ends after a reading of the switch that is LOW, or after a
    call of [millis] that finds the 30 s over. *)
Lemma ClampDC_waitForSwitch_spec fuel :
  forall pin startTime b b',
    HotplateClampDCMotor.waitForSwitch switch clock fuel pin startTime b = Done b' ->
    actions b' = actions b
    /\ (switchReads b < switchReads b')%nat
    /\ (millisCalls b <= millisCalls b')%nat
    /\ (switch pin (pred (switchReads b')) = false
        \/ (millisCalls b < millisCalls b')%nat
           /\ clockRunsOut clock startTime 30000 (pred (millisCalls b'))).
Proof.
  induction fuel as [|fuel IH]; intros pin st b b' H; [discriminate|].
  cbn [HotplateClampDCMotor.waitForSwitch digitalRead millis] in H.
  destruct (switch pin (switchReads b)) eqn:Es.
  - destruct (isTimedOut _ _ _) eqn:Et; cbn [negb] in H.
    + injection H as <-. cbn. repeat split; try lia. right. split; [lia|exact Et].
    + apply IH in H. cbn in H. destruct H as (Ha & Hs & Hm & Hend).
      repeat split; try lia; try assumption.
      destruct Hend as [Hl|[Hlt Hc]]; [left; exact Hl|right; split; [lia|exact Hc]].
  - injection H as <-. cbn. repeat split; try lia. left. exact Es.
Qed.

Lemma ClampStepper_homingLoop_spec fuel :
  forall startTime b b',
    HotplateClampStepperMotor.homingLoop switch clock fuel startTime b = Done b' ->
    (exists k : nat, actions b' = replicate k (RunSpeed 600) ++ actions b)
    /\ (switchReads b < switchReads b')%nat
    /\ (millisCalls b <= millisCalls b')%nat.
Proof.
  induction fuel as [|fuel IH]; intros st b b' H; [discriminate|].
  cbn [HotplateClampStepperMotor.homingLoop digitalRead millis] in H.
  destruct (switch SwitchHome (switchReads b)) eqn:Es.
  - destruct (isTimedOut _ _ _) eqn:Et; cbn [negb] in H.
    + injection H as <-. cbn. repeat split; try lia. exists 0%nat. reflexivity.
    + apply IH in H. cbn in H. destruct H as ((k & Ha) & Hs & Hm).
      repeat split; try lia. exists (S k). rewrite Ha.
      change (1 * Z.abs 600) with 600.
      rewrite replicate_S_end, <- app_assoc. reflexivity.
  - injection H as <-. cbn. repeat split; try lia. exists 0%nat. reflexivity.
Qed.
End StageMoves.

(** X20.  [goUp()] and [goDown()] of the DC-motor clamp start the motor,
    wait for the limit switch, stop the motor and read the switch once
    more: that last reading alone decides.  HIGH: the call returns [false]
    with error code 3, and nothing else was done to the motor.  LOW: the
    motor is run the other way and stopped again, and the call returns
    [true] with the object unchanged; the error code of an earlier
    failure is not cleared.  Either way the motor is stopped at the end,
    and the servo is not touched. *)
Theorem ClampDC_stage_moves_outcomes
    (switch : HotplateClamp.limitSwitch -> nat -> bool) (clock : nat -> Z)
    (fuel : nat) (this : HotplateClampDCMotor.clamp) (b : HotplateClamp.board) :
  (forall ret this' b',
      HotplateClampDCMotor.goUp switch clock fuel this b = Done (ret, this', b') ->
      ret = negb (switch HotplateClamp.SwitchUp (pred (HotplateClamp.switchReads b')))
      /\ (if ret
          then this' = this
               /\ HotplateClamp.actions b'
                  = [HotplateClamp.StagePins false false; HotplateClamp.StagePins false true;
                     HotplateClamp.StagePins false false; HotplateClamp.StagePins true false]
                    ++ HotplateClamp.actions b
          else this' = HotplateClampDCMotor.Clamp
                         (HotplateClampDCMotor.currentServoPos this) 3
               /\ HotplateClamp.actions b'
                  = [HotplateClamp.StagePins false false; HotplateClamp.StagePins true false]
                    ++ HotplateClamp.actions b))
  /\ (forall ret this' b',
         HotplateClampDCMotor.goDown switch clock fuel this b = Done (ret, this', b') ->
         ret = negb (switch HotplateClamp.SwitchDown (pred (HotplateClamp.switchReads b')))
         /\ (if ret
             then this' = this
                  /\ HotplateClamp.actions b'
                     = [HotplateClamp.StagePins false false;
                        HotplateClamp.StagePins true false;
                        HotplateClamp.StagePins false false;
                        HotplateClamp.StagePins false true]
                       ++ HotplateClamp.actions b
             else this' = HotplateClampDCMotor.Clamp
                            (HotplateClampDCMotor.currentServoPos this) 3
                  /\ HotplateClamp.actions b'
                     = [HotplateClamp.StagePins false false;
                        HotplateClamp.StagePins false true]
                       ++ HotplateClamp.actions b)).
Proof.
  split; intros ret this' b';
    unfold HotplateClampDCMotor.goUp, HotplateClampDCMotor.goDown;
    cbn [HotplateClamp.millis];
    (destruct (HotplateClampDCMotor.waitForSwitch _ _ _ _ _ _) as [b1| |] eqn:E;
     try discriminate);
    apply ClampDC_waitForSwitch_spec in E; destruct E as (Ha & _);
    cbn [mbind result_mbind bind HotplateClamp.digitalRead HotplateClamp.act
         HotplateClamp.switchReads HotplateClamp.actions] in *;
    match goal with
    | |- context [if switch ?p ?k then _ else _] => destruct (switch p k) eqn:Es
    end;
    intros [= <- <- <-]; cbn; rewrite Es, Ha; auto.
Qed.

Lemma ClampDC_stage_moves_outcomes_witness :
  true = negb (releasedAfter 5 HotplateClamp.SwitchUp
                 (pred (HotplateClamp.switchReads
                          (HotplateClamp.Board 7 6
                             [HotplateClamp.StagePins false false;
                              HotplateClamp.StagePins false true;
                              HotplateClamp.StagePins false false;
                              HotplateClamp.StagePins true false]))))
  /\ HotplateClampDCMotor.Clamp 180 3 = HotplateClampDCMotor.Clamp 180 3
  /\ HotplateClamp.actions
       (HotplateClamp.Board 7 6
          [HotplateClamp.StagePins false false; HotplateClamp.StagePins false true;
           HotplateClamp.StagePins false false; HotplateClamp.StagePins true false])
     = [HotplateClamp.StagePins false false; HotplateClamp.StagePins false true;
        HotplateClamp.StagePins false false; HotplateClamp.StagePins true false]
       ++ HotplateClamp.actions (HotplateClamp.Board 0 0 []).
Proof.
  apply (proj1 (ClampDC_stage_moves_outcomes (releasedAfter 5) steadyClock 10
                  (HotplateClampDCMotor.Clamp 180 3) (HotplateClamp.Board 0 0 []))
           true (HotplateClampDCMotor.Clamp 180 3)
           (HotplateClamp.Board 7 6
              [HotplateClamp.StagePins false false; HotplateClamp.StagePins false true;
               HotplateClamp.StagePins false false; HotplateClamp.StagePins true false])).
  vm_compute. reflexivity.
Defined.

(** X21.  [homePosition] of the stepper clamp wakes the driver, runs the
    stepper at 600 steps per second while the switch reads HIGH, puts the
    driver to sleep and reads the switch once more: that last reading
    alone decides.  LOW: the call returns [true] and the stage position is
    0; the error code is not cleared.  HIGH: it returns [false] with
    error code 1 and the stage position unchanged.  Nothing but the stepper
    is moved, the driver is asleep at the end, and the servo position is
    kept. *)
Theorem ClampStepper_homePosition_outcomes
    (switch : HotplateClamp.limitSwitch -> nat -> bool) (clock : nat -> Z)
    (fuel : nat) (this this' : HotplateClampStepperMotor.clamp)
    (b b' : HotplateClamp.board) (ret : bool) :
  HotplateClampStepperMotor.homePosition switch clock fuel this b = Done (ret, this', b') ->
  ret = negb (switch HotplateClamp.SwitchHome (pred (HotplateClamp.switchReads b')))
  /\ this' = (if ret
              then HotplateClampStepperMotor.Clamp 0
                     (HotplateClampStepperMotor.currentServoPos this)
                     (HotplateClampStepperMotor.errors this)
              else HotplateClampStepperMotor.Clamp
                     (HotplateClampStepperMotor.currentPos this)
                     (HotplateClampStepperMotor.currentServoPos this) 1)
  /\ exists k : nat,
       HotplateClamp.actions b'
       = HotplateClamp.StageSleepPin false
         :: replicate k (HotplateClamp.RunSpeed 600)
         ++ HotplateClamp.StageSleepPin true :: HotplateClamp.actions b.
Proof.
  unfold HotplateClampStepperMotor.homePosition. cbn [HotplateClamp.millis].
  destruct (HotplateClampStepperMotor.homingLoop _ _ _ _ _) as [b1| |] eqn:E;
    try discriminate.
  apply ClampStepper_homingLoop_spec in E. destruct E as ((k & Ha) & _).
  cbn [mbind result_mbind bind HotplateClamp.digitalRead HotplateClamp.act
       HotplateClamp.switchReads HotplateClamp.actions] in *.
  destruct (switch HotplateClamp.SwitchHome (HotplateClamp.switchReads b1)) eqn:Es;
    intros [= <- <- <-]; cbn; rewrite Es, Ha; repeat split; exists k; reflexivity.
Qed.

Lemma ClampStepper_homePosition_outcomes_witness :
  true = negb (releasedAfter 3 HotplateClamp.SwitchHome
                 (pred (HotplateClamp.switchReads
                          (HotplateClamp.Board 5 4
                             [HotplateClamp.StageSleepPin false; HotplateClamp.RunSpeed 600;
                              HotplateClamp.RunSpeed 600; HotplateClamp.RunSpeed 600;
                              HotplateClamp.StageSleepPin true]))))
  /\ HotplateClampStepperMotor.Clamp 0 180 0
     = HotplateClampStepperMotor.Clamp 0
         (HotplateClampStepperMotor.currentServoPos
            (HotplateClampStepperMotor.Clamp 100 180 0))
         (HotplateClampStepperMotor.errors (HotplateClampStepperMotor.Clamp 100 180 0))
  /\ exists k : nat,
       HotplateClamp.actions
         (HotplateClamp.Board 5 4
            [HotplateClamp.StageSleepPin false; HotplateClamp.RunSpeed 600;
             HotplateClamp.RunSpeed 600; HotplateClamp.RunSpeed 600;
             HotplateClamp.StageSleepPin true])
       = HotplateClamp.StageSleepPin false
         :: replicate k (HotplateClamp.RunSpeed 600)
         ++ HotplateClamp.StageSleepPin true
            :: HotplateClamp.actions (HotplateClamp.Board 0 0 []).
Proof.
  apply (ClampStepper_homePosition_outcomes (releasedAfter 3) secondsClock 40
           (HotplateClampStepperMotor.Clamp 100 180 0)
           (HotplateClampStepperMotor.Clamp 0 180 0)
           (HotplateClamp.Board 0 0 [])
           (HotplateClamp.Board 5 4
              [HotplateClamp.StageSleepPin false; HotplateClamp.RunSpeed 600;
               HotplateClamp.RunSpeed 600; HotplateClamp.RunSpeed 600;
               HotplateClamp.StageSleepPin true])
           true).
  vm_compute. reflexivity.
Defined.

Section StageMovesEnd.
Import HotplateClamp.
Variables (switch : limitSwitch -> nat -> bool) (clock : nat -> Z).

Lemma ClampDC_waitForSwitch_ends n :
  forall fuel pin startTime b,
    (n < fuel)%nat ->
    clockRunsOut clock startTime 30000 (millisCalls b + n)
    \/ switch pin (switchReads b + n) = false ->
    exists b', HotplateClampDCMotor.waitForSwitch switch clock fuel pin startTime b = Done b'.
Proof.
  induction n as [|n IH]; intros fuel pin st b Hf H;
    (destruct fuel as [|fuel]; [lia|]);
    cbn [HotplateClampDCMotor.waitForSwitch digitalRead millis];
    (destruct (switch pin (switchReads b)) eqn:Es; [|eexists; reflexivity]);
    (destruct (isTimedOut _ _ _) eqn:Et; cbn [negb]; [eexists; reflexivity|]).
  - exfalso. rewrite !Nat.add_0_r in H. unfold clockRunsOut in H.
    cbn [millisCalls switchReads] in Et. destruct H; congruence.
  - apply IH; [lia|]. cbn [millisCalls switchReads].
    rewrite <- !Nat.add_succ_comm in H. exact H.
Qed.

Lemma ClampStepper_homingLoop_ends n :
  forall fuel startTime b,
    (n < fuel)%nat ->
    clockRunsOut clock startTime 30000 (millisCalls b + n)
    \/ switch SwitchHome (switchReads b + n) = false ->
    exists b', HotplateClampStepperMotor.homingLoop switch clock fuel startTime b = Done b'.
Proof.
  induction n as [|n IH]; intros fuel st b Hf H;
    (destruct fuel as [|fuel]; [lia|]);
    cbn [HotplateClampStepperMotor.homingLoop digitalRead millis];
    (destruct (switch SwitchHome (switchReads b)) eqn:Es; [|eexists; reflexivity]);
    (destruct (isTimedOut _ _ _) eqn:Et; cbn [negb]; [eexists; reflexivity|]).
  - exfalso. rewrite !Nat.add_0_r in H. unfold clockRunsOut in H.
    cbn [millisCalls switchReads] in Et. destruct H; congruence.
  - apply IH; [lia|]. cbn [millisCalls switchReads act].
    rewrite <- !Nat.add_succ_comm in H. exact H.
Qed.
End StageMovesEnd.

(** X22.  The moves of the stage to a limit switch cannot hang: [goUp()],
    [goDown()] and [homePosition()] return as soon as a reading of the
    switch is LOW or a call of [millis] finds the 30 s over, whichever
    comes first. *)
Theorem stage_moves_return
    (switch : HotplateClamp.limitSwitch -> nat -> bool) (clock : nat -> Z)
    (n fuel : nat) (dc : HotplateClampDCMotor.clamp)
    (stepper : HotplateClampStepperMotor.clamp) (b : HotplateClamp.board) :
  (n < fuel)%nat ->
  clockRunsOut clock (wrap32 (clock (HotplateClamp.millisCalls b))) 30000
    (S (HotplateClamp.millisCalls b) + n)
  \/ (forall pin, switch pin (HotplateClamp.switchReads b + n)%nat = false) ->
  (exists out, HotplateClampDCMotor.goUp switch clock fuel dc b = Done out)
  /\ (exists out, HotplateClampDCMotor.goDown switch clock fuel dc b = Done out)
  /\ (exists out, HotplateClampStepperMotor.homePosition switch clock fuel stepper b
                  = Done out).
Proof.
  intros Hf H.
  unfold HotplateClampDCMotor.goUp, HotplateClampDCMotor.goDown,
    HotplateClampStepperMotor.homePosition.
  cbn [HotplateClamp.millis].
  split; [|split].
  1, 2: match goal with
        | |- context [HotplateClampDCMotor.waitForSwitch _ _ _ ?p ?st ?b0] =>
          destruct (ClampDC_waitForSwitch_ends switch clock n fuel p st b0 Hf) as (b1 & ->)
        end;
    [ destruct H as [H|H]; [left; exact H|right; apply H]
    | cbn [mbind result_mbind bind HotplateClamp.digitalRead];
      destruct (switch _ _); eexists; reflexivity ].
  match goal with
  | |- context [HotplateClampStepperMotor.homingLoop _ _ _ ?st ?b0] =>
    destruct (ClampStepper_homingLoop_ends switch clock n fuel st b0 Hf) as (b1 & ->)
  end;
    [ destruct H as [H|H]; [left; exact H|right; apply H]
    | cbn [mbind result_mbind bind HotplateClamp.digitalRead];
      destruct (switch _ _); eexists; reflexivity ].
Qed.

Lemma stage_moves_return_witness :
  (exists out,
      HotplateClampDCMotor.goUp neverReleased secondsClock 40
        (HotplateClampDCMotor.Clamp 180 0) (HotplateClamp.Board 0 0 []) = Done out)
  /\ (exists out,
         HotplateClampDCMotor.goDown neverReleased secondsClock 40
           (HotplateClampDCMotor.Clamp 180 0) (HotplateClamp.Board 0 0 []) = Done out)
  /\ (exists out,
         HotplateClampStepperMotor.homePosition neverReleased secondsClock 40
           (HotplateClampStepperMotor.Clamp 100 180 0) (HotplateClamp.Board 0 0 [])
         = Done out).
Proof.
  apply (stage_moves_return neverReleased secondsClock 30 40
           (HotplateClampDCMotor.Clamp 180 0) (HotplateClampStepperMotor.Clamp 100 180 0)
           (HotplateClamp.Board 0 0 [])).
  - lia.
  - left. vm_compute. reflexivity.
Defined.

Section ClosedForms.
Import HotplateClamp.

Lemma inc_direction (target cur : Z) :
  target <> cur ->
  (if target <=? cur then -1 else 1) = (if target <? cur then -1 else 1).
Proof.
  intros H. destruct (Z.ltb_spec target cur), (Z.leb_spec target cur); lia || reflexivity.
Qed.

Lemma ClampDC_closeClamp_closed_form cfg servoPos slowdownDegrees this b :
  let cur := HotplateClampDCMotor.currentServoPos this in
  let target :=
    if servoPos =? -1 then HotplateClampDCMotor.servoClosedPos cfg else servoPos in
  let inc := if target <? cur then -1 else 1 in
  let d := Z.min (Z.abs (cur - target)) slowdownDegrees in
  target <> cur ->
  HotplateClampDCMotor.closeClamp cfg servoPos slowdownDegrees this b
  = (HotplateClampDCMotor.Clamp target (HotplateClampDCMotor.errors this),
     afterWrites ((target - inc * d) :: ramp (Z.to_nat d) inc (target - inc * d)) b).
Proof.
  intros cur target inc d Hne. unfold HotplateClampDCMotor.closeClamp.
  fold cur target. destruct (Z.eqb_spec target cur) as [|_]; [contradiction|].
  rewrite inc_direction by assumption. fold inc d.
  rewrite creep_ramp, <- afterWrites_cons. reflexivity.
Qed.

Lemma ClampDC_openClamp_closed_form cfg servoPos slowdownDegrees this b :
  let opened := HotplateClampDCMotor.servoOpenedPos cfg in
  let cur := HotplateClampDCMotor.currentServoPos this in
  let target := if servoPos =? -1 then opened else servoPos in
  let inc := if target <? cur then -1 else 1 in
  let d := Z.min (Z.abs (cur - target)) slowdownDegrees in
  target <> cur -> 0 <= slowdownDegrees ->
  HotplateClampDCMotor.openClamp cfg servoPos slowdownDegrees this b
  = (HotplateClampDCMotor.Clamp opened (HotplateClampDCMotor.errors this),
     afterWrites
       (ramp (Z.to_nat d) inc cur
        ++ (opened - inc * d) :: ramp (Z.to_nat d) inc (opened - inc * d)) b).
Proof.
  intros opened cur target inc d Hne Hsd. unfold HotplateClampDCMotor.openClamp.
  fold opened cur target. destruct (Z.eqb_spec target cur) as [|_]; [contradiction|].
  rewrite inc_direction by assumption. fold inc d.
  rewrite !creep_ramp. cbv beta iota.
  rewrite <- afterWrites_cons, <- afterWrites_app. f_equal. f_equal.
  rewrite Z2Nat.id by (subst d; lia). lia.
Qed.

Lemma ClampStepper_closeClamp_closed_form cfg servoPos slowdownDegrees this b :
  let cur := HotplateClampStepperMotor.currentServoPos this in
  let target :=
    if servoPos =? -1 then HotplateClampStepperMotor.servoClosedPos cfg else servoPos in
  let inc := if target <? cur then -1 else 1 in
  let d := Z.min (Z.abs (cur - target)) slowdownDegrees in
  target <> cur ->
  HotplateClampStepperMotor.closeClamp cfg servoPos slowdownDegrees this b
  = (HotplateClampStepperMotor.Clamp (HotplateClampStepperMotor.currentPos this) target
       (HotplateClampStepperMotor.errors this),
     afterWrites ((target - inc * d) :: ramp (Z.to_nat d) inc (target - inc * d)) b).
Proof.
  intros cur target inc d Hne. unfold HotplateClampStepperMotor.closeClamp.
  fold cur target. destruct (Z.eqb_spec target cur) as [|_]; [contradiction|].
  rewrite inc_direction by assumption. fold inc d.
  rewrite creep_ramp, <- afterWrites_cons. reflexivity.
Qed.

Lemma ClampStepper_openClamp_closed_form cfg servoPos slowdownDegrees this b :
  let cur := HotplateClampStepperMotor.currentServoPos this in
  let target :=
    if servoPos =? -1 then HotplateClampStepperMotor.servoOpenedPos cfg else servoPos in
  let inc := if target <? cur then -1 else 1 in
  let d := Z.min (Z.abs (cur - target)) slowdownDegrees in
  target <> cur ->
  HotplateClampStepperMotor.openClamp cfg servoPos slowdownDegrees this b
  = (HotplateClampStepperMotor.Clamp (HotplateClampStepperMotor.currentPos this) target
       (HotplateClampStepperMotor.errors this),
     afterWrites (ramp (Z.to_nat d) inc cur ++ [target]) b).
Proof.
  intros cur target inc d Hne. unfold HotplateClampStepperMotor.openClamp.
  fold cur target. destruct (Z.eqb_spec target cur) as [|_]; [contradiction|].
  rewrite inc_direction by assumption. fold inc d.
  rewrite creep_ramp, <- afterWrites_snoc. reflexivity.
Qed.

Lemma afterWrites_actions_length angles b :
  length (actions (afterWrites angles b)) = (length angles + length (actions b))%nat.
Proof.
  unfold afterWrites. cbn [actions].
  rewrite length_app, length_reverse, length_fmap. reflexivity.
Qed.
End ClosedForms.

(** X23.  Closing and opening again.  From the state the constructor
    leaves (servo at [servoOpenedPos]), [closeClamp()] followed by
    [openClamp()] brings the object of either clamp class back to exactly
    that state, with the servo last sent to [servoOpenedPos] and, in
    between, to [servoClosedPos].  With [c] and [o] the smaller of the
    distance between the two positions and the respective slow-down, the
    DC-motor clamp writes to the servo [c + 1] times for closing and
    [2 * o + 1] times for opening, the stepper clamp [c + 1] and [o + 1]
    times. *)
Theorem clamp_close_then_open
    (closed opened slowClose slowOpen : Z) (b : HotplateClamp.board) :
  smallInt closed -> smallInt opened -> closed <> opened ->
  0 <= slowClose <= 8000 -> 0 <= slowOpen <= 8000 ->
  let c := Z.to_nat (Z.min (Z.abs (opened - closed)) slowClose) in
  let o := Z.to_nat (Z.min (Z.abs (opened - closed)) slowOpen) in
  (let cfg := HotplateClampDCMotor.Config closed opened in
   let '(this0, b0) := HotplateClampDCMotor.construct cfg b in
   let '(this1, b1) := HotplateClampDCMotor.closeClamp cfg (-1) slowClose this0 b0 in
   let '(this2, b2) := HotplateClampDCMotor.openClamp cfg (-1) slowOpen this1 b1 in
   HotplateClampDCMotor.currentServoPos this1 = closed
   /\ head (HotplateClamp.actions b1) = Some (HotplateClamp.ServoWrite closed)
   /\ this2 = this0
   /\ head (HotplateClamp.actions b2) = Some (HotplateClamp.ServoWrite opened)
   /\ length (HotplateClamp.actions b1) = (c + 1 + length (HotplateClamp.actions b0))%nat
   /\ length (HotplateClamp.actions b2)
      = (2 * o + 1 + length (HotplateClamp.actions b1))%nat)
  /\ (let cfg := HotplateClampStepperMotor.Config closed opened in
      let '(this0, b0) := HotplateClampStepperMotor.construct cfg b in
      let '(this1, b1) := HotplateClampStepperMotor.closeClamp cfg (-1) slowClose this0 b0 in
      let '(this2, b2) := HotplateClampStepperMotor.openClamp cfg (-1) slowOpen this1 b1 in
      HotplateClampStepperMotor.currentServoPos this1 = closed
      /\ head (HotplateClamp.actions b1) = Some (HotplateClamp.ServoWrite closed)
      /\ this2 = this0
      /\ head (HotplateClamp.actions b2) = Some (HotplateClamp.ServoWrite opened)
      /\ length (HotplateClamp.actions b1) = (c + 1 + length (HotplateClamp.actions b0))%nat
      /\ length (HotplateClamp.actions b2) = (o + 1 + length (HotplateClamp.actions b1))%nat).
Proof.
  intros Hc Ho Hne Hsc Hso c o. unfold smallInt in *.
  assert (Hinc : forall x y : Z, x <> y ->
             (if x <? y then -1 else 1) = 1 /\ y < x
             \/ (if x <? y then -1 else 1) = -1 /\ x < y).
  { intros x y H. destruct (Z.ltb_spec x y); lia. }
  split; cbv zeta.
  - unfold HotplateClampDCMotor.construct.
    rewrite ClampDC_closeClamp_closed_form
      by (cbn [HotplateClampDCMotor.currentServoPos HotplateClampDCMotor.servoClosedPos];
          rewrite Z.eqb_refl; assumption).
    cbv beta iota.
    rewrite ClampDC_openClamp_closed_form
      by (cbn [HotplateClampDCMotor.currentServoPos HotplateClampDCMotor.servoOpenedPos
               HotplateClampDCMotor.servoClosedPos];
          rewrite ?Z.eqb_refl; lia).
    cbn [HotplateClampDCMotor.currentServoPos HotplateClampDCMotor.servoClosedPos
         HotplateClampDCMotor.servoOpenedPos HotplateClampDCMotor.errors].
    rewrite !Z.eqb_refl. fold c. replace (Z.abs (closed - opened)) with (Z.abs (opened - closed)) by lia. fold o.
    split; [reflexivity|]. split.
    { rewrite head_afterWrites_ramp. do 2 f_equal. subst c. rewrite Z2Nat.id by lia.
      destruct (Hinc closed opened Hne) as [[-> ?]|[-> ?]]; lia. }
    split; [reflexivity|]. split.
    { rewrite afterWrites_app, head_afterWrites_ramp. do 2 f_equal.
      subst o. rewrite Z2Nat.id by lia.
      destruct (Hinc opened closed ltac:(lia)) as [[-> ?]|[-> ?]]; lia. }
    rewrite !afterWrites_actions_length. cbn [length]. rewrite length_app. cbn [length].
    rewrite !ramp_length. split; lia.
  - unfold HotplateClampStepperMotor.construct.
    rewrite ClampStepper_closeClamp_closed_form
      by (cbn [HotplateClampStepperMotor.currentServoPos
               HotplateClampStepperMotor.servoClosedPos];
          rewrite Z.eqb_refl; assumption).
    cbv beta iota.
    rewrite ClampStepper_openClamp_closed_form
      by (cbn [HotplateClampStepperMotor.currentServoPos
               HotplateClampStepperMotor.servoOpenedPos
               HotplateClampStepperMotor.servoClosedPos];
          rewrite ?Z.eqb_refl; lia).
    cbn [HotplateClampStepperMotor.currentServoPos HotplateClampStepperMotor.servoClosedPos
         HotplateClampStepperMotor.servoOpenedPos HotplateClampStepperMotor.errors
         HotplateClampStepperMotor.currentPos].
    rewrite !Z.eqb_refl. fold c. replace (Z.abs (closed - opened)) with (Z.abs (opened - closed)) by lia. fold o.
    split; [reflexivity|]. split.
    { rewrite head_afterWrites_ramp. do 2 f_equal. subst c. rewrite Z2Nat.id by lia.
      destruct (Hinc closed opened Hne) as [[-> ?]|[-> ?]]; lia. }
    split; [reflexivity|]. split; [apply head_afterWrites_snoc|].
    rewrite !afterWrites_actions_length. cbn [length]. rewrite length_app. cbn [length].
    rewrite !ramp_length. split; lia.
Qed.

Lemma clamp_close_then_open_witness :
  let c := Z.to_nat (Z.min (Z.abs (180 - 0)) 25) in
  let o := Z.to_nat (Z.min (Z.abs (180 - 0)) 20) in
  (let cfg := HotplateClampDCMotor.Config 0 180 in
   let '(this0, b0) := HotplateClampDCMotor.construct cfg (HotplateClamp.Board 0 0 []) in
   let '(this1, b1) := HotplateClampDCMotor.closeClamp cfg (-1) 25 this0 b0 in
   let '(this2, b2) := HotplateClampDCMotor.openClamp cfg (-1) 20 this1 b1 in
   HotplateClampDCMotor.currentServoPos this1 = 0
   /\ head (HotplateClamp.actions b1) = Some (HotplateClamp.ServoWrite 0)
   /\ this2 = this0
   /\ head (HotplateClamp.actions b2) = Some (HotplateClamp.ServoWrite 180)
   /\ length (HotplateClamp.actions b1) = (c + 1 + length (HotplateClamp.actions b0))%nat
   /\ length (HotplateClamp.actions b2)
      = (2 * o + 1 + length (HotplateClamp.actions b1))%nat)
  /\ (let cfg := HotplateClampStepperMotor.Config 0 180 in
      let '(this0, b0) :=
        HotplateClampStepperMotor.construct cfg (HotplateClamp.Board 0 0 []) in
      let '(this1, b1) := HotplateClampStepperMotor.closeClamp cfg (-1) 25 this0 b0 in
      let '(this2, b2) := HotplateClampStepperMotor.openClamp cfg (-1) 20 this1 b1 in
      HotplateClampStepperMotor.currentServoPos this1 = 0
      /\ head (HotplateClamp.actions b1) = Some (HotplateClamp.ServoWrite 0)
      /\ this2 = this0
      /\ head (HotplateClamp.actions b2) = Some (HotplateClamp.ServoWrite 180)
      /\ length (HotplateClamp.actions b1) = (c + 1 + length (HotplateClamp.actions b0))%nat
      /\ length (HotplateClamp.actions b2) = (o + 1 + length (HotplateClamp.actions b1))%nat).
Proof.
  apply (clamp_close_then_open 0 180 25 20 (HotplateClamp.Board 0 0 []));
    unfold smallInt; lia.
Defined.


(** ** The pressure sensor of the capper *)

Lemma CapperDecapper_accumulate_bounds adc lo hi n :
  forall acc k,
    (forall i, (k <= i < k + n)%nat -> lo <= adc i <= hi) ->
    let '(sum, k') := CapperDecapper.accumulate adc n acc k in
    acc + Z.of_nat n * lo <= sum <= acc + Z.of_nat n * hi /\ k' = (k + n)%nat.
Proof.
  induction n as [|n IH]; intros acc k H; cbn [CapperDecapper.accumulate].
  - split; lia.
  - specialize (IH (acc + adc k) (S k) ltac:(intros i Hi; apply H; lia)).
    destruct (CapperDecapper.accumulate adc n (acc + adc k) (S k)) as [sum k'].
    pose proof (H k ltac:(lia)). split; lia.
Qed.

Lemma CapperDecapper_accumulate_sum adc n :
  forall acc k,
    CapperDecapper.accumulate adc n acc k
    = (acc + foldr Z.add 0 (adc <$> seq k n), (k + n)%nat).
Proof.
  induction n as [|n IH]; intros acc k; cbn [CapperDecapper.accumulate seq fmap list_fmap foldr].
  - f_equal; lia.
  - rewrite IH. f_equal; lia.
Qed.

(** X24.  [readPressureSensor] of the capper discards one conversion and
    returns the mean of the next [averages] ones, truncated as the [long]
    division does: for [averages] between 1 and 255 the value returned is
    their sum divided by [averages], at most [averages - 1] short of the
    exact mean times [averages] when the conversions are not negative; if
    the conversions lie in [lo, hi], so does the value returned; and
    [averages + 1] conversions have been made. *)
Theorem CapperDecapper_readPressureSensor_mean
    (adc : nat -> Z) (averages : Z) (k : nat) (lo hi : Z) :
  let sum := foldr Z.add 0 (adc <$> seq (S k) (Z.to_nat averages)) in
  let mean := Z.quot sum averages in
  1 <= averages <= 255 ->
  (forall i, (1 <= i)%nat -> Z.of_nat i <= averages -> lo <= adc (k + i)%nat <= hi) ->
  CapperDecapper.readPressureSensor adc averages k
  = Some (mean, (k + Z.to_nat averages + 1)%nat)
  /\ (0 <= lo -> averages * mean <= sum < averages * mean + averages)
  /\ lo <= mean <= hi.
Proof.
  intros sum mean Ha H.
  pose proof (CapperDecapper_accumulate_bounds adc lo hi (Z.to_nat averages) 0 (S k)) as Hb.
  unfold CapperDecapper.readPressureSensor.
  rewrite CapperDecapper_accumulate_sum in Hb |- *.
  fold sum in Hb |- *. rewrite Z.add_0_l in Hb |- *. fold mean.
  destruct Hb as [Hsum _].
  { intros i Hi. replace i with (k + (i - k))%nat by lia. apply H; lia. }
  rewrite Z2Nat.id in Hsum by lia.
  destruct (Z.eqb_spec averages 0) as [|_]; [lia|].
  split; [f_equal; f_equal; lia|].
  assert (Hm : mean = Z.quot sum averages) by reflexivity.
  clearbody mean sum. subst mean.
  pose proof (Z.quot_rem' sum averages) as Hq.
  split.
  - intros Hlo. pose proof (Z.rem_bound_pos sum averages ltac:(nia) ltac:(lia)). lia.
  - rewrite <- (Z.quot_mul lo averages), <- (Z.quot_mul hi averages) by lia.
    split; apply Z.quot_le_mono; lia.
Qed.

Lemma CapperDecapper_readPressureSensor_mean_witness :
  CapperDecapper.readPressureSensor flatSensor 64 0
  = Some (Z.quot (foldr Z.add 0 (flatSensor <$> seq 1 (Z.to_nat 64))) 64,
          (0 + Z.to_nat 64 + 1)%nat)
  /\ 512 <= Z.quot (foldr Z.add 0 (flatSensor <$> seq 1 (Z.to_nat 64))) 64 <= 512.
Proof.
  destruct (CapperDecapper_readPressureSensor_mean flatSensor 64 0 512 512)
    as (Hrun & _ & Hrange).
  - lia.
  - intros i _ _. unfold flatSensor. lia.
  - split; [exact Hrun|exact Hrange].
Defined.

(** ** Error codes and their messages *)

Lemma getErrorMessage_defined (e : Z) :
  (exists msg, HelperFunctions.getErrorMessage e = Some msg) <-> 0 <= e <= 3.
Proof.
  unfold HelperFunctions.getErrorMessage.
  destruct (Z.eqb_spec e 0), (Z.eqb_spec e 1), (Z.eqb_spec e 2), (Z.eqb_spec e 3);
    split; try lia; try (intros _; eexists; reflexivity).
  intros [? [=]].
Qed.

Section Codes.
Variables (adc clock : nat -> Z).

Lemma Stepper_initializeValve_codes (cfg : Stepper.config) junk fuel this w ret this' w' :
  Stepper.initializeValve adc clock cfg junk fuel this w = Done (ret, this', w') ->
  0 <= errors this' <= 3.
Proof.
  unfold Stepper.initializeValve, Stepper.throughCensus.
  cbn [readHallSensorSignal]. rewrite Stepper_idleReads_sum. cbn [hallSensorIdleSignal].
  destruct (_ =? 0).
  { cbn [andThen]. intros [= <- <- <-]. cbn. lia. }
  destruct (Stepper.censusPhase _ _ _ _ _) as [[[this1 l] w1]| |]; try discriminate.
  cbn [mbind result_mbind bind andThen]. intros H.
  apply Stepper_afterCensus_outcomes in H. lia.
Qed.

Lemma DC_initializeValve_codes (cfg : DCMotor.config) fuel this w ret this' w' :
  DCMotor.initializeValve adc clock cfg fuel this w = Done (ret, this', w') ->
  0 <= errors this' <= 3.
Proof.
  unfold DCMotor.initializeValve, DCMotor.throughCensus.
  rewrite DC_idleReads_sum. cbn [hallSensorIdleSignal].
  destruct (_ =? 0).
  { cbn [andThen]. intros [= <- <- <-]. cbn. lia. }
  destruct (DCMotor.censusPhase _ _ _ _ _ _) as [f| |] eqn:Ec; try discriminate.
  apply DC_censusPhase_outcomes in Ec.
  destruct f as [r t w1|[this1 l] w1]; cbn [andThen].
  - intros [= <- <- <-]. lia.
  - intros H. apply DC_afterCensus_outcomes in H. lia.
Qed.
End Codes.

(** X25.  [getErrorMessage] has a [return] for the codes 0 to 3 only, with
    a different text for each and the empty text for 0 alone.  Every error
    code that the valve classes and the clamp classes can leave is one of
    them: [gotoPosition] and [initializeValve] of both valves always set a
    code from 0 to 3, and the stage moves of the clamps set 3 ([goUp],
    [goDown]) or 1 ([homePosition]: the code of the sensor error, not of
    the timeout) or leave the code as it was. *)
Theorem getErrorMessage_covers_every_code
    (adc clock : nat -> Z) (scfg : Stepper.config) (dcfg : DCMotor.config) (junk : Z)
    (switch : HotplateClamp.limitSwitch -> nat -> bool)
    (fuel : nat) (target : Z) (this : valve) (w : world)
    (dc : HotplateClampDCMotor.clamp) (stepper : HotplateClampStepperMotor.clamp)
    (b : HotplateClamp.board) :
  let defined e := exists msg, HelperFunctions.getErrorMessage e = Some msg in
  (forall e, defined e <-> 0 <= e <= 3)
  /\ (forall e, HelperFunctions.getErrorMessage e = Some String.EmptyString <-> e = 0)
  /\ (forall e e', defined e ->
        HelperFunctions.getErrorMessage e = HelperFunctions.getErrorMessage e' -> e = e')
  /\ (forall ret this' w',
        Stepper.gotoPosition adc clock scfg fuel target this w = Done (ret, this', w')
        \/ DCMotor.gotoPosition adc clock dcfg fuel target this w = Done (ret, this', w')
        \/ Stepper.initializeValve adc clock scfg junk fuel this w = Done (ret, this', w')
        \/ DCMotor.initializeValve adc clock dcfg fuel this w = Done (ret, this', w') ->
        defined (errors this'))
  /\ (forall ret dc' b',
        defined (HotplateClampDCMotor.errors dc) ->
        HotplateClampDCMotor.goUp switch clock fuel dc b = Done (ret, dc', b')
        \/ HotplateClampDCMotor.goDown switch clock fuel dc b = Done (ret, dc', b') ->
        defined (HotplateClampDCMotor.errors dc')
        /\ (ret = false ->
            HelperFunctions.getErrorMessage (HotplateClampDCMotor.errors dc')
            = HelperFunctions.getErrorMessage 3))
  /\ (forall ret stepper' b',
        defined (HotplateClampStepperMotor.errors stepper) ->
        HotplateClampStepperMotor.homePosition switch clock fuel stepper b
        = Done (ret, stepper', b') ->
        defined (HotplateClampStepperMotor.errors stepper')
        /\ (ret = false ->
            HelperFunctions.getErrorMessage (HotplateClampStepperMotor.errors stepper')
            = HelperFunctions.getErrorMessage 1)).
Proof.
  intros defined. subst defined. cbv beta.
  split; [exact getErrorMessage_defined|]. split; [|split; [|split; [|split]]].
  - intros e. unfold HelperFunctions.getErrorMessage.
    destruct (Z.eqb_spec e 0), (Z.eqb_spec e 1), (Z.eqb_spec e 2), (Z.eqb_spec e 3);
      split; try lia; try discriminate; reflexivity.
  - intros e e' He. apply getErrorMessage_defined in He.
    assert (Hc : e = 0 \/ e = 1 \/ e = 2 \/ e = 3) by lia.
    unfold HelperFunctions.getErrorMessage.
    destruct Hc as [->|[->|[->| ->]]]; cbn;
      destruct (Z.eqb_spec e' 0), (Z.eqb_spec e' 1), (Z.eqb_spec e' 2), (Z.eqb_spec e' 3);
      intros; try discriminate; lia.
  - intros ret this' w' [H|[H|[H|H]]]; apply getErrorMessage_defined.
    + apply Stepper_gotoPosition_outcomes in H as (_ & _ & [[_ ->]| ->]); cbn; lia.
    + apply DC_gotoPosition_outcomes in H as (_ & _ & [[_ ->]|[_ ->]]); cbn; lia.
    + eapply Stepper_initializeValve_codes; eassumption.
    + eapply DC_initializeValve_codes; eassumption.
  - intros ret dc' b' Hd H.
    unfold HotplateClampDCMotor.goUp, HotplateClampDCMotor.goDown in H.
    cbn [HotplateClamp.millis] in H.
    destruct H as [H|H];
      (destruct (HotplateClampDCMotor.waitForSwitch _ _ _ _ _ _) as [b1| |];
       try discriminate);
      cbn [mbind result_mbind bind HotplateClamp.digitalRead] in H;
      (destruct (switch _ _); injection H as <- <- <-);
      (split; [try exact Hd; eexists; reflexivity
              |intros; try discriminate; reflexivity]).
  - intros ret stepper' b' Hd H.
    unfold HotplateClampStepperMotor.homePosition in H.
    cbn [HotplateClamp.millis] in H.
    destruct (HotplateClampStepperMotor.homingLoop _ _ _ _ _) as [b1| |];
      try discriminate.
    cbn [mbind result_mbind bind HotplateClamp.digitalRead] in H.
    destruct (switch _ _); injection H as <- <- <-;
      (split; [try exact Hd; eexists; reflexivity
              |intros; try discriminate; reflexivity]).
Qed.

Lemma getErrorMessage_covers_every_code_witness :
  exists msg, HelperFunctions.getErrorMessage (errors (Valve 0 3 512 55)) = Some msg.
Proof.
  apply (proj1 (proj2 (proj2 (proj2
           (getErrorMessage_covers_every_code flatSensor (jumpingClock 1)
              Stepper.defaultConfig DCMotor.defaultConfig 0 neverReleased 5 2
              (calibratedAt 0) powerOn (HotplateClampDCMotor.Clamp 180 0)
              (HotplateClampStepperMotor.Clamp 100 180 0) (HotplateClamp.Board 0 0 [])))))
           true (Valve 0 3 512 55) (World 0 2 [SleepPin false; Steps 3; SleepPin true])).
  left. vm_compute. reflexivity.
Defined.


(** ** The state after [initializeValve] *)

(** Where a valve can stand after [initializeValve]: where it stood, at
    the reference port, or at port 0; after a success, at one of the
    latter two. *)
Section FinalPosition.
Variables (adc clock : nat -> Z).

Lemma Stepper_afterCensus_position (cfg : Stepper.config) fuel this l w ret this' w' :
  Stepper.afterCensus adc clock cfg fuel this l w = Done (ret, this', w') ->
  finalPosition (Stepper.reversedPolarityPos cfg) this ret this'.
Proof.
  assert (Hfin : forall this0 w0 ret this' w',
             hallSensorIdleSignal this0 = hallSensorIdleSignal this ->
             hallSensorThreshold this0 = hallSensorThreshold this ->
             Stepper.finalize adc clock cfg fuel this0 w0 = Done (ret, this', w') ->
             finalPosition (Stepper.reversedPolarityPos cfg) this ret this').
  { intros this0 w0 r t' w0' Hi Ht. unfold Stepper.finalize.
    destruct (Stepper.gotoPosition _ _ _ _ _ _ _) as [[[r1 t1] w2]| |] eqn:Eg;
      try discriminate.
    apply Stepper_gotoPosition_outcomes in Eg as (_ & _ & [[_ ->]| ->]);
      cbn [mbind result_mbind bind]; intros [= <- <- <-]; unfold finalPosition; cbn; auto. }
  assert (Hhome : forall this0 st lr h w0 ret this' w',
             hallSensorIdleSignal this0 = hallSensorIdleSignal this ->
             hallSensorThreshold this0 = hallSensorThreshold this ->
             currentPos this0 = currentPos this
             \/ currentPos this0 = Stepper.reversedPolarityPos cfg ->
             andThen (Stepper.homingLoop adc clock cfg fuel this0 st lr h w0)
               (fun _ w => Stepper.finalize adc clock cfg fuel this0 w)
             = Done (ret, this', w') ->
             finalPosition (Stepper.reversedPolarityPos cfg) this ret this').
  { intros this0 st lr h w0 r t' w0' Hi Ht Hp.
    destruct (Stepper.homingLoop _ _ _ _ _ _ _ _ _) as [f| |] eqn:Eh; try discriminate.
    apply Stepper_homingLoop_gaveUp in Eh.
    destruct f as [r1 t1 w1|[] w1]; cbn [andThen gaveUp] in *.
    - intros [= <- <- <-]. destruct Eh as (-> & -> & _).
      unfold finalPosition. cbn. intuition discriminate.
    - apply Hfin; assumption. }
  unfold Stepper.afterCensus, Stepper.locate. cbn [millis].
  destruct (negb (_ =? _)).
  { intros [= <- <- <-]. unfold finalPosition. cbn. intuition discriminate. }
  destruct (_ && _).
  - cbn [andThen]. destruct (_ <=? _).
    { intros [= <- <- <-]. unfold finalPosition. cbn. intuition discriminate. }
    apply Hhome; cbn; auto.
  - destruct (Stepper.searchLoop _ _ _ _ _ _ _ _ _ _ _) as [f| |] eqn:Es; try discriminate.
    apply Stepper_searchLoop_gaveUp in Es. cbn [mbind result_mbind bind].
    destruct f as [r t w1|[[h a] sc] w1]; cbn [andThen gaveUp] in *.
    { intros [= <- <- <-]. destruct Es as (-> & -> & _).
      unfold finalPosition. cbn. intuition discriminate. }
    destruct (_ <=? _).
    { intros [= <- <- <-]. unfold finalPosition. cbn. intuition discriminate. }
    apply Hhome; auto.
Qed.

Lemma DC_afterCensus_position (cfg : DCMotor.config) fuel this l w ret this' w' :
  DCMotor.afterCensus adc clock cfg fuel this l w = Done (ret, this', w') ->
  finalPosition (DCMotor.reversedPolarityPos cfg) this ret this'.
Proof.
  assert (Hfin : forall this0 w0 ret this' w',
             hallSensorIdleSignal this0 = hallSensorIdleSignal this ->
             hallSensorThreshold this0 = hallSensorThreshold this ->
             DCMotor.finalize adc clock cfg fuel this0 w0 = Done (ret, this', w') ->
             finalPosition (DCMotor.reversedPolarityPos cfg) this ret this').
  { intros this0 w0 r t' w0' Hi Ht. unfold DCMotor.finalize.
    destruct (DCMotor.gotoPosition _ _ _ _ _ _ _) as [[[r1 t1] w2]| |] eqn:Eg;
      try discriminate.
    apply DC_gotoPosition_outcomes in Eg as (_ & _ & [[_ ->]|[_ ->]]);
      cbn [mbind result_mbind bind]; intros [= <- <- <-]; unfold finalPosition; cbn; auto. }
  unfold DCMotor.afterCensus, DCMotor.locate. cbn [millis]. cbv zeta.
  destruct (negb (_ =? _)).
  { intros [= <- <- <-]. unfold finalPosition. cbn. intuition discriminate. }
  destruct (_ && _).
  - cbn [andThen]. destruct (_ <=? _).
    { intros [= <- <- <-]. unfold finalPosition. cbn. intuition discriminate. }
    apply Hfin; reflexivity.
  - destruct (DCMotor.searchLoop _ _ _ _ _ _ _ _ _ _ _) as [f| |] eqn:Es; try discriminate.
    apply DC_searchLoop_gaveUp in Es. cbn [mbind result_mbind bind].
    destruct f as [r t w1|[[h a] sc] w1]; cbn [andThen gaveUp] in *.
    { intros [= <- <- <-]. destruct Es as (-> & -> & _).
      unfold finalPosition. cbn. intuition discriminate. }
    destruct (_ <=? _).
    { intros [= <- <- <-]. unfold finalPosition. cbn. intuition discriminate. }
    apply Hfin; reflexivity.
Qed.
End FinalPosition.

Lemma Stepper_calibrate_frame (cfg : Stepper.config) junk sensorSignals this this1 :
  Stepper.calibrate cfg junk sensorSignals this = Done this1 ->
  currentPos this1 = currentPos this /\ errors this1 = errors this.
Proof.
  unfold Stepper.calibrate. destruct (Stepper.collectMinima _ _) as [j buf].
  destruct (readAt _ _); try discriminate. cbn [mbind result_mbind bind].
  destruct (readAt _ _); try discriminate. cbn [bind].
  intros [= <-]. auto.
Qed.

Lemma DC_calibrate_frame sensorSignals minValue maxValue this this1 :
  DCMotor.calibrate sensorSignals minValue maxValue this = Done this1 ->
  currentPos this1 = currentPos this /\ errors this1 = errors this.
Proof.
  unfold DCMotor.calibrate.
  destruct (DCMotor.collectMinima _) as [[j buf]| |]; try discriminate.
  cbn [mbind result_mbind bind].
  destruct (readAt _ _); try discriminate. cbn [bind].
  intros [= <-]. auto.
Qed.

Lemma DC_sampleRotation_samples (adc : nat -> Z) n :
  forall this minValue maxValue w,
    fst (fst (fst (DCMotor.sampleRotation adc n this minValue maxValue w)))
    = readingsFrom adc (adcReads w) n.
Proof.
  induction n as [|n IH]; intros this mn mx w; [reflexivity|].
  cbn [DCMotor.sampleRotation]. rewrite readHallSensorSignal_at, readingsFrom_S.
  repeat match goal with
         | |- context [if ?c then _ else _] => destruct c
         end;
    match goal with
    | |- context [DCMotor.sampleRotation adc n this ?a ?b ?w1] =>
      specialize (IH this a b w1);
      destruct (DCMotor.sampleRotation adc n this a b w1) as [[[rest mn'] mx'] w2]
    end;
    cbn [fst adcReads] in *; rewrite IH; reflexivity.
Qed.

(** X26.  Where [initializeValve] leaves the object.  Either the sensor
    check failed: [false], error code 1, calibration reset to 0, position
    untouched.  Or the calibration has been computed by [calibrate] from
    the sampled rotation (the readings that follow the first four; on the
    DC-motor valve together with the two extreme values that the sampling
    loop has tracked over them, started from 1023 and 0) and is kept to
    the end, whatever happens afterwards; the valve then stands at port 0
    or at the reference port, or, after a failure, possibly still where it
    stood.  A success never leaves it anywhere but at port 0 or at the
    reference port. *)
Theorem initializeValve_final_state
    (adc clock : nat -> Z) (scfg : Stepper.config) (dcfg : DCMotor.config) (junk : Z)
    (fuel : nat) (this : valve) (w : world) :
  let start := Valve (currentPos this) (errors this) 512 0 in
  (forall ret this' w',
      Stepper.initializeValve adc clock scfg junk fuel this w = Done (ret, this', w') ->
      (ret = false /\ this' = Valve (currentPos this) 1 0 0)
      \/ exists this1,
           Stepper.calibrate scfg junk
             (readingsFrom adc (20 + adcReads w) (Stepper.sensorSignalsLength scfg)) start
           = Done this1
           /\ finalPosition (Stepper.reversedPolarityPos scfg) this1 ret this'
           /\ currentPos this1 = currentPos this)
  /\ (forall ret this' w',
         DCMotor.initializeValve adc clock dcfg fuel this w = Done (ret, this', w') ->
         (ret = false /\ this' = Valve (currentPos this) 1 0 0)
         \/ exists (this1 : valve) (minValue maxValue : Z) (w2 : world),
              DCMotor.sampleRotation adc 512 start 1023 0
                (DCMotor.startTurning dcfg true
                   (World (20 + adcReads w) (clockReads w) (trace w)))
              = (readingsFrom adc (20 + adcReads w) 512, minValue, maxValue, w2)
              /\ DCMotor.calibrate (readingsFrom adc (20 + adcReads w) 512)
                   minValue maxValue start = Done this1
              /\ finalPosition (DCMotor.reversedPolarityPos dcfg) this1 ret this'
              /\ currentPos this1 = currentPos this).
Proof.
  intros start. split; intros ret this' w'.
  - unfold Stepper.initializeValve, Stepper.throughCensus.
    cbn [readHallSensorSignal]. rewrite Stepper_idleReads_sum.
    cbn [hallSensorIdleSignal adcReads].
    destruct (Z.eqb_spec (idleSum adc (5 + adcReads w)) 0) as [E0|_].
    { cbn [andThen]. intros [= <- <- <-]. left. split; [reflexivity|].
      unfold set_errors. cbn [currentPos errors hallSensorIdleSignal hallSensorThreshold].
      f_equal. exact E0. }
    unfold Stepper.censusPhase.
    match goal with
    | |- context [Stepper.sampleRotation adc scfg ?n ?w0] =>
      pose proof (Stepper_sampleRotation_steps adc scfg n w0) as Hs;
      destruct (Stepper.sampleRotation adc scfg n w0) as [sensorSignals w2]
    end.
    destruct Hs as (-> & _). cbn [adcReads emit].
    replace (15 + (5 + adcReads w))%nat with (20 + adcReads w)%nat by lia.
    change (set_idle 512 _) with start.
    destruct (Stepper.calibrate _ _ _ _) as [this1| |] eqn:Ecal; try discriminate.
    cbn [mbind result_mbind bind readHallSensorSignal].
    destruct (Stepper.censusLoop _ _ _ _ _ _) as [l w3].
    cbn [mbind result_mbind bind andThen]. intros H.
    apply Stepper_afterCensus_position in H. right. exists this1.
    split; [reflexivity|]. split; [exact H|].
    apply Stepper_calibrate_frame in Ecal. apply Ecal.
  - unfold DCMotor.initializeValve, DCMotor.throughCensus, DCMotor.censusPhase.
    rewrite DC_idleReads_sum. cbn [hallSensorIdleSignal].
    destruct (Z.eqb_spec (idleSum adc (adcReads w)) 0) as [E0|_].
    { cbn [andThen]. intros [= <- <- <-]. left. split; [reflexivity|].
      unfold set_errors. cbn [currentPos errors hallSensorIdleSignal hallSensorThreshold].
      f_equal. exact E0. }
    cbn [readHallSensorSignal millis adcReads clockReads trace].
    change (set_idle 512 _) with start.
    replace (5 + (15 + adcReads w))%nat with (20 + adcReads w)%nat by lia.
    match goal with
    | |- context [DCMotor.sampleRotation adc ?n ?t ?a ?b0 ?w0] =>
      pose proof (DC_sampleRotation_samples adc n t a b0 w0) as Hs;
      destruct (DCMotor.sampleRotation adc n t a b0 w0) as [[[sensorSignals mn] mx] w2]
        eqn:Esample
    end.
    cbn [fst] in Hs. subst sensorSignals.
    assert (Ha : forall d w0, adcReads (DCMotor.startTurning dcfg d w0) = adcReads w0).
    { intros d w0. unfold DCMotor.startTurning. destruct (_ || _); reflexivity. }
    rewrite Ha in Esample |- *. cbn [adcReads] in Esample |- *.
    destruct (DCMotor.calibrate _ _ _ _) as [this1| |] eqn:Ecal; try discriminate.
    cbn [mbind result_mbind bind].
    pose proof (DC_calibrate_frame _ _ _ _ _ Ecal) as [Hpos _].
    destruct (DCMotor.censusLoop _ _ _ _ _ _ _ _) as [[r t w3|l1 w3]| |] eqn:Ec;
      try discriminate; cbn [mbind result_mbind bind andThen].
    + apply DC_censusLoop_gaveUp in Ec. destruct Ec as (-> & -> & _).
      intros [= <- <- <-]. right. exists this1, mn, mx, w2.
      split; [reflexivity|]. split; [exact Ecal|]. split; [|exact Hpos].
      unfold finalPosition. cbn. auto 6.
    + intros H. apply DC_afterCensus_position in H. right. exists this1, mn, mx, w2.
      split; [reflexivity|]. split; [exact Ecal|]. split; [exact H|exact Hpos].
Qed.

Lemma initializeValve_final_state_witness :
  (true = false /\ Valve 5 0 512 60 = Valve (currentPos constructed) 1 0 0)
  \/ exists (this1 : valve) (minValue maxValue : Z) (w2 : world),
       DCMotor.sampleRotation (tentSensor 10 3 1000) 512
         (Valve (currentPos constructed) (errors constructed) 512 0) 1023 0
         (DCMotor.startTurning DCMotor.defaultConfig true
            (World (20 + adcReads powerOn) (clockReads powerOn) (trace powerOn)))
       = (readingsFrom (tentSensor 10 3 1000) (20 + adcReads powerOn) 512,
          minValue, maxValue, w2)
       /\ DCMotor.calibrate (readingsFrom (tentSensor 10 3 1000) (20 + adcReads powerOn) 512)
            minValue maxValue
            (Valve (currentPos constructed) (errors constructed) 512 0) = Done this1
       /\ finalPosition (DCMotor.reversedPolarityPos DCMotor.defaultConfig) this1 true
            (Valve 5 0 512 60)
       /\ currentPos this1 = currentPos constructed.
Proof.
  apply (proj2 (initializeValve_final_state (tentSensor 10 3 1000) (jumpingClock 400)
                  Stepper.defaultConfig DCMotor.defaultConfig 0 1000 constructed powerOn)
           true (Valve 5 0 512 60)
           (World 4570 401
              [MotorPins false false; MotorPins false true;
               MotorPins false false; MotorPins false true;
               MotorPins false false; MotorPins false true;
               MotorPins false false; MotorPins false true])).
  vm_compute. reflexivity.
Defined.


(** ** What an arrival of the stepper valve means *)

Section StepperArrival.
Variables (adc clock : nat -> Z) (cfg : Stepper.config).

(** The coarse loop is left through its guard right after the reading
    that shows the [signalSteps + 1]-th magnet. *)
Lemma Stepper_coarseLoop_counts fuel :
  forall this dir signalSteps startTime l w l' w',
    0 <= Stepper.signalCounter l <= signalSteps -> signalSteps < 255 ->
    Stepper.coarseLoop adc clock cfg fuel this dir signalSteps startTime l w
    = Done (Next l' w') ->
    exists n : nat,
      adcReads w' = (5 * S n + adcReads w)%nat
      /\ Stepper.hallSignal l' = hallSignalAt adc (adcReads w + 5 * n)
      /\ Stepper.isAboveThreshold l' = true
      /\ Stepper.signalCounter l
         + risingEdges this (Stepper.isAboveThreshold l) (readingsFrom adc (adcReads w) (S n))
         = signalSteps + 1.
Proof.
  induction fuel as [|fuel IH]; intros this dir ss st l w l' w' Hsc Hss H; [discriminate|].
  cbn [Stepper.coarseLoop millis] in H. rewrite readHallSensorSignal_at in H.
  destruct (Z.leb_spec (Stepper.signalCounter l) ss) as [_|]; [|lia].
  destruct (isTimedOut _ _ _); [discriminate|].
  unfold Stepper.takeSteps in H. cbn [adcReads emit] in H.
  set (h1 := hallSignalAt adc (adcReads w)) in *.
  assert (Hw : wrap8 (Stepper.signalCounter l + 1) = Stepper.signalCounter l + 1)
    by (apply wrap8_small; lia).
  assert (Hstep : forall n sc' a',
             sc' = Stepper.signalCounter l
                   + (if negb (Stepper.isAboveThreshold l) && aboveThreshold this h1
                      then 1 else 0) ->
             a' = aboveThreshold this h1 ->
             sc' + risingEdges this a' (readingsFrom adc (5 + adcReads w) (S n)) = ss + 1 ->
             Stepper.signalCounter l
             + risingEdges this (Stepper.isAboveThreshold l)
                 (readingsFrom adc (adcReads w) (S (S n))) = ss + 1).
  { intros n sc' a' -> -> Hc.
    rewrite (readingsFrom_S adc (adcReads w) (S n)). fold h1. cbn [risingEdges]. lia. }
  destruct (Stepper.isAboveThreshold l) eqn:Ea, (aboveThreshold this h1) eqn:Eh;
    cbn [negb andb] in H, Hstep; cbv beta iota zeta in H; rewrite ?Hw in H.
  3: destruct (Z.eq_dec (Stepper.signalCounter l) ss) as [Heq|Hne].
  3: { destruct fuel as [|fuel]; [discriminate|].
       cbn [Stepper.coarseLoop Stepper.signalCounter] in H.
       destruct (Z.leb_spec (Stepper.signalCounter l + 1) ss); [lia|].
       injection H as <- <-. exists 0%nat.
       rewrite readingsFrom_S. fold h1. cbn [risingEdges readingsFrom seq fmap list_fmap].
       rewrite Eh, Nat.add_0_r. cbn. fold h1. repeat split; lia. }
  all: apply IH in H; cbn [Stepper.signalCounter Stepper.isAboveThreshold adcReads] in *;
    [|lia..];
    destruct H as (n & Hn & Hh & Ha & Hc); exists (S n);
    (split; [lia|]); (split; [rewrite Hh; f_equal; lia|]); (split; [exact Ha|]);
    eapply Hstep; [| |exact Hc]; first [reflexivity | lia].
Qed.

(** The fine loop is left through its guard when the reading just taken
    is above the threshold and deviates less from the idle signal than
    the one before: [g] lists the readings, from [lastRead] on. *)
Lemma Stepper_fineLoop_peak fuel :
  forall this dir startTime lastRead hallSignal isAbove w w' (g : nat -> Z),
    lastRead = g 0%nat -> hallSignal = g 1%nat ->
    (forall i, hallSignalAt adc (adcReads w + 5 * i) = g (2 + i)%nat) ->
    Stepper.fineLoop adc clock cfg fuel this dir startTime lastRead hallSignal isAbove w
    = Done (Next tt w') ->
    exists n : nat,
      adcReads w' = (5 * n + adcReads w)%nat
      /\ Z.abs (g (S n) - hallSensorIdleSignal this) < Z.abs (g n - hallSensorIdleSignal this)
      /\ (if n is O then isAbove = true else aboveThreshold this (g (S n)) = true).
Proof.
  induction fuel as [|fuel IH]; intros this dir st lr h a w w' g Hlr Hh Hg H;
    [discriminate|].
  cbn [Stepper.fineLoop millis] in H. rewrite readHallSensorSignal_at in H.
  destruct (negb a || _) eqn:Ec.
  - destruct (isTimedOut _ _ _); [discriminate|].
    unfold Stepper.takeSteps in H. cbn [adcReads emit] in H.
    pose proof (Hg 0%nat) as Hg0. rewrite Nat.mul_0_r, Nat.add_0_r in Hg0.
    change (2 + 0)%nat with 2%nat in Hg0.
    apply (IH _ _ _ _ _ _ _ _ (fun i => g (S i))) in H.
    + destruct H as (n & Hn & Hd & Ha). cbn [adcReads] in Hn. exists (S n).
      split; [lia|]. split; [exact Hd|].
      destruct n as [|n]; [|exact Ha].
      rewrite <- Hg0. exact Ha.
    + exact Hh.
    + exact Hg0.
    + intros i. cbn [adcReads].
      replace (5 + adcReads w + 5 * i)%nat with (adcReads w + 5 * S i)%nat by lia.
      exact (Hg (S i)).
  - injection H as <-. exists 0%nat. subst lr h.
    destruct a; cbn [negb orb andb] in Ec; [|discriminate].
    apply Z.leb_gt in Ec. split; [reflexivity|]. split; [exact Ec|reflexivity].
Qed.
End StepperArrival.

(** X27.  When the stepper valve reports arrival with error code 0, it
    stands just past a peak of the signal: it has taken at least two
    readings, the last one is above the threshold and deviates less from
    the idle signal than the one before it (the single steps of the fine
    phase went on until the signal began to fall), and the readings of the
    call show at least [signalSteps + 1] magnets. *)
Theorem Stepper_gotoPosition_stops_past_a_peak
    (adc clock : nat -> Z) (cfg : Stepper.config) (fuel : nat)
    (target : Z) (this this' : valve) (w w' : world) (ret : bool) :
  1 <= Stepper.ports cfg <= 255 ->
  Stepper.gotoPosition adc clock cfg fuel target this w = Done (ret, this', w') ->
  errors this' = 0 ->
  let signalSteps := snd (chooseDirection (Stepper.ports cfg) (currentPos this) target) in
  let reading (i : nat) := hallSignalAt adc (adcReads w + 5 * i) in
  let idle := hallSensorIdleSignal this in
  exists N : nat,
    (2 <= N)%nat
    /\ adcReads w' = (5 * N + adcReads w)%nat
    /\ aboveThreshold this (reading (N - 1)%nat) = true
    /\ Z.abs (reading (N - 1)%nat - idle) < Z.abs (reading (N - 2)%nat - idle)
    /\ signalSteps + 1 <= risingEdges this false (readingsFrom adc (adcReads w) N).
Proof.
  intros Hports H Herr.
  pose proof (chooseDirection_signalSteps (Stepper.ports cfg) (currentPos this) target
                ltac:(lia)) as Hss.
  assert (Hb : (Stepper.ports cfg + 1) / 2 <= 128).
  { apply Z.div_le_upper_bound; lia. }
  unfold Stepper.gotoPosition in H. cbn [millis] in H.
  destruct (chooseDirection _ _ _) as [first signalSteps]. cbn [snd] in *.
  destruct (Stepper.coarseLoop _ _ _ _ _ _ _ _ _ _) as [f| |] eqn:Ec; try discriminate.
  destruct f as [r t w1|l1 w1]; cbn [andThen] in H.
  { apply Stepper_coarseLoop_gaveUp in Ec. destruct Ec as (_ & -> & _).
    injection H as _ <- _. discriminate Herr. }
  apply Stepper_coarseLoop_counts in Ec; cbn [Stepper.signalCounter]; [|lia..].
  destruct Ec as (nc & Hnc & Hh & Ha & Hcount).
  cbn [adcReads emit Stepper.signalCounter Stepper.isAboveThreshold] in *.
  destruct (Stepper.fineLoop _ _ _ _ _ _ _ _ _ _) as [f| |] eqn:Ef; try discriminate.
  destruct f as [r t w2|[] w2]; cbn [andThen] in H.
  { apply Stepper_fineLoop_gaveUp in Ef. destruct Ef as (_ & -> & _).
    injection H as _ <- _. discriminate Herr. }
  injection H as _ _ <-. cbn [adcReads emit].
  pose (g := fun i : nat =>
               match i with
               | O => Stepper.hallSignal l1
               | S j => hallSignalAt adc (adcReads w + 5 * (nc + j))
               end).
  apply Stepper_fineLoop_peak with (g := g) in Ef.
  - destruct Ef as (nf & Hnf & Hd & Hab).
    destruct nf as [|nf].
    { cbn [g] in Hd. rewrite Hh, Nat.add_0_r in Hd. lia. }
    exists (S nc + S nf)%nat.
    replace (S nc + S nf - 1)%nat with (nc + S nf)%nat by lia.
    replace (S nc + S nf - 2)%nat with (nc + nf)%nat by lia.
    cbn [g] in Hd, Hab.
    split; [lia|]. split; [lia|]. split; [exact Hab|]. split; [exact Hd|].
    rewrite readingsFrom_app. etrans; [|apply risingEdges_prefix]. lia.
  - reflexivity.
  - cbn [g]. rewrite Hh, Nat.add_0_r. reflexivity.
  - intros i. cbn [g Nat.add]. rewrite Hnc. apply (f_equal (hallSignalAt adc)). lia.
Qed.

Lemma Stepper_gotoPosition_stops_past_a_peak_witness :
  let signalSteps :=
    snd (chooseDirection (Stepper.ports Stepper.defaultConfig)
           (currentPos (calibratedAt 0)) 1) in
  let reading (i : nat) :=
    hallSignalAt (adcOfReadings (bumpUp ++ bumpUp)) (adcReads powerOn + 5 * i) in
  let idle := hallSensorIdleSignal (calibratedAt 0) in
  exists N : nat,
    (2 <= N)%nat
    /\ adcReads (World 90 19 []) = (5 * N + adcReads powerOn)%nat
    /\ aboveThreshold (calibratedAt 0) (reading (N - 1)%nat) = true
    /\ Z.abs (reading (N - 1)%nat - idle) < Z.abs (reading (N - 2)%nat - idle)
    /\ signalSteps + 1
       <= risingEdges (calibratedAt 0) false
            (readingsFrom (adcOfReadings (bumpUp ++ bumpUp)) (adcReads powerOn) N).
Proof.
  apply (Stepper_gotoPosition_stops_past_a_peak (adcOfReadings (bumpUp ++ bumpUp))
           steadyClock Stepper.defaultConfig 100 1 (calibratedAt 0) (Valve 1 0 512 55)
           powerOn
           (World 90 19
              [SleepPin false; Steps 1; Steps 1; Steps 1; Steps 1; Steps 1; Steps 1;
               Steps 1; Steps 1; Steps 1; Steps 1; Steps 3; Steps 3; Steps 3; Steps 3;
               Steps 3; Steps 3; Steps 3; Steps 3; SleepPin true])
           true).
  - cbn. lia.
  - vm_compute. reflexivity.
  - reflexivity.
Defined.

(** ** A valve without a reversed magnet *)

Lemma noMinoritySignal_calibration adc this this' majority w :
  hallSensorIdleSignal this' = hallSensorIdleSignal this ->
  hallSensorThreshold this' = hallSensorThreshold this ->
  noMinoritySignal adc this' majority w -> noMinoritySignal adc this majority w.
Proof.
  intros Hi Ht H j. specialize (H j). cbv zeta in *.
  unfold aboveThreshold in *. rewrite Hi, Ht in H. exact H.
Qed.

Section SinglePolarity.
Variables (adc clock : nat -> Z).

Lemma census_step_onePolarity this polarity l h :
  onePolarity this polarity l ->
  (aboveThreshold this h = true -> (hallSensorIdleSignal this <? h) = polarity) ->
  forall sc sc',
    onePolarity this polarity
      (let l1 :=
         if negb (c_isAboveThreshold l) && aboveThreshold this h
         then
           if hallSensorIdleSignal this <? h
           then CensusLocals h true sc' (wrap8 (posPolarityCounter l + 1))
                  (negPolarityCounter l)
           else CensusLocals h true sc' (posPolarityCounter l)
                  (wrap8 (negPolarityCounter l + 1))
         else CensusLocals h (c_isAboveThreshold l) sc (posPolarityCounter l)
                (negPolarityCounter l) in
       if negb (aboveThreshold this h)
       then CensusLocals (c_hallSignal l1) false (c_signalCounter l1)
              (posPolarityCounter l1) (negPolarityCounter l1)
       else l1).
Proof.
  intros (Hp & Hn & Hz & Ha) Hh sc sc'. cbv zeta.
  pose proof (wrap8_range (posPolarityCounter l + 1)).
  pose proof (wrap8_range (negPolarityCounter l + 1)).
  unfold onePolarity.
  destruct (c_isAboveThreshold l) eqn:Ea, (aboveThreshold this h) eqn:Eh;
    cbn [negb andb];
    try (specialize (Hh eq_refl));
    try destruct (hallSensorIdleSignal this <? h) eqn:Es;
    cbn [posPolarityCounter negPolarityCounter c_isAboveThreshold c_hallSignal];
    subst; repeat split; try lia; try assumption; try discriminate; auto;
    try (destruct polarity; assumption).
Qed.

Lemma Stepper_censusLoop_onePolarity (cfg : Stepper.config) this polarity n :
  forall l w,
    noMinoritySignal adc this polarity w ->
    onePolarity this polarity l ->
    onePolarity this polarity (fst (Stepper.censusLoop adc cfg n this l w))
    /\ noMinoritySignal adc this polarity (snd (Stepper.censusLoop adc cfg n this l w)).
Proof.
  induction n as [|n IH]; intros l w Hno Hl; [split; assumption|].
  cbn [Stepper.censusLoop]. rewrite readHallSensorSignal_at.
  apply IH.
  - eapply noMinoritySignal_next; [|exact Hno]. reflexivity.
  - apply census_step_onePolarity; [exact Hl|].
    intros Ha. specialize (Hno 0%nat). cbv zeta in Hno.
    rewrite Nat.mul_0_r, Nat.add_0_r in Hno. exact (Hno Ha).
Qed.

Lemma DC_censusLoop_onePolarity (cfg : DCMotor.config) this polarity fuel :
  forall startTime l w l' w',
    noMinoritySignal adc this polarity w ->
    onePolarity this polarity l ->
    DCMotor.censusLoop adc clock cfg fuel this startTime l w = Done (Next l' w') ->
    onePolarity this polarity l'.
Proof.
  induction fuel as [|fuel IH]; intros st l w l' w' Hno Hl H; [discriminate|].
  cbn [DCMotor.censusLoop millis] in H. rewrite readHallSensorSignal_at in H.
  destruct (_ <? _); [|injection H as <- _; exact Hl].
  destruct (isTimedOut _ _ _); [discriminate|].
  eapply IH; [| |exact H].
  - eapply noMinoritySignal_next; [|exact Hno]. reflexivity.
  - apply census_step_onePolarity; [exact Hl|].
    intros Ha. specialize (Hno 0%nat). cbv zeta in Hno.
    rewrite Nat.mul_0_r, Nat.add_0_r in Hno. exact (Hno Ha).
Qed.

(** A search among readings of the majority polarity only: it gives up on
    the clock, or it runs until its counter is past the bound. *)
Lemma Stepper_searchLoop_onePolarity (cfg : Stepper.config) this majority fuel :
  forall startTime hallSignal isAbove signalCounter w f,
    noMinoritySignal adc this majority w ->
    Stepper.searchLoop adc clock cfg fuel this startTime majority hallSignal isAbove
      signalCounter w = Done f ->
    match f with
    | Return ret _ _ => ret = false
    | Next (_, _, signalCounter') _ => 2 * Stepper.ports cfg < signalCounter'
    end.
Proof.
  induction fuel as [|fuel IH]; intros st h a sc w f Hno H; [discriminate|].
  cbn [Stepper.searchLoop millis] in H. rewrite readHallSensorSignal_at in H.
  destruct (Z.leb_spec sc (2 * Stepper.ports cfg)); [|injection H as <-; lia].
  destruct (isTimedOut _ _ _); [injection H as <-; reflexivity|].
  cbn [adcReads clockReads trace] in H.
  assert (Hnext : forall t,
             noMinoritySignal adc this majority
               (Stepper.takeSteps cfg 1 (Stepper.initMul cfg)
                  (World (5 + adcReads w) (S (clockReads w)) t))).
  { intros t. eapply noMinoritySignal_next; [|exact Hno]. reflexivity. }
  destruct (negb a && aboveThreshold this (hallSignalAt adc (adcReads w))) eqn:Ee.
  - apply andb_prop in Ee as [_ Ea].
    rewrite (noMinoritySignal_now adc this majority w Hno Ea) in H.
    eapply IH; [|exact H]. apply Hnext.
  - eapply IH; [|exact H]. apply Hnext.
Qed.
End SinglePolarity.

Lemma DC_sampleRotation_adcReads (adc : nat -> Z) n :
  forall this minValue maxValue w,
    adcReads (snd (DCMotor.sampleRotation adc n this minValue maxValue w))
    = (5 * n + adcReads w)%nat.
Proof.
  induction n as [|n IH]; intros this mn mx w; [reflexivity|].
  cbn [DCMotor.sampleRotation]. rewrite readHallSensorSignal_at.
  repeat match goal with
         | |- context [if ?c then _ else _] => destruct c
         end;
    match goal with
    | |- context [DCMotor.sampleRotation adc n this ?a ?b ?w1] =>
      specialize (IH this a b w1);
      destruct (DCMotor.sampleRotation adc n this a b w1) as [[[rest mn'] mx'] w2]
    end;
    cbn [snd adcReads] in *; rewrite IH; lia.
Qed.

(** After a census that saw a single polarity, on a valve that is not a
    two-port valve, the stepper calibration cannot succeed. *)
Lemma Stepper_afterCensus_onePolarity (adc clock : nat -> Z) (cfg : Stepper.config)
    fuel this polarity l w ret this' w' :
  Stepper.ports cfg <> 2 ->
  onePolarity this polarity l ->
  noMinoritySignal adc this polarity w ->
  Stepper.afterCensus adc clock cfg fuel this l w = Done (ret, this', w') ->
  ret = false.
Proof.
  intros Hports (Hp & Hn & Hz & Ha) Hno. unfold Stepper.afterCensus.
  destruct (Z.eqb_spec (Z.abs (posPolarityCounter l - negPolarityCounter l))
              (Stepper.ports cfg - 2)) as [Hc|_]; cbn [negb];
    [|intros [= <- _ _]; reflexivity].
  assert (Hm : (negPolarityCounter l <? posPolarityCounter l) = polarity).
  { destruct polarity; [apply Z.ltb_lt|apply Z.ltb_ge]; lia. }
  unfold Stepper.locate. rewrite Hm. cbn [millis].
  assert (Hs : c_isAboveThreshold l
               && negb (eqb (hallSensorIdleSignal this <? c_hallSignal l) polarity) = false).
  { destruct (c_isAboveThreshold l); [|reflexivity].
    rewrite (Ha eq_refl). destruct polarity; reflexivity. }
  rewrite Hs.
  destruct (Stepper.searchLoop _ _ _ _ _ _ _ _ _ _ _) as [f| |] eqn:Es; try discriminate.
  apply Stepper_searchLoop_onePolarity in Es;
    [|apply (noMinoritySignal_later adc this polarity w _ 0); [reflexivity|exact Hno]].
  cbn [mbind result_mbind bind].
  destruct f as [r t w1|[[h a] sc] w1]; cbn [andThen].
  - intros [= <- _ _]. exact Es.
  - destruct (Z.leb_spec (2 * Stepper.ports cfg) sc); [|lia].
    intros [= <- _ _]. reflexivity.
Qed.

(** X28.  A valve on which every signal has the same polarity is never
    calibrated.  Suppose [initializeValve] returns, and that among the
    readings the sensor gives from the start of the call on, none that
    passes the threshold of the calibration the call has left in the
    object has the polarity opposite to [polarity].  Then it has returned
    [false]: on the stepper valve unless it has exactly two ports (where
    a census that counts nothing passes the check), on the DC-motor valve
    always. *)
Theorem initializeValve_needs_reversed_magnet
    (adc clock : nat -> Z) (scfg : Stepper.config) (dcfg : DCMotor.config) (junk : Z)
    (fuel : nat) (this : valve) (w : world) (polarity : bool) :
  (Stepper.ports scfg <> 2 ->
   forall ret this' w',
     Stepper.initializeValve adc clock scfg junk fuel this w = Done (ret, this', w') ->
     noMinoritySignal adc this' polarity w ->
     ret = false)
  /\ (forall ret this' w',
         DCMotor.initializeValve adc clock dcfg fuel this w = Done (ret, this', w') ->
         noMinoritySignal adc this' polarity w ->
         ret = false).
Proof.
  split.
  - intros Hports ret this' w'.
    unfold Stepper.initializeValve, Stepper.throughCensus.
    cbn [readHallSensorSignal]. rewrite Stepper_idleReads_sum.
    cbn [hallSensorIdleSignal adcReads].
    destruct (_ =? 0); [cbn [andThen]; intros [= <- _ _]; reflexivity|].
    unfold Stepper.censusPhase.
    match goal with
    | |- context [Stepper.sampleRotation adc scfg ?n ?w0] =>
      pose proof (Stepper_sampleRotation_steps adc scfg n w0) as Hs;
      destruct (Stepper.sampleRotation adc scfg n w0) as [sensorSignals w2]
    end.
    destruct Hs as (_ & Hw2 & _). cbn [adcReads emit] in Hw2.
    destruct (Stepper.calibrate _ _ _ _) as [this1| |]; try discriminate.
    cbn [mbind result_mbind bind]. rewrite readHallSensorSignal_at.
    match goal with
    | |- context [Stepper.censusLoop adc scfg ?n this1 ?l0 ?w3] =>
      pose proof (Stepper_censusLoop_onePolarity adc scfg this1 polarity n l0 w3) as Hc;
      destruct (Stepper.censusLoop adc scfg n this1 l0 w3) as [l w4]
    end.
    cbn [fst snd mbind result_mbind bind andThen] in *. intros H Hno.
    pose proof (Stepper_afterCensus_position adc clock scfg _ _ _ _ _ _ _ H)
      as (Hi & Ht & _).
    apply (noMinoritySignal_calibration adc this1 this' polarity w Hi Ht) in Hno.
    assert (Hno2 : noMinoritySignal adc this1 polarity w2).
    { apply (noMinoritySignal_later adc this1 polarity w _
               (4 + Stepper.sensorSignalsLength scfg)); [|exact Hno].
      rewrite Hw2. lia. }
    destruct Hc as [Hl Hno4].
    + eapply noMinoritySignal_next; [|exact Hno2]. reflexivity.
    + unfold onePolarity.
      cbn [posPolarityCounter negPolarityCounter c_isAboveThreshold c_hallSignal].
      repeat split; try lia; [destruct polarity; reflexivity|].
      intros Habove. specialize (Hno2 0%nat). cbv zeta in Hno2.
      rewrite Nat.mul_0_r, Nat.add_0_r in Hno2. exact (Hno2 Habove).
    + exact (Stepper_afterCensus_onePolarity adc clock scfg _ _ _ _ _ _ _ _
               Hports Hl Hno4 H).
  - intros ret this' w'.
    unfold DCMotor.initializeValve, DCMotor.throughCensus, DCMotor.censusPhase.
    rewrite DC_idleReads_sum. cbn [hallSensorIdleSignal].
    destruct (_ =? 0); [cbn [andThen]; intros [= <- _ _]; reflexivity|].
    rewrite readHallSensorSignal_at. cbn [millis adcReads clockReads trace].
    match goal with
    | |- context [DCMotor.sampleRotation adc ?n ?t ?a ?b0 ?w0] =>
      pose proof (DC_sampleRotation_adcReads adc n t a b0 w0) as Hw2;
      destruct (DCMotor.sampleRotation adc n t a b0 w0) as [[[sensorSignals mn] mx] w2]
    end.
    assert (Ha : forall d w0, adcReads (DCMotor.startTurning dcfg d w0) = adcReads w0).
    { intros d w0. unfold DCMotor.startTurning. destruct (_ || _); reflexivity. }
    cbn [snd] in Hw2. rewrite Ha in Hw2. cbn [adcReads] in Hw2.
    destruct (DCMotor.calibrate _ _ _ _) as [this1| |]; try discriminate.
    cbn [mbind result_mbind bind]. rewrite readHallSensorSignal_at.
    cbn [DCMotor.stopTurning emit adcReads clockReads trace].
    destruct (DCMotor.censusLoop _ _ _ _ _ _ _ _) as [[r t w3|l w3]| |] eqn:Ec;
      try discriminate; cbn [mbind result_mbind bind andThen].
    { apply DC_censusLoop_gaveUp in Ec. destruct Ec as (-> & _).
      intros [= <- _ _]. reflexivity. }
    intros H Hno.
    pose proof (DC_afterCensus_position adc clock dcfg _ _ _ _ _ _ _ H) as (Hi & Ht & _).
    apply (noMinoritySignal_calibration adc this1 this' polarity w Hi Ht) in Hno.
    assert (Hno2 : noMinoritySignal adc this1 polarity w2).
    { apply (noMinoritySignal_later adc this1 polarity w _ 516); [|exact Hno].
      rewrite Hw2. lia. }
    assert (Hl : onePolarity this1 polarity l).
    { eapply DC_censusLoop_onePolarity; [| |exact Ec].
      - eapply noMinoritySignal_next; [|exact Hno2].
        rewrite Ha. reflexivity.
      - unfold onePolarity.
        cbn [posPolarityCounter negPolarityCounter c_isAboveThreshold c_hallSignal].
        repeat split; try lia; [destruct polarity; reflexivity|].
        intros Habove. specialize (Hno2 0%nat). cbv zeta in Hno2.
        rewrite Nat.mul_0_r, Nat.add_0_r in Hno2. exact (Hno2 Habove). }
    assert (Hcheck : Z.abs (posPolarityCounter l - negPolarityCounter l)
                     <> 2 * (DCMotor.ports dcfg - 2)).
    { destruct Hl as (Hp & Hn & Hz & _).
      destruct (Z_lt_le_dec (DCMotor.ports dcfg) 0) as [Hneg|Hnn].
      - destruct fuel as [|fuel]; [discriminate|].
        cbn [DCMotor.censusLoop c_signalCounter] in Ec.
        destruct (Z.ltb_spec 0 (2 * DCMotor.ports dcfg)); [lia|].
        injection Ec as <- _. cbn. lia.
      - destruct (Z_le_gt_dec (DCMotor.ports dcfg) 127) as [Hsmall|Hbig].
        + apply DC_censusLoop_sum in Ec; cbn; try lia.
          destruct polarity; lia.
        + exfalso. revert Ec. apply DC_censusLoop_byte; cbn; lia. }
    unfold DCMotor.afterCensus in H.
    destruct (Z.eqb_spec (Z.abs (posPolarityCounter l - negPolarityCounter l))
                (2 * (DCMotor.ports dcfg - 2))) as [Hc|_]; [contradiction|].
    cbn [negb] in H. injection H as <- _ _. reflexivity.
Qed.

Lemma initializeValve_needs_reversed_magnet_witness : false = false /\ false = false.
Proof.
  split.
  - apply (proj1 (initializeValve_needs_reversed_magnet
                    (adcOfReadings sixPortAllUpReadings) slowClock
                    Stepper.defaultConfig DCMotor.defaultConfig 0 300 constructed powerOn
                    true)
             ltac:(discriminate) false (Valve 0 2 512 55)
             (World 695 0 (SleepPin false :: replicate 134 (Steps 3) ++ [SleepPin true]))).
    + vm_compute. reflexivity.
    + apply (noMinoritySignal_by_table _ _ _ 0 139 0); [vm_compute; reflexivity|].
      intros j Hj. rewrite adcOfReadings_flat; [reflexivity|].
      change (length sixPortAllUpReadings) with 139%nat. lia.
  - apply (proj2 (initializeValve_needs_reversed_magnet
                    (adcOfReadings lowIdleReadings) steadyClock
                    Stepper.defaultConfig DCMotor.defaultConfig 0 3001 constructed powerOn
                    true)
             false (Valve 0 2 300 8)
             (World 4170 318 [MotorPins false false; MotorPins false true;
                              MotorPins false false; MotorPins false true])).
    + vm_compute. reflexivity.
    + intros j. cbv zeta. cbn [adcReads powerOn]. intros Ha.
      destruct (Nat.lt_ge_cases j 1300) as [Hj|Hj].
      * assert (Htable :
                  forallb
                    (fun j =>
                       implb (aboveThreshold (Valve 0 2 300 8)
                                (hallSignalAt (adcOfReadings lowIdleReadings) (0 + 5 * j)))
                         (eqb (300 <? hallSignalAt (adcOfReadings lowIdleReadings)
                                        (0 + 5 * j)) true))
                    (seq 0 1300) = true) by (vm_compute; reflexivity).
        rewrite forallb_forall in Htable.
        specialize (Htable j ltac:(apply in_seq; lia)). cbv beta in Htable.
        rewrite Ha in Htable. apply eqb_prop. exact Htable.
      * rewrite adcOfReadings_flat; [reflexivity|].
        unfold lowIdleReadings. rewrite length_fmap, length_seq. lia.
Defined.
